(** * BusTub storage core: buffer pool manager, LRU replacer and B+ tree index

    A shallow embedding of the C++ sources
      - src/buffer/lru_replacer.cpp
      - src/buffer/buffer_pool_manager.cpp
      - src/storage/page/b_plus_tree_internal_page.cpp
      - src/storage/index/b_plus_tree.cpp, src/include/storage/index/b_plus_tree.h
      - src/storage/index/index_iterator.cpp
    Pointers into the pool ([Page *], [LeafPage *], ...) are frame indexes:
    two pointers to the same frame alias, as they do in the source.  The
    [int] counters of the source (pin counts, sizes, indexes) are integers
    here; they stay far below 2^31 on a pool and on pages of realistic size.

    The headers and the remaining translation units of the repository
    (page.h, lru_replacer.h, buffer_pool_manager.h, the disk manager,
    b_plus_tree_page.cpp, b_plus_tree_leaf_page.cpp, header_page.cpp, the key
    types) are not among the sources: what the code above needs from them is
    modelled from the specification, and says so. *)

From stdpp Require Import gmap strings list.
From Stdlib Require Import ZArith Lia.

Open Scope Z_scope.

(** Modelled from the spec: page and frame identifiers are integers
    (config.h is not part of the sources), with [INVALID = -1] and
    [HEADER = 0] (section 6). *)
Definition page_id_t := Z.
Definition frame_id_t := Z.
Definition INVALID_PAGE_ID : page_id_t := -1.
Definition HEADER_PAGE_ID : page_id_t := 0.

(** [size_t] arithmetic wraps modulo 2^64. *)
Definition wrap_size_t (x : Z) : Z := x mod 2 ^ 64.

(** ** lru_replacer.cpp *)

(** Modelled from the spec: the class is declared in lru_replacer.h, which
    is not part of the sources; its members are the three lru_replacer.cpp
    uses.  [frame_ids] is the [std::list]: its head is the front (most
    recently unpinned), its last element the back; [cur_pages] and
    [max_pages] are counters of the width of [Size]'s [size_t]. *)
Record LRUReplacer := mkLRU {
  frame_ids : list frame_id_t;
  cur_pages : Z;
  max_pages : Z
}.

(** [LRUReplacer::LRUReplacer(num_pages)] *)
Definition LRUReplacer_new (num_pages : Z) : LRUReplacer :=
  mkLRU [] 0 num_pages.

(** [LRUReplacer::Victim]: [None] is the [false] return; [Some f] is the
    [true] return with [*frame_id = f].  ([back()] of an empty list is
    undefined in C++; [cur_pages] counts the list, so it is not reached from
    the constructor; the model reads frame 0 there.) *)
Definition Victim (r : LRUReplacer) : option frame_id_t * LRUReplacer :=
  if cur_pages r =? 0 then (None, r)
  else (Some (List.last (frame_ids r) 0),
        mkLRU (removelast (frame_ids r)) (wrap_size_t (cur_pages r - 1)) (max_pages r)).

(** [std::find] followed by [erase(iter)]: the first occurrence goes. *)
Fixpoint erase_first (f : frame_id_t) (l : list frame_id_t) : list frame_id_t :=
  match l with
  | [] => []
  | x :: l' => if x =? f then l' else x :: erase_first f l'
  end.

Fixpoint find_frame (f : frame_id_t) (l : list frame_id_t) : bool :=
  match l with
  | [] => false
  | x :: l' => if x =? f then true else find_frame f l'
  end.

(** [LRUReplacer::Pin] *)
Definition Pin (r : LRUReplacer) (frame_id : frame_id_t) : LRUReplacer :=
  if find_frame frame_id (frame_ids r)
  then mkLRU (erase_first frame_id (frame_ids r)) (wrap_size_t (cur_pages r - 1)) (max_pages r)
  else r.

(** [LRUReplacer::Unpin] *)
Definition Unpin (r : LRUReplacer) (frame_id : frame_id_t) : LRUReplacer :=
  if find_frame frame_id (frame_ids r) then r
  else
    let r1 := if cur_pages r =? max_pages r then snd (Victim r) else r in
    mkLRU (frame_id :: frame_ids r1) (wrap_size_t (cur_pages r1 + 1)) (max_pages r1).

(** [LRUReplacer::Size] *)
Definition Size (r : LRUReplacer) : Z := cur_pages r.

(** What the constructor establishes and every method keeps, for a capacity
    that fits a [size_t]: the counter mirrors the list, the list stays within
    the capacity and has no repetition. *)
Definition lru_wf (r : LRUReplacer) : Prop :=
  0 < max_pages r < 2 ^ 64 /\
  cur_pages r = Z.of_nat (length (frame_ids r)) /\
  cur_pages r <= max_pages r /\
  NoDup (frame_ids r).

(** ** buffer_pool_manager.cpp *)

Section BufferPool.

(** The contents of a page-sized buffer, and the all-zero buffer. *)
Context {Data : Type} (zero : Data).

(** Modelled from the spec: [Page] (page.h is not part of the sources) is a
    byte buffer plus the metadata [page_id], [pin_count] and [is_dirty]
    (section 3); a page starts zeroed, with no page id, unpinned and
    clean. *)
Record Page := mkPage {
  data_ : Data;
  page_id_ : page_id_t;
  pin_count_ : Z;
  is_dirty_ : bool
}.

(** Modelled from the spec: the disk manager is an external collaborator
    (section 6): [read_page] fills a buffer, [write_page] persists one,
    [allocate_page] returns a fresh monotonic id, [deallocate_page] releases
    one.  [write_log] records the writes, latest first; a page never written
    reads as zeroes. *)
Record DiskManager := mkDisk {
  disk : gmap Z Data;
  next_page_id_ : page_id_t;
  deallocated : list page_id_t;
  write_log : list (page_id_t * Data)
}.

Definition ReadPage (d : DiskManager) (page_id : page_id_t) : Data :=
  default zero (disk d !! page_id).

Definition WritePage (d : DiskManager) (page_id : page_id_t) (buf : Data) : DiskManager :=
  mkDisk (<[page_id := buf]> (disk d)) (next_page_id_ d) (deallocated d)
         ((page_id, buf) :: write_log d).

Definition AllocatePage (d : DiskManager) : page_id_t * DiskManager :=
  (next_page_id_ d,
   mkDisk (disk d) (next_page_id_ d + 1) (deallocated d) (write_log d)).

Definition DeallocatePage (d : DiskManager) (page_id : page_id_t) : DiskManager :=
  mkDisk (disk d) (next_page_id_ d) (page_id :: deallocated d) (write_log d).

Definition DiskManager_new : DiskManager := mkDisk ∅ 0 [] [].

(** Modelled from the spec: the class is declared in buffer_pool_manager.h,
    which is not part of the sources; its members are those
    buffer_pool_manager.cpp uses: the frame array, the page table, the free
    list, the replacer and the disk manager (section 2). *)
Record BufferPoolManager := mkBPM {
  pool_size_ : Z;
  pages_ : list Page;
  page_table_ : gmap Z Z;
  free_list_ : list frame_id_t;
  replacer_ : LRUReplacer;
  disk_manager_ : DiskManager
}.

Definition blank_page : Page := mkPage zero INVALID_PAGE_ID 0 false.

(** [BufferPoolManager::BufferPoolManager] *)
Definition BufferPoolManager_new (pool_size : Z) (dm : DiskManager) : BufferPoolManager :=
  mkBPM pool_size
        (replicate (Z.to_nat pool_size) blank_page)
        ∅
        (map Z.of_nat (seq 0 (Z.to_nat pool_size)))
        (LRUReplacer_new pool_size)
        dm.

(** [pages_ + frame_id] *)
Definition page_at (b : BufferPoolManager) (frame_id : frame_id_t) : Page :=
  default blank_page (pages_ b !! Z.to_nat frame_id).

Definition set_page (frame_id : frame_id_t) (p : Page) (b : BufferPoolManager) : BufferPoolManager :=
  mkBPM (pool_size_ b) (<[Z.to_nat frame_id := p]> (pages_ b)) (page_table_ b)
        (free_list_ b) (replacer_ b) (disk_manager_ b).

Definition set_page_table (pt : gmap Z Z) (b : BufferPoolManager) : BufferPoolManager :=
  mkBPM (pool_size_ b) (pages_ b) pt (free_list_ b) (replacer_ b) (disk_manager_ b).

Definition set_free_list (fl : list frame_id_t) (b : BufferPoolManager) : BufferPoolManager :=
  mkBPM (pool_size_ b) (pages_ b) (page_table_ b) fl (replacer_ b) (disk_manager_ b).

Definition set_replacer (r : LRUReplacer) (b : BufferPoolManager) : BufferPoolManager :=
  mkBPM (pool_size_ b) (pages_ b) (page_table_ b) (free_list_ b) r (disk_manager_ b).

Definition set_disk (d : DiskManager) (b : BufferPoolManager) : BufferPoolManager :=
  mkBPM (pool_size_ b) (pages_ b) (page_table_ b) (free_list_ b) (replacer_ b) d.

(** Field assignments on a [Page]. *)
Definition set_data (x : Data) (p : Page) : Page :=
  mkPage x (page_id_ p) (pin_count_ p) (is_dirty_ p).
Definition set_page_id (i : page_id_t) (p : Page) : Page :=
  mkPage (data_ p) i (pin_count_ p) (is_dirty_ p).
Definition set_pin_count (n : Z) (p : Page) : Page :=
  mkPage (data_ p) (page_id_ p) n (is_dirty_ p).
Definition set_is_dirty (d : bool) (p : Page) : Page :=
  mkPage (data_ p) (page_id_ p) (pin_count_ p) d.

(** Modelled from the spec: [Page::ResetMemory] (page.h is not part of the
    sources) zeroes the frame's byte buffer; the metadata fields are assigned
    separately by the callers. *)
Definition ResetMemory (p : Page) : Page := set_data zero p.

(** A client writing through the pointer it was handed. *)
Definition write_data (frame_id : frame_id_t) (x : Data) (b : BufferPoolManager) : BufferPoolManager :=
  set_page frame_id (set_data x (page_at b frame_id)) b.

(** [BufferPoolManager::FetchPageImpl]: [None] is [nullptr], [Some f] the
    pointer [pages_ + f]. *)
Definition FetchPageImpl (page_id : page_id_t) (b : BufferPoolManager)
  : option frame_id_t * BufferPoolManager :=
  match page_table_ b !! page_id with
  | Some frame_id =>
      let b := set_replacer (Pin (replacer_ b) frame_id) b in
      let page := page_at b frame_id in
      (Some frame_id, set_page frame_id (set_pin_count (pin_count_ page + 1) page) b)
  | None =>
      match free_list_ b with
      | frame_id :: rest =>
          let b := set_free_list rest b in
          let page := page_at b frame_id in
          let page := set_data (ReadPage (disk_manager_ b) page_id) page in
          let page := set_page_id page_id page in
          let page := set_pin_count (pin_count_ page + 1) page in
          let b := set_page frame_id page b in
          let b := set_page_table (<[page_id := frame_id]> (page_table_ b)) b in
          let b := set_replacer (Pin (replacer_ b) frame_id) b in
          (Some frame_id, b)
      | [] =>
          match Victim (replacer_ b) with
          | (None, _) => (None, b)
          | (Some vect_id, r) =>
              let b := set_replacer r b in
              let page := page_at b vect_id in
              let b := if is_dirty_ page
                       then set_disk (WritePage (disk_manager_ b) (page_id_ page) (data_ page)) b
                       else b in
              let b := set_page_table (delete (page_id_ page) (page_table_ b)) b in
              let page := ResetMemory page in
              let page := set_page_id page_id page in
              let page := set_data (ReadPage (disk_manager_ b) page_id) page in
              let page := set_pin_count (pin_count_ page + 1) page in
              let b := set_page vect_id page b in
              let b := set_page_table (<[page_id := vect_id]> (page_table_ b)) b in
              let b := set_replacer (Pin (replacer_ b) vect_id) b in
              (Some vect_id, b)
          end
      end
  end.

(** [BufferPoolManager::UnpinPageImpl] *)
Definition UnpinPageImpl (page_id : page_id_t) (is_dirty : bool) (b : BufferPoolManager)
  : bool * BufferPoolManager :=
  match page_table_ b !! page_id with
  | None => (false, b)
  | Some frame_id =>
      let page := page_at b frame_id in
      if pin_count_ page <=? 0 then (false, b)
      else
        let page := set_is_dirty is_dirty page in
        let page := set_pin_count (pin_count_ page - 1) page in
        let b := set_page frame_id page b in
        let b := set_replacer (Unpin (replacer_ b) frame_id) b in
        (true, b)
  end.

(** [BufferPoolManager::FlushPageImpl] *)
Definition FlushPageImpl (page_id : page_id_t) (b : BufferPoolManager)
  : bool * BufferPoolManager :=
  match page_table_ b !! page_id with
  | None => (false, b)
  | Some frame_id =>
      let page := page_at b frame_id in
      (true, set_disk (WritePage (disk_manager_ b) (page_id_ page) (data_ page)) b)
  end.

(** [BufferPoolManager::NewPageImpl]: [Some (f, id)] is the pointer
    [pages_ + f] with [*page_id = id].  With an empty free list the source
    ignores the result of [Victim]; the guard above it makes [cur_pages]
    non-zero, so [Victim] yields a frame. *)
Definition NewPageImpl (b : BufferPoolManager)
  : option (frame_id_t * page_id_t) * BufferPoolManager :=
  if bool_decide (free_list_ b = []) && (Size (replacer_ b) =? 0) then (None, b)
  else
    let '(page_id, d) := AllocatePage (disk_manager_ b) in
    let b := set_disk d b in
    match free_list_ b with
    | [] =>
        match Victim (replacer_ b) with
        | (None, _) => (None, b)
        | (Some frame_id, r) =>
            let b := set_replacer r b in
            let page := page_at b frame_id in
            let b := if is_dirty_ page
                     then set_disk (WritePage (disk_manager_ b) (page_id_ page) (data_ page)) b
                     else b in
            let b := set_page_table (delete (page_id_ page) (page_table_ b)) b in
            let page := ResetMemory page in
            let b := set_replacer (Pin (replacer_ b) frame_id) b in
            let page := set_pin_count (pin_count_ page + 1) page in
            let page := set_page_id page_id page in
            let b := set_page frame_id page b in
            let b := set_page_table (<[page_id := frame_id]> (page_table_ b)) b in
            (Some (frame_id, page_id), b)
        end
    | frame_id :: rest =>
        let b := set_free_list rest b in
        let page := page_at b frame_id in
        let b := set_replacer (Pin (replacer_ b) frame_id) b in
        let page := set_page_id page_id page in
        let page := set_pin_count (pin_count_ page + 1) page in
        let b := set_page frame_id page b in
        let b := set_page_table (<[page_id_ page := frame_id]> (page_table_ b)) b in
        (Some (frame_id, page_id), b)
    end.

(** [BufferPoolManager::DeletePageImpl] *)
Definition DeletePageImpl (page_id : page_id_t) (b : BufferPoolManager)
  : bool * BufferPoolManager :=
  match page_table_ b !! page_id with
  | None => (true, b)
  | Some frame_id =>
      let page := page_at b frame_id in
      if 0 <? pin_count_ page then (false, b)
      else
        let b := set_replacer (Pin (replacer_ b) frame_id) b in
        let b := set_disk (DeallocatePage (disk_manager_ b) (page_id_ page)) b in
        let b := set_page_table (delete (page_id_ page) (page_table_ b)) b in
        let b := set_page frame_id (ResetMemory page) b in
        let b := set_free_list (free_list_ b ++ [frame_id]) b in
        (true, b)
  end.

(** [BufferPoolManager::FlushAllPagesImpl] *)
Definition FlushAllPagesImpl (b : BufferPoolManager) : BufferPoolManager :=
  fold_left
    (fun b i =>
       let page := page_at b (Z.of_nat i) in
       if negb (page_id_ page =? INVALID_PAGE_ID) && is_dirty_ page
       then set_disk (WritePage (disk_manager_ b) (page_id_ page) (data_ page)) b
       else b)
    (seq 0 (Z.to_nat (pool_size_ b))) b.

(** The frame holds a resident page: the page table maps the page id in the
    frame's header to this frame. *)
Definition resident (b : BufferPoolManager) (frame_id : frame_id_t) : Prop :=
  page_table_ b !! page_id_ (page_at b frame_id) = Some frame_id.

Definition in_replacer (b : BufferPoolManager) (frame_id : frame_id_t) : Prop :=
  frame_id ∈ frame_ids (replacer_ b).

(** The invariant of section 3 of the spec, for one frame: the frame is an
    eviction candidate exactly when it holds a resident page nobody pins. *)
Definition replacer_mirrors_pins (b : BufferPoolManager) (frame_id : frame_id_t) : Prop :=
  in_replacer b frame_id <-> resident b frame_id /\ pin_count_ (page_at b frame_id) = 0.

(** [frame_id] indexes the pool array. *)
Definition frame_ok (b : BufferPoolManager) (frame_id : frame_id_t) : Prop :=
  0 <= frame_id < Z.of_nat (length (pages_ b)).

(** What the pool's bookkeeping guarantees about the frames it can hand out:
    the replacer's counter mirrors its list, free frames and eviction
    candidates index the pool array, and a free frame holds zeroed memory
    (it was never used, or [DeletePageImpl] reset it). *)
Definition pool_ok (b : BufferPoolManager) : Prop :=
  lru_wf (replacer_ b) /\
  Forall (fun f => frame_ok b f /\ data_ (page_at b f) = zero) (free_list_ b) /\
  Forall (frame_ok b) (frame_ids (replacer_ b)).

(** The bookkeeping the pool keeps through [FetchPageImpl], [NewPageImpl],
    [UnpinPageImpl], [FlushPageImpl] and [DeletePageImpl], as long as only
    allocated page ids are fetched: the replacer is well formed and its
    frames hold resident pages; the free list has no repetition and its
    frames are zeroed; a frame the page table names is not free, carries the
    page id it is mapped from, and that id has been allocated. *)
Definition pool_inv (b : BufferPoolManager) : Prop :=
  lru_wf (replacer_ b) /\
  NoDup (free_list_ b) /\
  (forall f, (f ∈ free_list_ b) -> frame_ok b f /\ data_ (page_at b f) = zero) /\
  (forall f, (f ∈ frame_ids (replacer_ b)) -> resident b f) /\
  (forall page_id f, page_table_ b !! page_id = Some f ->
     frame_ok b f /\ (f ∉ free_list_ b) /\ page_id_ (page_at b f) = page_id /\
     page_id < next_page_id_ (disk_manager_ b)).

End BufferPool.

Arguments Page : clear implicits.
Arguments DiskManager : clear implicits.
Arguments BufferPoolManager : clear implicits.

(** ** Execution monad

    The tree code runs against the pool's state, throws C++ exceptions
    (["out of memory"]) and loops; [Fault] stands for behaviour the model
    does not define (a null or mistyped pointer dereferenced), [OutOfFuel]
    for a loop cut short by the fuel bound. *)

Inductive Res (S A : Type) : Type :=
| Ok (a : A) (s : S)
| Throw (msg : string) (s : S)
| Fault
| OutOfFuel.

Arguments Ok {S A} a s.
Arguments Throw {S A} msg s.
Arguments Fault {S A}.
Arguments OutOfFuel {S A}.

Definition M (S A : Type) : Type := S -> Res S A.

#[export] Instance M_ret {S} : MRet (M S) := fun A a s => Ok a s.
#[export] Instance M_bind {S} : MBind (M S) := fun A B f m s =>
  match m s with
  | Ok a s' => f a s'
  | Throw msg s' => Throw msg s'
  | Fault => Fault
  | OutOfFuel => OutOfFuel
  end.

Definition throw {S A} (msg : string) : M S A := fun s => Throw msg s.
Definition fault {S A} : M S A := fun _ => Fault.
Definition out_of_fuel {S A} : M S A := fun _ => OutOfFuel.
Definition gets {S A} (f : S -> A) : M S A := fun s => Ok (f s) s.
Definition modify {S} (f : S -> S) : M S unit := fun s => Ok tt (f s).
Definition run_pair {S A} (f : S -> A * S) : M S A := fun s => let '(a, s') := f s in Ok a s'.

(** ** Raw entry arrays

    The [array] member of a tree page is raw memory behind the header: it is
    read and written by index whatever [size_] says.  A list stands for the
    written prefix; memory past it still holds the zeroes the frame was reset
    to.  (A negative index leaves the array; the source never forms one on a
    well-formed tree, and the model reads the zero entry and writes nothing
    there.) *)
Section RawArray.
Context {E : Type} (dflt : E).

Definition arr_get (a : list E) (i : Z) : E :=
  if i <? 0 then dflt else nth (Z.to_nat i) a dflt.

Definition arr_set (a : list E) (i : Z) (e : E) : list E :=
  if i <? 0 then a
  else <[Z.to_nat i := e]> (a ++ replicate (S (Z.to_nat i) - length a) dflt).

Definition arr_slice (a : list E) (start n : Z) : list E :=
  map (fun k => arr_get a (start + Z.of_nat k)) (seq 0 (Z.to_nat n)).

Fixpoint arr_write (a : list E) (dst : Z) (l : list E) : list E :=
  match l with
  | [] => a
  | e :: l' => arr_write (arr_set a dst e) (dst + 1) l'
  end.

(** [memmove(array + dst, array + src, n * sizeof(MappingType))] *)
Definition arr_memmove (a : list E) (dst src n : Z) : list E :=
  arr_write a dst (arr_slice a src n).

End RawArray.

(** ** Tree pages *)

Section BPlusTree.

(** The index is a template over the key type, the value type and the
    comparator; [key0] and [val0] are the all-zero key and value. *)
Context {KeyType ValueType : Type}.
Context (comparator : KeyType -> KeyType -> Z).
Context (key0 : KeyType) (val0 : ValueType).

(** Modelled from the spec: the common header of a tree page
    (b_plus_tree_page.h is not part of the sources) holds [size],
    [max_size], [page_id] and [parent_page_id] (section 3); the page type
    tag is the constructor of [PageData] below. *)
Record BPlusTreePage := mkHdr {
  size_ : Z;
  max_size_ : Z;
  parent_page_id_ : page_id_t;
  tree_page_id_ : page_id_t
}.

(** Modelled from the spec: a leaf is the header, [next_page_id] and the
    [(key, value)] entries (section 3). *)
Record LeafPage := mkLeaf {
  leaf_hdr : BPlusTreePage;
  next_page_id_' : page_id_t;
  leaf_array : list (KeyType * ValueType)
}.

(** Modelled from the spec: an internal page is the header and the
    [(key, child_page_id)] array (section 3); the array is the raw [array]
    member b_plus_tree_internal_page.cpp indexes. *)
Record InternalPage := mkInternal {
  int_hdr : BPlusTreePage;
  int_array : list (KeyType * page_id_t)
}.

(** What the bytes of a frame hold: nothing yet (all zero), a leaf, an
    internal page, or the header page's records. *)
Inductive PageData :=
| Zeroed
| LeafData (l : LeafPage)
| InternalData (i : InternalPage)
| HeaderData (records : list (string * page_id_t)).

Definition set_size (n : Z) (h : BPlusTreePage) : BPlusTreePage :=
  mkHdr n (max_size_ h) (parent_page_id_ h) (tree_page_id_ h).
Definition set_parent (p : page_id_t) (h : BPlusTreePage) : BPlusTreePage :=
  mkHdr (size_ h) (max_size_ h) p (tree_page_id_ h).

Definition hdr_of (d : PageData) : option BPlusTreePage :=
  match d with
  | LeafData l => Some (leaf_hdr l)
  | InternalData i => Some (int_hdr i)
  | _ => None
  end.

Definition map_hdr (g : BPlusTreePage -> BPlusTreePage) (d : PageData) : option PageData :=
  match d with
  | LeafData l => Some (LeafData (mkLeaf (g (leaf_hdr l)) (next_page_id_' l) (leaf_array l)))
  | InternalData i => Some (InternalData (mkInternal (g (int_hdr i)) (int_array i)))
  | _ => None
  end.

(** *** b_plus_tree_internal_page.cpp: the methods that touch one page *)

Definition ient0 : KeyType * page_id_t := (key0, 0).

Definition isize (p : InternalPage) : Z := size_ (int_hdr p).
Definition iset_size (n : Z) (p : InternalPage) : InternalPage :=
  mkInternal (set_size n (int_hdr p)) (int_array p).
Definition iset_array (a : list (KeyType * page_id_t)) (p : InternalPage) : InternalPage :=
  mkInternal (int_hdr p) a.

(** [BPlusTreeInternalPage::Init] writes the header of a page; the array
    bytes stay what they were. *)
Definition Internal_Init (page_id parent_id max_size : Z) (a : list (KeyType * page_id_t)) : InternalPage :=
  mkInternal (mkHdr 0 max_size parent_id page_id) a.

(** [KeyAt], [ValueAt] and their setters *)
Definition KeyAt (p : InternalPage) (index : Z) : KeyType :=
  fst (arr_get ient0 (int_array p) index).

Definition ValueAt (p : InternalPage) (index : Z) : page_id_t :=
  snd (arr_get ient0 (int_array p) index).

Definition SetKeyAt (index : Z) (key : KeyType) (p : InternalPage) : InternalPage :=
  iset_array (arr_set ient0 (int_array p) index (key, ValueAt p index)) p.

Definition SetValueAt (index : Z) (value : page_id_t) (p : InternalPage) : InternalPage :=
  iset_array (arr_set ient0 (int_array p) index (KeyAt p index, value)) p.

Definition SetKeyValueAt (index : Z) (key : KeyType) (value : page_id_t) (p : InternalPage) : InternalPage :=
  SetValueAt index value (SetKeyAt index key p).

(** [ValueIndex]: the loop [for (i = 0; i < GetSize(); i++)]. *)
Fixpoint ValueIndex_from (p : InternalPage) (value : page_id_t) (i : Z) (n : nat) : Z :=
  match n with
  | O => -1
  | S n' => if ValueAt p i =? value then i else ValueIndex_from p value (i + 1) n'
  end.

Definition ValueIndex (p : InternalPage) (value : page_id_t) : Z :=
  ValueIndex_from p value 0 (Z.to_nat (isize p)).

(** [Lookup]: the [while (left < right)] loop.  Each turn shrinks
    [right - left], so [right - left] turns are enough; the fuel is that
    bound. *)
Fixpoint Lookup_loop (p : InternalPage) (key : KeyType) (fuel : nat) (left right : Z) : Z :=
  match fuel with
  | O => left
  | S fuel' =>
      if left <? right then
        let mid := Z.shiftr (right - left) 1 + left in
        if 0 <? comparator (KeyAt p mid) key
        then Lookup_loop p key fuel' left mid
        else Lookup_loop p key fuel' (mid + 1) right
      else left
  end.

(** [BPlusTreeInternalPage::Lookup] *)
Definition Lookup (p : InternalPage) (key : KeyType) : page_id_t :=
  let left := Lookup_loop p key (Z.to_nat (isize p - 1)) 1 (isize p) in
  ValueAt p (left - 1).

(** [BPlusTreeInternalPage::PopulateNewRoot] *)
Definition PopulateNewRoot (old_value : page_id_t) (new_key : KeyType) (new_value : page_id_t)
    (p : InternalPage) : InternalPage :=
  iset_size 2 (SetKeyAt 1 new_key (SetValueAt 1 new_value (SetValueAt 0 old_value p))).

(** [InsertNodeAfter] (its [printf] has no effect on the page). *)
Definition InsertNodeAfter (old_value : page_id_t) (new_key : KeyType) (new_value : page_id_t)
    (p : InternalPage) : InternalPage :=
  let old_index := ValueIndex p old_value + 1 in
  let p := iset_array (arr_memmove ient0 (int_array p) (old_index + 1) old_index (isize p - old_index)) p in
  let p := SetKeyValueAt old_index new_key new_value p in
  iset_size (isize p + 1) p.

(** [BPlusTreeInternalPage::Remove(index)], for [0 <= index < GetSize()].
    Outside that range the source hands [memmove] a negative element count
    turned into a [size_t] byte count, which no page survives; here nothing
    is moved then. *)
Definition Remove_at (index : Z) (p : InternalPage) : InternalPage :=
  let size := isize p in
  let p := iset_array (arr_memmove ient0 (int_array p) index (index + 1) (size - index - 1)) p in
  iset_size (isize p - 1) p.

(** *** Leaf pages (b_plus_tree_leaf_page.cpp is not part of the sources) *)

Definition lent0 : KeyType * ValueType := (key0, val0).

Definition lsize (p : LeafPage) : Z := size_ (leaf_hdr p).

(** Modelled from the spec: the entries of a leaf and its [size] change
    together. *)
Definition lset_entries (a : list (KeyType * ValueType)) (p : LeafPage) : LeafPage :=
  mkLeaf (set_size (Z.of_nat (length a)) (leaf_hdr p)) (next_page_id_' p) a.

(** Modelled from the spec: [SetNextPageId] stores the sibling link. *)
Definition SetNextPageId (n : page_id_t) (p : LeafPage) : LeafPage :=
  mkLeaf (leaf_hdr p) n (leaf_array p).

(** Modelled from the spec: [BPlusTreeLeafPage::Init] makes an empty leaf;
    the rightmost leaf has [next_page_id = INVALID], and a new leaf is the
    rightmost until it is linked. *)
Definition Leaf_Init (page_id parent_id max_size : Z) : LeafPage :=
  mkLeaf (mkHdr 0 max_size parent_id page_id) INVALID_PAGE_ID [].

(** Modelled from the spec: [GetItem] returns the entry at an index. *)
Definition Leaf_GetItem (p : LeafPage) (index : Z) : KeyType * ValueType :=
  arr_get lent0 (leaf_array p) index.

(** Modelled from the spec: [KeyAt] returns the key at an index. *)
Definition Leaf_KeyAt (p : LeafPage) (index : Z) : KeyType :=
  fst (Leaf_GetItem p index).

(** Modelled from the spec: the leaf's [Lookup] is a binary search for
    equality (section 4.3); the loop is the one [BPlusTree::Begin] spells
    out over a leaf. *)
Fixpoint Leaf_search (p : LeafPage) (key : KeyType) (fuel : nat) (left right : Z) : option Z :=
  match fuel with
  | O => None
  | S fuel' =>
      if left <? right then
        let mid := Z.shiftr (right - left) 1 + left in
        let c := comparator (Leaf_KeyAt p mid) key in
        if c =? 0 then Some mid
        else if 0 <? c then Leaf_search p key fuel' left mid
        else Leaf_search p key fuel' (mid + 1) right
      else None
  end.

(** Modelled from the spec: [Lookup] returns the value of the entry whose
    key equals [key]; [None] is the [false] return. *)
Definition Leaf_Lookup (p : LeafPage) (key : KeyType) : option ValueType :=
  match Leaf_search p key (Z.to_nat (lsize p)) 0 (lsize p) with
  | Some i => Some (snd (Leaf_GetItem p i))
  | None => None
  end.

(** Modelled from the spec: the leaf's [Insert] keeps the keys sorted
    (section 4.3): the entry goes in front of the first larger key. *)
Fixpoint sorted_insert (key : KeyType) (value : ValueType) (a : list (KeyType * ValueType))
  : list (KeyType * ValueType) :=
  match a with
  | [] => [(key, value)]
  | e :: a' => if 0 <? comparator (fst e) key then (key, value) :: a
               else e :: sorted_insert key value a'
  end.

(** Modelled from the spec: [BPlusTreeLeafPage::Insert]. *)
Definition Leaf_Insert (key : KeyType) (value : ValueType) (p : LeafPage) : LeafPage :=
  lset_entries (sorted_insert key value (leaf_array p)) p.

(** Modelled from the spec: [RemoveAndDeleteRecord] removes the entry with
    the key, if there is one, and closes the gap. *)
Fixpoint remove_key (key : KeyType) (a : list (KeyType * ValueType)) : list (KeyType * ValueType) :=
  match a with
  | [] => []
  | e :: a' => if comparator (fst e) key =? 0 then a' else e :: remove_key key a'
  end.

(** Modelled from the spec: [BPlusTreeLeafPage::RemoveAndDeleteRecord]. *)
Definition Leaf_RemoveAndDeleteRecord (key : KeyType) (p : LeafPage) : LeafPage :=
  lset_entries (remove_key key (leaf_array p)) p.

(** Modelled from the spec: the leaf's [MoveHalfTo] moves the upper half of
    the entries to the recipient, a [floor(n/2)] / [ceil(n/2)] partition
    ("Leaf split", section 4.3), the way the internal page's [MoveHalfTo]
    cuts at [GetSize() >> 1].  This mover and the three below return the page
    they are called on and the recipient. *)
Definition Leaf_MoveHalfTo (this recipient : LeafPage) : LeafPage * LeafPage :=
  let half := Z.to_nat (Z.shiftr (lsize this) 1) in
  (lset_entries (take half (leaf_array this)) this,
   lset_entries (leaf_array recipient ++ drop half (leaf_array this)) recipient).

(** Modelled from the spec: the leaf's [MoveAllTo] appends all entries to
    the recipient ("Leaf coalesce"). *)
Definition Leaf_MoveAllTo (this recipient : LeafPage) : LeafPage * LeafPage :=
  (lset_entries [] this,
   lset_entries (leaf_array recipient ++ leaf_array this) recipient).

(** Modelled from the spec: the leaf's [MoveFirstToEndOf] moves the first
    entry to the end of the recipient ("Leaf redistribute"). *)
Definition Leaf_MoveFirstToEndOf (this recipient : LeafPage) : LeafPage * LeafPage :=
  (lset_entries (drop 1 (leaf_array this)) this,
   lset_entries (leaf_array recipient ++ take 1 (leaf_array this)) recipient).

(** Modelled from the spec: the leaf's [MoveLastToFrontOf] moves the last
    entry to the front of the recipient ("Leaf redistribute"). *)
Definition Leaf_MoveLastToFrontOf (this recipient : LeafPage) : LeafPage * LeafPage :=
  let n := length (leaf_array this) in
  (lset_entries (take (n - 1) (leaf_array this)) this,
   lset_entries (drop (n - 1) (leaf_array this) ++ leaf_array recipient) recipient).

(** Modelled from the spec: [GetMinSize] (b_plus_tree_page.cpp is not part
    of the sources) is [ceil(max_size / 2)] for a leaf and
    [ceil((max_size + 1) / 2)] for an internal page (section 3). *)
Definition GetMinSize_of (d : PageData) : option Z :=
  match d with
  | LeafData l => Some ((max_size_ (leaf_hdr l) + 1) / 2)
  | InternalData i => Some ((max_size_ (int_hdr i) + 2) / 2)
  | _ => None
  end.

(** Modelled from the spec: the header page (header_page.cpp is not part of
    the sources) stores [(index_name, root_page_id)] records. *)
Definition has_record (name : string) (records : list (string * page_id_t)) : bool :=
  existsb (fun r => String.eqb (fst r) name) records.

(** Modelled from the spec: [InsertRecord] adds the record of an index that
    has none; inserting and updating are two operations (section 9). *)
Definition InsertRecord (name : string) (root_id : page_id_t) (records : list (string * page_id_t))
  : list (string * page_id_t) :=
  if has_record name records then records else records ++ [(name, root_id)].

(** Modelled from the spec: [UpdateRecord] changes the root id in the record
    of the index, if there is one. *)
Definition UpdateRecord (name : string) (root_id : page_id_t) (records : list (string * page_id_t))
  : list (string * page_id_t) :=
  map (fun r => if String.eqb (fst r) name then (name, root_id) else r) records.

(** *** Frames seen through the pool *)

Abbreviation Pool := (BufferPoolManager PageData).

(** Modelled from the spec: the public [FetchPage], [UnpinPage] and
    [NewPage] (buffer_pool_manager.h is not part of the sources) are the
    [Impl] methods of buffer_pool_manager.cpp. *)
Definition FetchPage (page_id : page_id_t) : M Pool (option frame_id_t) :=
  run_pair (FetchPageImpl Zeroed page_id).
Definition UnpinPage (page_id : page_id_t) (is_dirty : bool) : M Pool bool :=
  run_pair (UnpinPageImpl Zeroed page_id is_dirty).
Definition NewPage : M Pool (option (frame_id_t * page_id_t)) :=
  run_pair (NewPageImpl Zeroed).

(** Modelled from the spec: [WrapFetchPage] and [WrapNewPage] are declared in
    buffer_pool_manager.h, which is not part of the sources; pool exhaustion
    surfaces as an "out of memory" error (section 7). *)
Definition WrapFetchPage (page_id : page_id_t) : M Pool frame_id_t :=
  r ← FetchPage page_id;
  match r with Some f => mret f | None => throw "out of memory" end.
Definition WrapNewPage : M Pool (frame_id_t * page_id_t) :=
  r ← NewPage;
  match r with Some fp => mret fp | None => throw "out of memory" end.

(** [page->GetData()] read and written through a pointer. *)
Definition GetData (f : frame_id_t) : M Pool PageData :=
  gets (fun b => data_ (page_at Zeroed b f)).
Definition SetData (f : frame_id_t) (d : PageData) : M Pool unit :=
  modify (write_data Zeroed f d).

(** [reinterpret_cast]s of the frame's bytes. *)
Definition as_internal (f : frame_id_t) : M Pool InternalPage :=
  d ← GetData f;
  match d with InternalData i => mret i | _ => fault end.
Definition as_leaf (f : frame_id_t) : M Pool LeafPage :=
  d ← GetData f;
  match d with LeafData l => mret l | _ => fault end.
Definition as_tree (f : frame_id_t) : M Pool BPlusTreePage :=
  d ← GetData f;
  match hdr_of d with Some h => mret h | None => fault end.

Definition upd_internal (f : frame_id_t) (g : InternalPage -> InternalPage) : M Pool unit :=
  p ← as_internal f; SetData f (InternalData (g p)).
Definition upd_leaf (f : frame_id_t) (g : LeafPage -> LeafPage) : M Pool unit :=
  p ← as_leaf f; SetData f (LeafData (g p)).
Definition upd_tree (f : frame_id_t) (g : BPlusTreePage -> BPlusTreePage) : M Pool unit :=
  d ← GetData f;
  match map_hdr g d with Some d' => SetData f d' | None => fault end.

(** Modelled from the spec: the getters and setters of [BPlusTreePage]
    (b_plus_tree_page.cpp is not part of the sources), called through a
    pointer to a frame: the page type test, the ids, the sizes, [IsRootPage]
    (no parent) and [IsFull] ([size == max_size], section 3). *)
Definition IsLeafPage (f : frame_id_t) : M Pool bool :=
  d ← GetData f;
  match d with
  | LeafData _ => mret true
  | InternalData _ => mret false
  | _ => fault
  end.
Definition GetPageId (f : frame_id_t) : M Pool page_id_t :=
  h ← as_tree f; mret (tree_page_id_ h).
Definition GetParentPageId (f : frame_id_t) : M Pool page_id_t :=
  h ← as_tree f; mret (parent_page_id_ h).
Definition SetParentPageId (f : frame_id_t) (p : page_id_t) : M Pool unit :=
  upd_tree f (set_parent p).
Definition GetSize (f : frame_id_t) : M Pool Z :=
  h ← as_tree f; mret (size_ h).
Definition GetMaxSize (f : frame_id_t) : M Pool Z :=
  h ← as_tree f; mret (max_size_ h).
Definition GetMinSize (f : frame_id_t) : M Pool Z :=
  d ← GetData f;
  match GetMinSize_of d with Some n => mret n | None => fault end.
Definition IsRootPage (f : frame_id_t) : M Pool bool :=
  h ← as_tree f; mret (parent_page_id_ h =? INVALID_PAGE_ID).
Definition IsFull (f : frame_id_t) : M Pool bool :=
  h ← as_tree f; mret (size_ h =? max_size_ h).

(** [Init] on the frame a new page was handed out in. *)
Definition Internal_Init_at (f : frame_id_t) (page_id parent_id max_size : Z) : M Pool unit :=
  d ← GetData f;
  match d with
  | Zeroed => SetData f (InternalData (Internal_Init page_id parent_id max_size []))
  | InternalData i => SetData f (InternalData (Internal_Init page_id parent_id max_size (int_array i)))
  | _ => fault
  end.
Definition Leaf_Init_at (f : frame_id_t) (page_id parent_id max_size : Z) : M Pool unit :=
  d ← GetData f;
  match d with
  | Zeroed | LeafData _ => SetData f (LeafData (Leaf_Init page_id parent_id max_size))
  | _ => fault
  end.

(** A [for (...; cond; ++i)] loop whose condition is re-read every turn. *)
Fixpoint for_loop {S} (fuel : nat) (i : Z) (cond : Z -> M S bool) (body : Z -> M S unit) : M S unit :=
  c ← cond i;
  if c : bool then
    match fuel with
    | O => out_of_fuel
    | S fuel' => body i;; for_loop fuel' (i + 1) cond body
    end
  else mret tt.

(** *** b_plus_tree_internal_page.cpp: the methods that go through the pool

    [this] and [recipient] are frames.  A [MappingType] passed by reference
    is read once: it lives in another page than the one being written. *)

Definition MoveHalfTo (this recipient : frame_id_t) : M Pool unit :=
  p ← as_internal this;
  let half := Z.shiftr (isize p) 1 in
  if half =? 0 then mret tt
  else
    for_loop (Z.to_nat (isize p - half)) half
      (fun i => p ← as_internal this; mret (i <? isize p))
      (fun i =>
         p ← as_internal this;
         let page_id := ValueAt p i in
         page ← WrapFetchPage page_id;
         rid ← GetPageId recipient;
         SetParentPageId page rid;;
         UnpinPage page_id true;;
         mret tt);;
    p ← as_internal this;
    upd_internal recipient
      (fun r => iset_array (arr_write ient0 (int_array r) (isize r)
                              (arr_slice ient0 (int_array p) half (isize p - half))) r);;
    p ← as_internal this;
    upd_internal recipient (fun r => iset_size (isize r + (isize p - half)) r);;
    upd_internal this (iset_size half).

Definition MoveAllTo (this recipient : frame_id_t) (middle_key : KeyType) : M Pool unit :=
  upd_internal this (SetKeyAt 0 middle_key);;
  size ← GetSize this;
  for_loop (Z.to_nat size) 0
    (fun i => mret (i <? size))
    (fun i =>
       p ← as_internal this;
       let page_id := ValueAt p i in
       r ← FetchPage page_id;
       match r with
       | None => throw "out of memory"
       | Some page =>
           me ← GetPageId this;
           SetParentPageId page me;;
           UnpinPage page_id true;;
           mret tt
       end);;
  p ← as_internal this;
  upd_internal recipient
    (fun r => iset_array (arr_write ient0 (int_array r) (isize r)
                            (arr_slice ient0 (int_array p) 0 (isize p))) r);;
  p ← as_internal this;
  upd_internal recipient (fun r => iset_size (isize r + isize p) r);;
  upd_internal this (iset_size 0).

Definition CopyLastFrom (this : frame_id_t) (pair : KeyType * page_id_t) : M Pool unit :=
  let page_id := snd pair in
  page ← WrapFetchPage page_id;
  me ← GetPageId this;
  SetParentPageId page me;;
  UnpinPage page_id true;;
  upd_internal this (fun p => iset_array (arr_set ient0 (int_array p) (isize p) pair) p);;
  upd_internal this (fun p => iset_size (isize p + 1) p).

Definition MoveFirstToEndOf (this recipient : frame_id_t) (middle_key : KeyType) : M Pool unit :=
  p ← as_internal this;
  CopyLastFrom recipient (arr_get ient0 (int_array p) 0);;
  upd_internal recipient (fun r => SetKeyAt (isize r - 1) middle_key r);;
  upd_internal this
    (fun p => iset_array (arr_memmove ient0 (int_array p) 0 1 (isize p - 1)) p);;
  upd_internal this (fun p => iset_size (isize p - 1) p).

Definition CopyFirstFrom (this : frame_id_t) (pair : KeyType * page_id_t) : M Pool unit :=
  let page_id := snd pair in
  page ← WrapFetchPage page_id;
  me ← GetPageId this;
  SetParentPageId page me;;
  UnpinPage page_id true;;
  upd_internal this
    (fun p => iset_array (arr_memmove ient0 (int_array p) 1 0 (isize p)) p);;
  upd_internal this (SetKeyValueAt 0 (fst pair) (snd pair));;
  upd_internal this (fun p => iset_size (isize p + 1) p).

Definition MoveLastToFrontOf (this recipient : frame_id_t) (middle_key : KeyType) : M Pool unit :=
  p ← as_internal this;
  CopyFirstFrom recipient (arr_get ient0 (int_array p) (isize p - 1));;
  upd_internal recipient (SetKeyAt 1 middle_key);;
  upd_internal this (fun p => iset_size (isize p - 1) p).

(** The leaf movers of the model above, applied to two frames. *)
Definition leaf_move (mv : LeafPage -> LeafPage -> LeafPage * LeafPage)
    (this recipient : frame_id_t) : M Pool unit :=
  p ← as_leaf this;
  r ← as_leaf recipient;
  let '(p', r') := mv p r in
  SetData this (LeafData p');;
  SetData recipient (LeafData r').

(** ** b_plus_tree.cpp and b_plus_tree.h *)

Record BPlusTree := mkTree {
  index_name_ : string;
  root_page_id_ : page_id_t;
  buffer_pool_manager_ : Pool;
  leaf_max_size_ : Z;
  internal_max_size_ : Z
}.

(** [BPlusTree::BPlusTree] *)
Definition BPlusTree_new (name : string) (bpm : Pool) (leaf_max_size internal_max_size : Z) : BPlusTree :=
  mkTree name INVALID_PAGE_ID bpm leaf_max_size internal_max_size.

Definition set_root (r : page_id_t) (t : BPlusTree) : BPlusTree :=
  mkTree (index_name_ t) r (buffer_pool_manager_ t) (leaf_max_size_ t) (internal_max_size_ t).
Definition set_bpm (b : Pool) (t : BPlusTree) : BPlusTree :=
  mkTree (index_name_ t) (root_page_id_ t) b (leaf_max_size_ t) (internal_max_size_ t).

(** A call through [buffer_pool_manager_]. *)
Definition liftB {A} (m : M Pool A) : M BPlusTree A := fun t =>
  match m (buffer_pool_manager_ t) with
  | Ok a b => Ok a (set_bpm b t)
  | Throw msg b => Throw msg (set_bpm b t)
  | Fault => Fault
  | OutOfFuel => OutOfFuel
  end.

Definition IsEmpty (t : BPlusTree) : bool := root_page_id_ t =? INVALID_PAGE_ID.

(** [GetBPlusPage<T>] *)
Definition GetBPlusPage (page_id : page_id_t) : M BPlusTree frame_id_t :=
  liftB (r ← FetchPage page_id;
         match r with Some f => mret f | None => throw "out of memory" end).

(** [UpdateRootPageId]: a null header page is dereferenced as it is. *)
Definition UpdateRootPageId (insert_record : Z) : M BPlusTree unit :=
  r ← liftB (FetchPage HEADER_PAGE_ID);
  match r with
  | None => fault
  | Some header_page =>
      name ← gets index_name_;
      root ← gets root_page_id_;
      d ← liftB (GetData header_page);
      let change := if negb (insert_record =? 0) then InsertRecord name root
                    else UpdateRecord name root in
      match d with
      | Zeroed => liftB (SetData header_page (HeaderData (change [])))
      | HeaderData records => liftB (SetData header_page (HeaderData (change records)))
      | _ => fault
      end;;
      liftB (UnpinPage HEADER_PAGE_ID true);;
      mret tt
  end.

(** The descent [while (!page->IsLeafPage())] that [GetValue],
    [InsertIntoLeaf] and [FindLeafPage] all spell out. *)
Fixpoint descend (fuel : nat) (key : KeyType) (page : frame_id_t) : M BPlusTree frame_id_t :=
  is_leaf ← liftB (IsLeafPage page);
  if is_leaf : bool then mret page
  else
    match fuel with
    | O => out_of_fuel
    | S fuel' =>
        ipage ← liftB (as_internal page);
        let child_id := Lookup ipage key in
        liftB (pid ← GetPageId page; UnpinPage pid false);;
        page' ← GetBPlusPage child_id;
        descend fuel' key page'
    end.

(** [BPlusTree::GetValue]: [Some v] is [true] with [v] pushed on [result]. *)
Definition GetValue (fuel : nat) (key : KeyType) : M BPlusTree (option ValueType) :=
  empty ← gets IsEmpty;
  if empty : bool then mret None
  else
    root ← gets root_page_id_;
    page ← GetBPlusPage root;
    lpage ← descend fuel key page;
    l ← liftB (as_leaf lpage);
    let ret := Leaf_Lookup l key in
    liftB (pid ← GetPageId lpage; UnpinPage pid false);;
    mret ret.

(** [BPlusTree::FindLeafPage] (b_plus_tree.h): [None] is [nullptr]. *)
Definition FindLeafPage (fuel : nat) (key : KeyType) : M BPlusTree (option frame_id_t) :=
  empty ← gets IsEmpty;
  if empty : bool then mret None
  else
    root ← gets root_page_id_;
    page ← GetBPlusPage root;
    lpage ← descend fuel key page;
    mret (Some lpage).

(** [BPlusTree::StartNewTree] *)
Definition StartNewTree (key : KeyType) (value : ValueType) : M BPlusTree unit :=
  '(page, page_id) ← liftB WrapNewPage;
  lmax ← gets leaf_max_size_;
  liftB (Leaf_Init_at page page_id INVALID_PAGE_ID lmax);;
  liftB (upd_leaf page (Leaf_Insert key value));;
  liftB (UnpinPage page_id true);;
  modify (set_root page_id);;
  UpdateRootPageId 0.

(** [BPlusTree::Split], the overload for a leaf page *)
Definition Split_leaf (old_leaf_page : frame_id_t) : M BPlusTree frame_id_t :=
  '(new_leaf_page, page_id) ← liftB WrapNewPage;
  lmax ← gets leaf_max_size_;
  liftB (Leaf_Init_at new_leaf_page page_id INVALID_PAGE_ID lmax);;
  liftB (leaf_move Leaf_MoveHalfTo old_leaf_page new_leaf_page);;
  old ← liftB (as_leaf old_leaf_page);
  liftB (upd_leaf new_leaf_page (SetNextPageId (next_page_id_' old)));;
  nid ← liftB (GetPageId new_leaf_page);
  liftB (upd_leaf old_leaf_page (SetNextPageId nid));;
  mret new_leaf_page.

(** [BPlusTree::Split], the overload for an internal page *)
Definition Split_internal (old_internal_page : frame_id_t) : M BPlusTree frame_id_t :=
  '(new_page, page_id) ← liftB WrapNewPage;
  imax ← gets internal_max_size_;
  liftB (Internal_Init_at new_page page_id INVALID_PAGE_ID imax);;
  liftB (MoveHalfTo old_internal_page new_page);;
  mret new_page.

(** [BPlusTree::InsertIntoParent] *)
Fixpoint InsertIntoParent (fuel : nat) (old_node : frame_id_t) (key : KeyType) (new_node : frame_id_t)
  : M BPlusTree unit :=
  parent_id ← liftB (GetParentPageId old_node);
  if parent_id =? INVALID_PAGE_ID then
    '(parent_page, parent_page_id) ← liftB WrapNewPage;
    imax ← gets internal_max_size_;
    liftB (Internal_Init_at parent_page parent_page_id INVALID_PAGE_ID imax);;
    oid ← liftB (GetPageId old_node);
    nid ← liftB (GetPageId new_node);
    liftB (upd_internal parent_page (PopulateNewRoot oid key nid));;
    liftB (SetParentPageId new_node parent_page_id);;
    liftB (SetParentPageId old_node parent_page_id);;
    modify (set_root parent_page_id);;
    UpdateRootPageId 0;;
    liftB (UnpinPage parent_page_id true);;
    mret tt
  else
    pid ← liftB (GetParentPageId old_node);
    parent_page ← GetBPlusPage pid;
    oid ← liftB (GetPageId old_node);
    nid ← liftB (GetPageId new_node);
    liftB (upd_internal parent_page (InsertNodeAfter oid key nid));;
    ppid ← liftB (GetPageId parent_page);
    liftB (SetParentPageId new_node ppid);;
    psize ← liftB (GetSize parent_page);
    pmax ← liftB (GetMaxSize parent_page);
    (if pmax <? psize then
       match fuel with
       | O => out_of_fuel
       | S fuel' =>
           split_page ← Split_internal parent_page;
           sp ← liftB (as_internal split_page);
           let new_key := KeyAt sp 0 in
           InsertIntoParent fuel' parent_page new_key split_page
       end
     else mret tt);;
    ppid ← liftB (GetPageId parent_page);
    liftB (UnpinPage ppid true);;
    mret tt.

(** The block [if (lpage->IsFull()) { ... }] of [InsertIntoLeaf]: split the
    leaf and hand the first key of the new leaf to [InsertIntoParent]. *)
Definition InsertIntoLeaf_split (fuel : nat) (lpage : frame_id_t) : M BPlusTree unit :=
  full ← liftB (IsFull lpage);
  if full : bool then
    new_leaf_page ← Split_leaf lpage;
    nl ← liftB (as_leaf new_leaf_page);
    InsertIntoParent fuel lpage (Leaf_KeyAt nl 0) new_leaf_page
  else mret tt.

(** [BPlusTree::InsertIntoLeaf] *)
Definition InsertIntoLeaf (fuel : nat) (key : KeyType) (value : ValueType) : M BPlusTree bool :=
  root ← gets root_page_id_;
  page ← GetBPlusPage root;
  lpage ← descend fuel key page;
  l ← liftB (as_leaf lpage);
  match Leaf_Lookup l key with
  | Some _ => mret false
  | None =>
      liftB (upd_leaf lpage (Leaf_Insert key value));;
      InsertIntoLeaf_split fuel lpage;;
      liftB (pid ← GetPageId lpage; UnpinPage pid true);;
      mret true
  end.

(** [BPlusTree::Insert] *)
Definition Insert (fuel : nat) (key : KeyType) (value : ValueType) : M BPlusTree bool :=
  empty ← gets IsEmpty;
  if empty : bool then StartNewTree key value;; mret true
  else InsertIntoLeaf fuel key value.

(** [FindLeftSilbing] (b_plus_tree.h); the leaf and the internal overload
    have the same body.  [None] is [nullptr]. *)
Definition FindLeftSilbing (node : frame_id_t) : M BPlusTree (option frame_id_t) :=
  parent_id ← liftB (GetParentPageId node);
  if parent_id =? INVALID_PAGE_ID then mret None
  else
    ipage ← GetBPlusPage parent_id;
    ip ← liftB (as_internal ipage);
    nid ← liftB (GetPageId node);
    let index := ValueIndex ip nid in
    if index =? 0 then mret None
    else
      silb_page ← GetBPlusPage (ValueAt ip (index - 1));
      liftB (UnpinPage parent_id false);;
      mret (Some silb_page).

(** [FindRightSilbing], leaf overload *)
Definition FindRightSilbing_leaf (node : frame_id_t) : M BPlusTree (option frame_id_t) :=
  l ← liftB (as_leaf node);
  if next_page_id_' l =? INVALID_PAGE_ID then mret None
  else
    lpage ← GetBPlusPage (next_page_id_' l);
    mret (Some lpage).

(** [FindRightSilbing], internal overload *)
Definition FindRightSilbing_internal (node : frame_id_t) : M BPlusTree (option frame_id_t) :=
  parent_id ← liftB (GetParentPageId node);
  if parent_id =? INVALID_PAGE_ID then mret None
  else
    ipage ← GetBPlusPage parent_id;
    ip ← liftB (as_internal ipage);
    nid ← liftB (GetPageId node);
    let index := ValueIndex ip nid in
    nsize ← liftB (GetSize node);
    if index =? nsize - 1 then mret None
    else
      silb_page ← GetBPlusPage (ValueAt ip (index + 1));
      liftB (UnpinPage parent_id false);;
      mret (Some silb_page).

Definition LEFT : Z := 0.
Definition RIGHT : Z := 1.

(** [BPlusTree::Redistribute], leaf overload *)
Definition Redistribute_leaf (node neighber_node parent : frame_id_t) (dire : Z) : M BPlusTree unit :=
  if dire =? LEFT then
    liftB (leaf_move Leaf_MoveLastToFrontOf neighber_node node);;
    p ← liftB (as_internal parent);
    nid ← liftB (GetPageId node);
    n ← liftB (as_leaf node);
    liftB (upd_internal parent (SetKeyAt (ValueIndex p nid) (Leaf_KeyAt n 0)))
  else
    liftB (leaf_move Leaf_MoveFirstToEndOf neighber_node node);;
    p ← liftB (as_internal parent);
    sid ← liftB (GetPageId neighber_node);
    s ← liftB (as_leaf neighber_node);
    liftB (upd_internal parent (SetKeyAt (ValueIndex p sid) (Leaf_KeyAt s 0))).

(** [BPlusTree::Redistribute], internal overload *)
Definition Redistribute_internal (node neighber_node parent : frame_id_t)
    (middle_key : KeyType) (dire : Z) : M BPlusTree unit :=
  if dire =? LEFT then
    liftB (MoveLastToFrontOf neighber_node node middle_key);;
    p ← liftB (as_internal parent);
    nid ← liftB (GetPageId node);
    n ← liftB (as_internal node);
    liftB (upd_internal parent (SetKeyAt (ValueIndex p nid) (KeyAt n 0)))
  else
    liftB (MoveFirstToEndOf neighber_node node middle_key);;
    p ← liftB (as_internal parent);
    sid ← liftB (GetPageId neighber_node);
    s ← liftB (as_internal neighber_node);
    liftB (upd_internal parent (SetKeyAt (ValueIndex p sid) (KeyAt s 0))).

(** [BPlusTree::AdjustRoot] *)
Definition AdjustRoot (old_root_node : frame_id_t) : M BPlusTree bool :=
  size ← liftB (GetSize old_root_node);
  is_leaf ← liftB (IsLeafPage old_root_node);
  if (size =? 1) && negb is_leaf then
    r ← liftB (as_internal old_root_node);
    let new_root_page_id := ValueAt r 0 in
    modify (set_root new_root_page_id);;
    new_root_page ← GetBPlusPage new_root_page_id;
    liftB (SetParentPageId new_root_page INVALID_PAGE_ID);;
    UpdateRootPageId 0;;
    liftB (pid ← GetPageId new_root_page; UnpinPage pid true);;
    mret true
  else mret false.

(** [BPlusTree::Coalesce], internal overload; [again] is the recursive call
    of [CoalesceOrRedistribute] on the parent. *)
Definition Coalesce_internal (again : frame_id_t -> M BPlusTree bool)
    (left_node right_node parent : frame_id_t) : M BPlusTree unit :=
  p ← liftB (as_internal parent);
  rid ← liftB (GetPageId right_node);
  let index := ValueIndex p rid in
  liftB (upd_internal right_node (SetKeyAt 0 (KeyAt p index)));;
  r ← liftB (as_internal right_node);
  liftB (MoveAllTo right_node left_node (KeyAt r 0));;
  liftB (upd_internal parent (Remove_at index));;
  psize ← liftB (GetSize parent);
  pmin ← liftB (GetMinSize parent);
  if psize <? pmin then again parent;; mret tt else mret tt.

(** [BPlusTree::Coalesce], leaf overload *)
Definition Coalesce_leaf (again : frame_id_t -> M BPlusTree bool)
    (left_node right_node parent : frame_id_t) : M BPlusTree unit :=
  p ← liftB (as_internal parent);
  rid ← liftB (GetPageId right_node);
  let index := ValueIndex p rid in
  liftB (leaf_move Leaf_MoveAllTo right_node left_node);;
  r ← liftB (as_leaf right_node);
  liftB (upd_leaf left_node (SetNextPageId (next_page_id_' r)));;
  liftB (upd_internal parent (Remove_at index));;
  psize ← liftB (GetSize parent);
  pmin ← liftB (GetMinSize parent);
  if psize <? pmin then again parent;; mret tt else mret tt.

(** [BPlusTree::CoalesceOrRedistribute] *)
Fixpoint CoalesceOrRedistribute (fuel : nat) (page : frame_id_t) : M BPlusTree bool :=
  let again (parent : frame_id_t) : M BPlusTree bool :=
    match fuel with
    | O => out_of_fuel
    | S fuel' => CoalesceOrRedistribute fuel' parent
    end in
  is_root ← liftB (IsRootPage page);
  if is_root : bool then
    adjusted ← AdjustRoot page;
    if adjusted : bool then
      liftB (pid ← GetPageId page; UnpinPage pid true);;
      mret true
    else mret false
  else
    is_leaf ← liftB (IsLeafPage page);
    lmax ← gets leaf_max_size_;
    imax ← gets internal_max_size_;
    if is_leaf : bool then
      let lpage := page in
      l ← liftB (as_leaf lpage);
      if next_page_id_' l =? -1 then
        s ← FindLeftSilbing lpage;
        match s with
        | None => mret false
        | Some silb_page =>
            ppid ← liftB (GetParentPageId lpage);
            parent_page ← GetBPlusPage ppid;
            ssize ← liftB (GetSize silb_page);
            lsz ← liftB (GetSize lpage);
            (if ssize + lsz <=? lmax
             then Coalesce_leaf again silb_page lpage parent_page
             else Redistribute_leaf lpage silb_page parent_page LEFT);;
            liftB (pid ← GetPageId parent_page; UnpinPage pid true);;
            mret false
        end
      else
        s ← FindRightSilbing_leaf lpage;
        match s with
        | None => mret false
        | Some silb_page =>
            ppid ← liftB (GetParentPageId silb_page);
            parent_page ← GetBPlusPage ppid;
            ssize ← liftB (GetSize silb_page);
            lsz ← liftB (GetSize lpage);
            (if ssize + lsz <=? lmax
             then Coalesce_leaf again lpage silb_page parent_page
             else Redistribute_leaf lpage silb_page parent_page RIGHT);;
            liftB (pid ← GetPageId parent_page; UnpinPage pid true);;
            mret false
        end
    else
      let ipage := page in
      ppid ← liftB (GetParentPageId ipage);
      parent_page ← GetBPlusPage ppid;
      p ← liftB (as_internal parent_page);
      iid ← liftB (GetPageId ipage);
      if ValueIndex p iid =? isize p - 1 then
        s ← FindLeftSilbing ipage;
        match s with
        | None => mret false
        | Some silb_page =>
            ssize ← liftB (GetSize silb_page);
            isz ← liftB (GetSize ipage);
            (if ssize + isz <? imax
             then Coalesce_internal again silb_page ipage parent_page
             else
               p ← liftB (as_internal parent_page);
               iid ← liftB (GetPageId ipage);
               let parent_index := ValueIndex p iid in
               let middle_key := KeyAt p parent_index in
               Redistribute_internal ipage silb_page parent_page middle_key LEFT;;
               i ← liftB (as_internal ipage);
               liftB (upd_internal parent_page (SetKeyAt parent_index (KeyAt i 0))));;
            mret false
        end
      else
        s ← FindRightSilbing_internal ipage;
        match s with
        | None => mret false
        | Some silb_page =>
            ssize ← liftB (GetSize silb_page);
            isz ← liftB (GetSize ipage);
            (if ssize + isz <? imax
             then Coalesce_internal again ipage silb_page parent_page
             else
               p ← liftB (as_internal parent_page);
               sid ← liftB (GetPageId silb_page);
               let parent_index := ValueIndex p sid in
               let middle_key := KeyAt p parent_index in
               Redistribute_internal ipage silb_page parent_page middle_key RIGHT;;
               sp ← liftB (as_internal silb_page);
               liftB (upd_internal parent_page (SetKeyAt parent_index (KeyAt sp 0))));;
            mret false
        end.

(** [BPlusTree::Remove] *)
Definition Remove (fuel : nat) (key : KeyType) : M BPlusTree unit :=
  r ← FindLeafPage fuel key;
  match r with
  | None => mret tt
  | Some lpage =>
      liftB (upd_leaf lpage (Leaf_RemoveAndDeleteRecord key));;
      size ← liftB (GetSize lpage);
      min_size ← liftB (GetMinSize lpage);
      if size <? min_size then CoalesceOrRedistribute fuel lpage;; mret tt
      else mret tt
  end.

(** ** index_iterator.cpp

    The iterator's [buffer_pool_manager_] is the pool the operations below
    run against; [leaf_page_] is the frame of the held leaf. *)

Record IndexIterator := mkIter {
  index_ : Z;
  leaf_page_ : option frame_id_t
}.

(** [IndexIterator::IndexIterator(page_id, index, bpm)] *)
Definition IndexIterator_new (page_id : page_id_t) (index : Z) : M Pool IndexIterator :=
  page ← WrapFetchPage page_id;
  is_leaf ← IsLeafPage page;
  if is_leaf : bool then mret (mkIter index (Some page))
  else throw "should provide valid leaf page id".

(** [IndexIterator::~IndexIterator] *)
Definition IndexIterator_destroy (it : IndexIterator) : M Pool unit :=
  match leaf_page_ it with
  | Some leaf_page =>
      pid ← GetPageId leaf_page;
      UnpinPage pid true;;
      mret tt
  | None => mret tt
  end.

(** [IndexIterator::isEnd] *)
Definition isEnd (it : IndexIterator) : M Pool bool :=
  match leaf_page_ it with
  | None => fault
  | Some leaf_page =>
      l ← as_leaf leaf_page;
      mret ((next_page_id_' l =? INVALID_PAGE_ID) && (index_ it =? lsize l - 1))
  end.

(** [IndexIterator::operator*] *)
Definition deref (it : IndexIterator) : M Pool (KeyType * ValueType) :=
  match leaf_page_ it with
  | None => fault
  | Some leaf_page => l ← as_leaf leaf_page; mret (Leaf_GetItem l (index_ it))
  end.

(** [IndexIterator::operator++] *)
Definition advance (it : IndexIterator) : M Pool IndexIterator :=
  e ← isEnd it;
  if e : bool then mret (mkIter (index_ it + 1) (leaf_page_ it))
  else
    match leaf_page_ it with
    | None => fault
    | Some leaf_page =>
        l ← as_leaf leaf_page;
        if index_ it <? lsize l - 1 then mret (mkIter (index_ it + 1) (leaf_page_ it))
        else
          let new_page_id := next_page_id_' l in
          pid ← GetPageId leaf_page;
          UnpinPage pid true;;
          page ← WrapFetchPage new_page_id;
          mret (mkIter 0 (Some page))
    end.

(** [BPlusTree::begin]; on an empty tree the source builds an iterator over a
    null pool, which its constructor dereferences. *)
Definition begin_ (fuel : nat) : M BPlusTree IndexIterator :=
  empty ← gets IsEmpty;
  if empty : bool then fault
  else
    root ← gets root_page_id_;
    page ← GetBPlusPage root;
    let fix leftmost (fuel : nat) (page : frame_id_t) : M BPlusTree frame_id_t :=
      is_leaf ← liftB (IsLeafPage page);
      if is_leaf : bool then mret page
      else
        match fuel with
        | O => out_of_fuel
        | S fuel' =>
            ipage ← liftB (as_internal page);
            let child_id := ValueAt ipage 0 in
            liftB (pid ← GetPageId page; UnpinPage pid false);;
            page' ← GetBPlusPage child_id;
            leftmost fuel' page'
        end in
    lpage ← leftmost fuel page;
    page_id ← liftB (GetPageId lpage);
    liftB (UnpinPage page_id false);;
    liftB (IndexIterator_new page_id 0).

End BPlusTree.

Arguments BPlusTreePage : clear implicits.
Arguments LeafPage : clear implicits.
Arguments InternalPage : clear implicits.
Arguments PageData : clear implicits.
Arguments BPlusTree : clear implicits.
Arguments Zeroed {KeyType ValueType}.

(** ** Scenarios

    The instantiation and the set-up the repository's tests use: integer keys
    compared numerically, a record id for value, and a pool in which the
    header page (the first page the disk manager allocates, id 0) has been
    created by [NewPage] and is kept pinned by the test. *)

(** Modelled from the spec: key types and comparators are external; the
    index needs a total order, and a comparator answers with a sign. *)
Definition cmpZ (a b : Z) : Z := Z.sgn (a - b).

Abbreviation IntPage := (PageData Z Z).
Abbreviation IntTree := (BPlusTree Z Z).

Definition test_pool (pool_size : Z) : BufferPoolManager IntPage :=
  snd (NewPageImpl Zeroed (BufferPoolManager_new Zeroed pool_size DiskManager_new)).

Definition test_tree (pool_size leaf_max_size internal_max_size : Z) : IntTree :=
  BPlusTree_new "foo_pk" (test_pool pool_size) leaf_max_size internal_max_size.

(** A call of the public tree interface and what it returned. *)
Inductive TreeOp :=
| OpInsert (key value : Z)
| OpRemove (key : Z)
| OpGetValue (key : Z).

Inductive TreeOut :=
| Inserted (ok : bool)
| Removed
| Got (value : option Z).

Definition run_op (fuel : nat) (op : TreeOp) : M IntTree TreeOut :=
  match op with
  | OpInsert key value => ok ← Insert cmpZ 0 0 fuel key value; mret (Inserted ok)
  | OpRemove key => Remove cmpZ 0 0 fuel key;; mret Removed
  | OpGetValue key => v ← GetValue cmpZ 0 0 fuel key; mret (Got v)
  end.

Fixpoint run_ops (fuel : nat) (ops : list TreeOp) : M IntTree (list TreeOut) :=
  match ops with
  | [] => mret []
  | op :: ops' => out ← run_op fuel op; outs ← run_ops fuel ops'; mret (out :: outs)
  end.

(** The state a script leaves behind, when it runs to its end. *)
Definition state_after (fuel : nat) (ops : list TreeOp) (t : IntTree) : option IntTree :=
  match run_ops fuel ops t with
  | Ok _ t' => Some t'
  | _ => None
  end.

Definition outputs_of (fuel : nat) (ops : list TreeOp) (t : IntTree) : option (list TreeOut) :=
  match run_ops fuel ops t with
  | Ok outs _ => Some outs
  | _ => None
  end.

(** The frame a page lives in, and its header in the pool. *)
Definition frame_of {Data} (b : BufferPoolManager Data) (page_id : page_id_t) : option frame_id_t :=
  page_table_ b !! page_id.

Definition pin_count_of {Data} (zero : Data) (b : BufferPoolManager Data) (page_id : page_id_t) : option Z :=
  match page_table_ b !! page_id with
  | Some f => Some (pin_count_ (page_at zero b f))
  | None => None
  end.

(** Calls of the pool's public interface on a pool whose pages hold one
    number each; [OpWrite] is the client storing through the pointer it
    holds. *)
Inductive PoolOp :=
| OpNewPage
| OpFetchPage (page_id : page_id_t)
| OpUnpinPage (page_id : page_id_t) (is_dirty : bool)
| OpFlushPage (page_id : page_id_t)
| OpDeletePage (page_id : page_id_t)
| OpWrite (frame_id : frame_id_t) (contents : Z).

Definition run_pool_op (op : PoolOp) (b : BufferPoolManager Z) : BufferPoolManager Z :=
  match op with
  | OpNewPage => snd (NewPageImpl 0 b)
  | OpFetchPage page_id => snd (FetchPageImpl 0 page_id b)
  | OpUnpinPage page_id is_dirty => snd (UnpinPageImpl 0 page_id is_dirty b)
  | OpFlushPage page_id => snd (FlushPageImpl 0 page_id b)
  | OpDeletePage page_id => snd (DeletePageImpl 0 page_id b)
  | OpWrite frame_id contents => write_data 0 frame_id contents b
  end.

Definition run_pool (ops : list PoolOp) (b : BufferPoolManager Z) : BufferPoolManager Z :=
  fold_left (fun b op => run_pool_op op b) ops b.

Definition fresh_pool (pool_size : Z) : BufferPoolManager Z :=
  BufferPoolManager_new 0 pool_size DiskManager_new.

(** Scenario S2 of the spec on a replacer of capacity [n]. *)
Definition lru_scenario (n : Z) : list (option frame_id_t) :=
  let r := fold_left Unpin [1; 2; 3; 4; 5] (LRUReplacer_new n) in
  let '(v1, r) := Victim r in
  let r := Pin r 3 in
  let '(v2, r) := Victim r in
  let '(v3, r) := Victim r in
  let '(v4, r) := Victim r in
  let '(v5, r) := Victim r in
  [v1; v2; v3; v4; v5].

(** What the pool holds for a page id, if the page is resident. *)
Definition page_data_of {Data} (zero : Data) (b : BufferPoolManager Data) (page_id : page_id_t)
  : option Data :=
  match page_table_ b !! page_id with
  | Some f => Some (data_ (page_at zero b f))
  | None => None
  end.

(** The pin count a script leaves on a page. *)
Definition pin_count_after (fuel : nat) (ops : list TreeOp) (t : IntTree) (page_id : page_id_t)
  : option Z :=
  match state_after fuel ops t with
  | Some t' => pin_count_of Zeroed (buffer_pool_manager_ t') page_id
  | None => None
  end.

(** The tree-page header the pool holds for a page id. *)
Definition tree_hdr_of (t : IntTree) (page_id : page_id_t) : option BPlusTreePage :=
  match page_data_of Zeroed (buffer_pool_manager_ t) page_id with
  | Some d => hdr_of d
  | None => None
  end.

(** The state inside [InsertIntoLeaf] right before its split block, on a
    tree of leaf capacity 3 holding keys 1 and 2: the root leaf (page 1) has
    been fetched and key 3 stored in it, which fills it. *)
Definition tree_with_full_leaf : IntTree * frame_id_t :=
  match state_after 10 [OpInsert 1 10; OpInsert 2 20] (test_tree 10 3 3) with
  | Some t =>
      match (lpage ← GetBPlusPage 1;
             liftB (upd_leaf lpage (Leaf_Insert cmpZ 3 30));;
             mret lpage) t with
      | Ok lpage t' => (t', lpage)
      | _ => (t, 0)
      end
  | None => (test_tree 10 3 3, 0)
  end.

(** The tree and the iterator of a scan that has just begun ([begin]) on a
    tree holding key 1 in one leaf, over a pool of two frames: the header
    page's and the leaf's. *)
Definition scan_on_full_pool : IntTree * IndexIterator :=
  match state_after 10 [OpInsert 1 10] (test_tree 2 4 4) with
  | Some t =>
      match begin_ 0 10 t with
      | Ok it t' => (t', it)
      | _ => (t, mkIter 0 None)
      end
  | None => (test_tree 2 4 4, mkIter 0 None)
  end.

(** Another client of the same pool allocating three pages. *)
Definition three_new_pages {Data} (zero : Data) (b : BufferPoolManager Data)
  : BufferPoolManager Data :=
  snd (NewPageImpl zero (snd (NewPageImpl zero (snd (NewPageImpl zero b))))).

(** ** Statements used below *)

(** Slot [i] of an internal page is the one whose key range holds [key]:
    [k_i <= key < k_(i+1)], with no lower bound at slot 0 and no upper bound
    at the last slot.  "[key < k]" is read off the comparator the way
    [Lookup] asks it: [comparator k key > 0]. *)
Definition child_for {KeyType : Type} (comparator : KeyType -> KeyType -> Z) (key0 : KeyType)
    (p : InternalPage KeyType) (key : KeyType) (i : Z) : Prop :=
  0 <= i < isize p /\
  (1 <= i -> comparator (KeyAt key0 p i) key <= 0) /\
  (i + 1 < isize p -> 0 < comparator (KeyAt key0 p (i + 1)) key).


(** ** Statements about runs of calls *)

(** [Victim] called [n] times in a row: the frames it handed out, first call
    first, up to the first call that failed, and the replacer left behind. *)
Fixpoint victims (n : nat) (r : LRUReplacer) : list frame_id_t * LRUReplacer :=
  match n with
  | O => ([], r)
  | S n' =>
      match Victim r with
      | (Some f, r') => let '(l, r'') := victims n' r' in (f :: l, r'')
      | (None, r') => ([], r')
      end
  end.

(** One turn of the loop of [FlushAllPagesImpl], seen from the disk manager:
    the frames are only read. *)
Definition flush_frame {Data : Type} (zero : Data) (b : BufferPoolManager Data)
    (d : DiskManager Data) (i : nat) : DiskManager Data :=
  let page := page_at zero b (Z.of_nat i) in
  if negb (page_id_ page =? INVALID_PAGE_ID) && is_dirty_ page
  then WritePage d (page_id_ page) (data_ page)
  else d.

(** The pools a client can bring about: the constructor's, and what the
    calls of the public interface and a client's stores into a resident page
    make of one.  [FetchPageImpl] is called on page ids the disk manager has
    allocated. *)
Inductive reachable {Data : Type} (zero : Data) (pool_size : Z) (dm : DiskManager Data)
  : BufferPoolManager Data -> Prop :=
| reach_new : reachable zero pool_size dm (BufferPoolManager_new zero pool_size dm)
| reach_fetch b page_id :
    reachable zero pool_size dm b -> page_id < next_page_id_ (disk_manager_ b) ->
    reachable zero pool_size dm (snd (FetchPageImpl zero page_id b))
| reach_new_page b :
    reachable zero pool_size dm b ->
    reachable zero pool_size dm (snd (NewPageImpl zero b))
| reach_unpin b page_id is_dirty :
    reachable zero pool_size dm b ->
    reachable zero pool_size dm (snd (UnpinPageImpl zero page_id is_dirty b))
| reach_flush b page_id :
    reachable zero pool_size dm b ->
    reachable zero pool_size dm (snd (FlushPageImpl zero page_id b))
| reach_delete b page_id :
    reachable zero pool_size dm b ->
    reachable zero pool_size dm (snd (DeletePageImpl zero page_id b))
| reach_flush_all b :
    reachable zero pool_size dm b ->
    reachable zero pool_size dm (FlushAllPagesImpl zero b)
| reach_write b page_id f d :
    reachable zero pool_size dm b -> page_table_ b !! page_id = Some f ->
    reachable zero pool_size dm (write_data zero f d b).

(** What the constructor establishes about the frame array and the
    replacer's capacity: [pool_size] frames, no negative pin count, a
    replacer of capacity [pool_size]. *)
Definition frames_ok {Data : Type} (pool_size : Z) (b : BufferPoolManager Data) : Prop :=
  pool_size_ b = pool_size /\
  length (pages_ b) = Z.to_nat pool_size /\
  Forall (fun p => 0 <= pin_count_ p) (pages_ b) /\
  max_pages (replacer_ b) = pool_size.

(** Slot [j] of the entry array of an internal page, read the way the
    page's own [KeyAt] and [ValueAt] read it. *)
Definition slot {KeyType : Type} (key0 : KeyType) (p : InternalPage KeyType) (j : Z)
  : KeyType * page_id_t :=
  (KeyAt key0 p j, ValueAt key0 p j).

(** Two pools hold the same pages with the same bytes, over the same disk:
    the same page table, as many frames, the same disk manager, and in every
    frame the same [data_].  Pin counts, dirty flags and the replacer may
    differ. *)
Definition same_contents {Data : Type} (zero : Data) (b b' : BufferPoolManager Data) : Prop :=
  page_table_ b' = page_table_ b /\
  length (pages_ b') = length (pages_ b) /\
  disk_manager_ b' = disk_manager_ b /\
  forall g, data_ (page_at zero b' g) = data_ (page_at zero b g).

(** ** b_plus_tree.cpp and index_iterator.h: the other iterator entry points *)

Section IteratorEntryPoints.
Context {KeyType ValueType : Type}.
Context (comparator : KeyType -> KeyType -> Z).
Context (key0 : KeyType) (val0 : ValueType).

(** The descent of [BPlusTree::end]: always the last child. *)
Fixpoint rightmost (fuel : nat) (page : frame_id_t) : M (BPlusTree KeyType ValueType) frame_id_t :=
  is_leaf ← liftB (IsLeafPage page);
  if is_leaf : bool then mret page
  else
    match fuel with
    | O => out_of_fuel
    | S fuel' =>
        ipage ← liftB (as_internal page);
        let child_id := ValueAt key0 ipage (isize ipage - 1) in
        liftB (pid ← GetPageId page; UnpinPage pid false);;
        page' ← GetBPlusPage child_id;
        rightmost fuel' page'
    end.

(** [BPlusTree::end]; on an empty tree the source builds an iterator over a
    null pool, which its constructor dereferences. *)
Definition end_ (fuel : nat) : M (BPlusTree KeyType ValueType) IndexIterator :=
  empty ← gets IsEmpty;
  if empty : bool then fault
  else
    root ← gets root_page_id_;
    page ← GetBPlusPage root;
    lpage ← rightmost fuel page;
    page_id ← liftB (GetPageId lpage);
    index ← liftB (GetSize lpage);
    liftB (UnpinPage page_id false);;
    liftB (IndexIterator_new page_id index).

(** [BPlusTree::Begin(key)]: the binary search over the leaf is the loop of
    [Leaf_search].  [FindLeafPage] returns [nullptr] on an empty tree, which
    is dereferenced; when no key of the leaf compares equal, the local
    [index] is read without having been assigned.  Both are [Fault]. *)
Definition Begin (fuel : nat) (key : KeyType) : M (BPlusTree KeyType ValueType) IndexIterator :=
  r ← FindLeafPage comparator key0 fuel key;
  match r with
  | None => fault
  | Some lpage =>
      page_id ← liftB (GetPageId lpage);
      l ← liftB (as_leaf lpage);
      let found := Leaf_search comparator key0 val0 l key (Z.to_nat (lsize l)) 0 (lsize l) in
      liftB (pid ← GetPageId lpage; UnpinPage pid false);;
      match found with
      | Some index => liftB (IndexIterator_new page_id index)
      | None => fault
      end
  end.

(** [IndexIterator::operator==] and [operator!=] (index_iterator.h). *)
Definition iter_eq (a b : IndexIterator) : M (BufferPoolManager (PageData KeyType ValueType)) bool :=
  match leaf_page_ a, leaf_page_ b with
  | Some pa, Some pb =>
      ida ← GetPageId pa;
      idb ← GetPageId pb;
      mret ((ida =? idb) && (index_ a =? index_ b))
  | _, _ => fault
  end.

Definition iter_ne (a b : IndexIterator) : M (BufferPoolManager (PageData KeyType ValueType)) bool :=
  match leaf_page_ a, leaf_page_ b with
  | Some pa, Some pb =>
      ida ← GetPageId pa;
      idb ← GetPageId pb;
      mret (negb (ida =? idb) || negb (index_ a =? index_ b))
  | _, _ => fault
  end.

End IteratorEntryPoints.

(** Two more trees of the scenarios' set-up: keys 1 and 2 in a root leaf of
    capacity 4, and keys 1 to 4 under leaf and internal capacity 3, which
    makes a root (page 3) over three leaves (pages 1, 2 and 4). *)
Definition single_leaf_tree : IntTree :=
  match state_after 10 [OpInsert 1 10; OpInsert 2 20] (test_tree 10 4 4) with
  | Some t => t
  | None => test_tree 10 4 4
  end.

Definition two_level_tree : IntTree :=
  match state_after 10 [OpInsert 1 10; OpInsert 2 20; OpInsert 3 30; OpInsert 4 40]
          (test_tree 10 3 3) with
  | Some t => t
  | None => test_tree 10 3 3
  end.

(** A root leaf right after its split, before [InsertIntoParent]: the old
    leaf (page 1) keeps key 1, the new leaf (page 2) holds keys 2 and 3, and
    neither has a parent yet. *)
Definition split_root_tree : IntTree :=
  let b := snd (NewPageImpl Zeroed (snd (NewPageImpl Zeroed (test_pool 5)))) in
  let b := write_data Zeroed 1
             (LeafData (mkLeaf (mkHdr 1 3 INVALID_PAGE_ID 1) 2 [(1, 10)])) b in
  let b := write_data Zeroed 2
             (LeafData (mkLeaf (mkHdr 2 3 INVALID_PAGE_ID 2) INVALID_PAGE_ID [(2, 20); (3, 30)])) b in
  mkTree "foo_pk" 1 b 3 3.



(** * Properties *)

(** ** The LRU replacer *)

Lemma find_frame_elem f l : find_frame f l = true <-> f ∈ l.
Proof.
  induction l as [|x l IH]; simpl.
  - split; [discriminate | intros H; inversion H].
  - destruct (Z.eqb_spec x f) as [->|Hne].
    + split; [intros _; left | reflexivity].
    + rewrite IH. split; [intros H; right; exact H|].
      intros H. inversion H; subst; [congruence | assumption].
Qed.

Lemma find_frame_not_elem f l : find_frame f l = false <-> f ∉ l.
Proof.
  rewrite <- find_frame_elem. destruct (find_frame f l); split; congruence.
Qed.

Lemma erase_first_app f l1 l2 :
  f ∉ l1 -> erase_first f (l1 ++ f :: l2) = l1 ++ l2.
Proof.
  induction l1 as [|x l1 IH]; simpl; intros Hn.
  - rewrite Z.eqb_refl. reflexivity.
  - destruct (Z.eqb_spec x f) as [->|Hne].
    + exfalso. apply Hn. left.
    + rewrite IH; [reflexivity|]. intros H. apply Hn. right. exact H.
Qed.

Lemma erase_first_length f l :
  f ∈ l -> S (length (erase_first f l)) = length l.
Proof.
  induction l as [|x l IH]; simpl; intros H.
  - inversion H.
  - destruct (Z.eqb_spec x f) as [->|Hne]; [reflexivity|].
    simpl. rewrite IH; [reflexivity|]. inversion H; subst; [congruence|assumption].
Qed.

Lemma erase_first_subset f l g : g ∈ erase_first f l -> g ∈ l.
Proof.
  induction l as [|x l IH]; simpl; [trivial|].
  destruct (Z.eqb_spec x f) as [->|Hne]; intros H.
  - right. exact H.
  - inversion H; subst; [left | right; auto].
Qed.

Lemma erase_first_NoDup f l : NoDup l -> NoDup (erase_first f l).
Proof.
  induction 1 as [|x l Hx Hl IH]; simpl; [constructor|].
  destruct (Z.eqb_spec x f); [assumption|].
  constructor; [|assumption]. intros H. apply Hx. eapply erase_first_subset; eauto.
Qed.

Lemma removelast_snoc {A} (l : list A) (x : A) : removelast (l ++ [x]) = l.
Proof. apply removelast_last. Qed.

Lemma last_snoc {A} (l : list A) (x d : A) : List.last (l ++ [x]) d = x.
Proof. apply last_last. Qed.

Lemma list_snoc_cases {A} (l : list A) : l = [] \/ exists l' x, l = l' ++ [x].
Proof. induction l as [|x l _] using rev_ind; [left; reflexivity | right; eauto]. Qed.

Lemma wrap_size_t_small x : 0 <= x < 2 ^ 64 -> wrap_size_t x = x.
Proof. intros H. unfold wrap_size_t. apply Z.mod_small. exact H. Qed.

Lemma Victim_empty r : lru_wf r -> frame_ids r = [] -> Victim r = (None, r).
Proof.
  intros (_ & Hc & _ & _) He. unfold Victim. rewrite Hc, He. reflexivity.
Qed.

Lemma Victim_snoc r l f :
  lru_wf r -> frame_ids r = l ++ [f] ->
  Victim r = (Some f, mkLRU l (cur_pages r - 1) (max_pages r)).
Proof.
  intros (Hm & Hc & Hle & _) He. unfold Victim.
  assert (Hlen : cur_pages r = Z.of_nat (length l) + 1).
  { rewrite Hc, He, length_app. simpl. lia. }
  destruct (Z.eqb_spec (cur_pages r) 0) as [H0|_]; [lia|].
  rewrite He, last_snoc, removelast_snoc, wrap_size_t_small by lia. reflexivity.
Qed.

Lemma Victim_wf r : lru_wf r -> lru_wf (snd (Victim r)).
Proof.
  intros Hwf. destruct (list_snoc_cases (frame_ids r)) as [He|(l & f & He)].
  - rewrite (Victim_empty r Hwf He). exact Hwf.
  - rewrite (Victim_snoc r l f Hwf He). destruct Hwf as (Hm & Hc & Hle & Hnd).
    unfold lru_wf; simpl. rewrite He in Hc, Hnd. rewrite length_app in Hc. simpl in Hc.
    repeat split; try lia. apply NoDup_app in Hnd. tauto.
Qed.

Lemma Pin_absent r f : f ∉ frame_ids r -> Pin r f = r.
Proof.
  intros H. unfold Pin. apply find_frame_not_elem in H. rewrite H. reflexivity.
Qed.

Lemma Pin_present r f l1 l2 :
  lru_wf r -> frame_ids r = l1 ++ f :: l2 ->
  Pin r f = mkLRU (l1 ++ l2) (cur_pages r - 1) (max_pages r).
Proof.
  intros (Hm & Hc & Hle & Hnd) He. unfold Pin.
  assert (Hin : f ∈ frame_ids r) by (rewrite He; apply elem_of_app; right; left).
  apply find_frame_elem in Hin. rewrite Hin.
  assert (Hn1 : f ∉ l1).
  { rewrite He in Hnd. apply NoDup_app in Hnd. destruct Hnd as (_ & Hd & _).
    intros Hf. apply (Hd f Hf). left. }
  rewrite He, erase_first_app by exact Hn1.
  rewrite wrap_size_t_small; [reflexivity|].
  rewrite He, length_app in Hc. simpl in Hc. lia.
Qed.

Lemma Pin_wf r f : lru_wf r -> lru_wf (Pin r f).
Proof.
  intros Hwf. destruct (decide (f ∈ frame_ids r)) as [Hin|Hn].
  - apply list_elem_of_split in Hin. destruct Hin as (l1 & l2 & He).
    rewrite (Pin_present r f l1 l2 Hwf He). destruct Hwf as (Hm & Hc & Hle & Hnd).
    unfold lru_wf; simpl. rewrite He in Hc, Hnd.
    rewrite length_app in Hc |- *. simpl in Hc. repeat split; try lia.
    apply NoDup_app in Hnd. destruct Hnd as (H1 & H2 & H3). apply NoDup_cons in H3.
    apply NoDup_app. repeat split; [assumption| |tauto].
    intros x Hx Hx2. apply (H2 x Hx). right. exact Hx2.
  - rewrite Pin_absent by exact Hn. exact Hwf.
Qed.

Lemma Unpin_present r f : f ∈ frame_ids r -> Unpin r f = r.
Proof.
  intros H. unfold Unpin. apply find_frame_elem in H. rewrite H. reflexivity.
Qed.

Lemma Unpin_room r f :
  lru_wf r -> f ∉ frame_ids r -> cur_pages r <> max_pages r ->
  Unpin r f = mkLRU (f :: frame_ids r) (cur_pages r + 1) (max_pages r).
Proof.
  intros (Hm & Hc & Hle & Hnd) Hn Hne. unfold Unpin.
  apply find_frame_not_elem in Hn. rewrite Hn.
  destruct (Z.eqb_spec (cur_pages r) (max_pages r)) as [|_]; [contradiction|].
  rewrite wrap_size_t_small by lia. reflexivity.
Qed.

Lemma Unpin_full r f :
  lru_wf r -> f ∉ frame_ids r -> cur_pages r = max_pages r ->
  Unpin r f = mkLRU (f :: removelast (frame_ids r)) (cur_pages r) (max_pages r).
Proof.
  intros Hwf Hn Heq. pose proof Hwf as (Hm & Hc & Hle & Hnd). unfold Unpin.
  apply find_frame_not_elem in Hn. rewrite Hn.
  destruct (Z.eqb_spec (cur_pages r) (max_pages r)) as [_|]; [|contradiction].
  destruct (list_snoc_cases (frame_ids r)) as [He|(l & x & He)].
  - rewrite He in Hc. simpl in Hc. lia.
  - rewrite (Victim_snoc r l x Hwf He). simpl.
    rewrite He, removelast_snoc, wrap_size_t_small by lia.
    f_equal. lia.
Qed.

Lemma Unpin_wf r f : lru_wf r -> lru_wf (Unpin r f).
Proof.
  intros Hwf. destruct (decide (f ∈ frame_ids r)) as [Hin|Hn].
  - rewrite Unpin_present by exact Hin. exact Hwf.
  - pose proof Hwf as (Hm & Hc & Hle & Hnd).
    destruct (Z.eq_dec (cur_pages r) (max_pages r)) as [Heq|Hne].
    + rewrite (Unpin_full r f Hwf Hn Heq). unfold lru_wf; simpl.
      destruct (list_snoc_cases (frame_ids r)) as [He|(l & x & He)].
      * rewrite He in Hc. simpl in Hc. lia.
      * rewrite He, removelast_snoc. rewrite He in Hc, Hnd, Hn.
        rewrite length_app in Hc. simpl in Hc.
        repeat split; try lia. apply NoDup_cons. split.
        -- intros Hf. apply Hn. apply elem_of_app. left. exact Hf.
        -- apply NoDup_app in Hnd. tauto.
    + rewrite (Unpin_room r f Hwf Hn Hne). unfold lru_wf; simpl.
      repeat split; try lia. apply NoDup_cons. split; assumption.
Qed.

Lemma Unpin_enlists r f : lru_wf r -> f ∈ frame_ids (Unpin r f).
Proof.
  intros Hwf. destruct (decide (f ∈ frame_ids r)) as [Hin|Hn].
  - rewrite Unpin_present by exact Hin. exact Hin.
  - destruct (Z.eq_dec (cur_pages r) (max_pages r)) as [Heq|Hne].
    + rewrite (Unpin_full r f Hwf Hn Heq). left.
    + rewrite (Unpin_room r f Hwf Hn Hne). left.
Qed.

Lemma LRUReplacer_new_wf n : 0 < n < 2 ^ 64 -> lru_wf (LRUReplacer_new n).
Proof.
  intros H. unfold lru_wf, LRUReplacer_new; simpl. repeat split; try lia. constructor.
Qed.

(** The three methods on an explicit replacer, for stepping through a
    scenario whose capacity is not a numeral. *)
Lemma Unpin_mk l c n f :
  find_frame f l = false -> c <> n -> 0 <= c + 1 < 2 ^ 64 ->
  Unpin (mkLRU l c n) f = mkLRU (f :: l) (c + 1) n.
Proof.
  intros Hf Hc Hr. unfold Unpin; simpl. rewrite Hf.
  destruct (Z.eqb_spec c n); [contradiction|]. simpl.
  rewrite wrap_size_t_small by exact Hr. reflexivity.
Qed.

Lemma Victim_mk l c n :
  c <> 0 -> 0 <= c - 1 < 2 ^ 64 ->
  Victim (mkLRU l c n) = (Some (List.last l 0), mkLRU (removelast l) (c - 1) n).
Proof.
  intros Hc Hr. unfold Victim; simpl.
  destruct (Z.eqb_spec c 0); [contradiction|].
  rewrite wrap_size_t_small by exact Hr. reflexivity.
Qed.

Lemma Pin_mk l c n f :
  find_frame f l = true -> 0 <= c - 1 < 2 ^ 64 ->
  Pin (mkLRU l c n) f = mkLRU (erase_first f l) (c - 1) n.
Proof.
  intros Hf Hr. unfold Pin; simpl. rewrite Hf.
  rewrite wrap_size_t_small by exact Hr. reflexivity.
Qed.

Lemma lru_scenario_runs n :
  5 <= n < 2 ^ 64 -> lru_scenario n = [Some 1; Some 2; Some 4; Some 5; None].
Proof.
  intros Hn. unfold lru_scenario, LRUReplacer_new. simpl fold_left.
  rewrite (Unpin_mk [] 0 n 1) by (try reflexivity; lia). simpl Z.add.
  rewrite (Unpin_mk _ 1 n 2) by (try reflexivity; lia). simpl Z.add.
  rewrite (Unpin_mk _ 2 n 3) by (try reflexivity; lia). simpl Z.add.
  rewrite (Unpin_mk _ 3 n 4) by (try reflexivity; lia). simpl Z.add.
  rewrite (Unpin_mk _ 4 n 5) by (try reflexivity; lia). simpl Z.add.
  rewrite (Victim_mk _ 5 n) by lia. simpl Z.sub. simpl List.last. simpl removelast.
  rewrite (Pin_mk _ 4 n 3) by (try reflexivity; lia). simpl Z.sub. simpl erase_first.
  rewrite (Victim_mk _ 3 n) by lia. simpl Z.sub. simpl List.last. simpl removelast.
  rewrite (Victim_mk _ 2 n) by lia. simpl Z.sub. simpl List.last. simpl removelast.
  rewrite (Victim_mk _ 1 n) by lia. simpl Z.sub. simpl List.last. simpl removelast.
  reflexivity.
Qed.

(** C5.  On a well-formed replacer (the state the constructor establishes
    and every method keeps): [Victim] fails exactly when the list is empty
    and otherwise removes and returns its back, the least recently unpinned
    frame; [Pin] removes the frame if it is present, keeping the order of
    the others, and changes nothing otherwise; [Unpin] changes nothing if the
    frame is present, and otherwise puts it at the front, after dropping the
    back when the replacer is at capacity.  Scenario S2: after unpinning
    1,2,3,4,5 into a replacer of capacity at least 5, [Victim] yields 1, and
    after [Pin 3] it yields 2, 4, 5 and then fails. *)
Theorem lru_replacer_insertion_ordered_set (r : LRUReplacer) :
  lru_wf r ->
  ((fst (Victim r) = None <-> frame_ids r = []) /\
   (frame_ids r = [] -> Victim r = (None, r)) /\
   (forall l f, frame_ids r = l ++ [f] ->
      fst (Victim r) = Some f /\ frame_ids (snd (Victim r)) = l)) /\
  (forall f,
     (f ∉ frame_ids r -> Pin r f = r) /\
     (forall l1 l2, frame_ids r = l1 ++ f :: l2 -> frame_ids (Pin r f) = l1 ++ l2)) /\
  (forall f,
     (f ∈ frame_ids r -> Unpin r f = r) /\
     (f ∉ frame_ids r -> Size r = max_pages r ->
        frame_ids (Unpin r f) = f :: removelast (frame_ids r)) /\
     (f ∉ frame_ids r -> Size r <> max_pages r ->
        frame_ids (Unpin r f) = f :: frame_ids r)) /\
  (lru_wf (snd (Victim r)) /\ forall f, lru_wf (Pin r f) /\ lru_wf (Unpin r f)) /\
  (forall n, 5 <= n < 2 ^ 64 ->
     lru_scenario n = [Some 1; Some 2; Some 4; Some 5; None]).
Proof.
  intros Hwf. split; [|split; [|split; [|split]]].
  - split; [split|split].
    + intros Hv. destruct (list_snoc_cases (frame_ids r)) as [He|(l & f & He)]; [exact He|].
      rewrite (Victim_snoc r l f Hwf He) in Hv. discriminate.
    + intros He. rewrite (Victim_empty r Hwf He). reflexivity.
    + apply Victim_empty. exact Hwf.
    + intros l f He. rewrite (Victim_snoc r l f Hwf He). split; reflexivity.
  - intros f. split.
    + apply Pin_absent.
    + intros l1 l2 He. rewrite (Pin_present r f l1 l2 Hwf He). reflexivity.
  - intros f. split; [|split].
    + apply Unpin_present.
    + intros Hn Heq. rewrite (Unpin_full r f Hwf Hn Heq). reflexivity.
    + intros Hn Hne. rewrite (Unpin_room r f Hwf Hn Hne). reflexivity.
  - split; [apply Victim_wf; exact Hwf|].
    intros f. split; [apply Pin_wf | apply Unpin_wf]; exact Hwf.
  - apply lru_scenario_runs.
Qed.

Lemma lru_replacer_insertion_ordered_set_witness :
  let r := Unpin (Unpin (LRUReplacer_new 7) 1) 2 in
  lru_wf r /\ fst (Victim r) = Some 1 /\ frame_ids (snd (Victim r)) = [2].
Proof.
  intros r.
  assert (Hwf : lru_wf r).
  { unfold lru_wf. vm_compute. repeat split; try discriminate.
    apply NoDup_cons. split.
    - intros H. apply elem_of_cons in H. destruct H as [H|H]; [discriminate H | inversion H].
    - apply NoDup_cons. split; [intros H; inversion H | constructor]. }
  split; [exact Hwf|].
  exact (proj2 (proj2 (proj1 (lru_replacer_insertion_ordered_set r Hwf))) [2] 1 eq_refl).
Defined.

(** ** Internal page lookup *)

Section InternalLookup.
Context {KeyType : Type} (comparator : KeyType -> KeyType -> Z) (key0 : KeyType).
Implicit Types (p : InternalPage KeyType) (key : KeyType).

Lemma shiftr1_mid left right :
  left < right -> left <= Z.shiftr (right - left) 1 + left < right.
Proof.
  intros H. rewrite Z.shiftr_div_pow2 by lia. change (2 ^ 1) with 2.
  pose proof (Z.div_pos (right - left) 2). 
  assert ((right - left) / 2 < right - left) by (apply Z.div_lt; lia).
  lia.
Qed.

(** The loop keeps the two boundary facts and stops with [left = right]
    within the fuel [Lookup] gives it. *)
Lemma Lookup_loop_boundary p key fuel left right :
  1 <= left <= right -> right <= isize p -> right - left <= Z.of_nat fuel ->
  (left = 1 \/ comparator (KeyAt key0 p (left - 1)) key <= 0) ->
  (right = isize p \/ 0 < comparator (KeyAt key0 p right) key) ->
  let i := Lookup_loop comparator key0 p key fuel left right in
  1 <= i <= isize p /\
  (i = 1 \/ comparator (KeyAt key0 p (i - 1)) key <= 0) /\
  (i = isize p \/ 0 < comparator (KeyAt key0 p i) key).
Proof.
  revert left right. induction fuel as [|fuel IH]; intros left right Hlr Hn Hf Hl Hr.
  - simpl. assert (left = right) by lia. subst. repeat split; try lia; assumption.
  - simpl. destruct (Z.ltb_spec left right) as [Hlt|Hge].
    + pose proof (shiftr1_mid left right Hlt) as Hmid.
      set (mid := Z.shiftr (right - left) 1 + left) in *.
      destruct (Z.ltb_spec 0 (comparator (KeyAt key0 p mid) key)) as [Hgt|Hle].
      * apply IH; [lia | lia | lia | assumption | right; assumption].
      * apply IH; [lia | lia | lia | | assumption].
        right. replace (mid + 1 - 1) with mid by lia. assumption.
    + assert (left = right) by lia. subst. repeat split; try lia; assumption.
Qed.

Lemma Lookup_finds_slot p key :
  1 <= isize p ->
  exists i, child_for comparator key0 p key i /\
            Lookup comparator key0 p key = ValueAt key0 p i.
Proof.
  intros Hn. unfold Lookup.
  pose proof (Lookup_loop_boundary p key (Z.to_nat (isize p - 1)) 1 (isize p)) as H.
  cbv zeta in H.
  destruct H as (Hi & Hlo & Hhi); try lia; [left; reflexivity.. |].
  set (left := Lookup_loop comparator key0 p key (Z.to_nat (isize p - 1)) 1 (isize p)) in *.
  exists (left - 1). split; [|reflexivity].
  unfold child_for. split; [lia|]. split.
  - intros H1. destruct Hlo as [->|H]; [lia | exact H].
  - intros H1. replace (left - 1 + 1) with left by lia.
    destruct Hhi as [->|H]; [lia | exact H].
Qed.

(** With strictly increasing keys and a transitive comparator only one slot
    qualifies. *)
Lemma child_for_unique p key i j :
  (forall a b c, comparator a b <= 0 -> comparator b c <= 0 -> comparator a c <= 0) ->
  (forall i j, 1 <= i < j -> j < isize p ->
     comparator (KeyAt key0 p i) (KeyAt key0 p j) < 0) ->
  child_for comparator key0 p key i -> child_for comparator key0 p key j -> i <= j.
Proof.
  intros Htrans Hsorted (Hi & Hilo & Hihi) (Hj & Hjlo & Hjhi).
  destruct (Z.le_gt_cases i j) as [|Hlt]; [assumption|]. exfalso.
  (* j < i: key < k_(j+1) <= k_i <= key *)
  specialize (Hilo ltac:(lia)). specialize (Hjhi ltac:(lia)).
  destruct (Z.eq_dec (j + 1) i) as [<-|Hne]; [lia|].
  pose proof (Hsorted (j + 1) i ltac:(lia) ltac:(lia)) as Hs.
  pose proof (Htrans _ _ _ (Z.lt_le_incl _ _ Hs) Hilo). lia.
Qed.

(** C7.  On an internal page with at least one entry whose keys at slots
    1..n-1 are strictly increasing for a transitive comparator, [Lookup]
    returns the child [c_i] of the slot with [k_i <= key < k_(i+1)] (no lower
    bound at slot 0, no upper bound at slot n-1), and that slot is the only
    one with this property. *)
Theorem internal_lookup_returns_child_of_key_range p key :
  1 <= isize p ->
  (forall a b c, comparator a b <= 0 -> comparator b c <= 0 -> comparator a c <= 0) ->
  (forall i j, 1 <= i < j -> j < isize p ->
     comparator (KeyAt key0 p i) (KeyAt key0 p j) < 0) ->
  exists i,
    child_for comparator key0 p key i /\
    Lookup comparator key0 p key = ValueAt key0 p i /\
    forall j, child_for comparator key0 p key j -> j = i.
Proof.
  intros Hn Htrans Hsorted.
  destruct (Lookup_finds_slot p key Hn) as (i & Hi & Hv).
  exists i. split; [exact Hi|]. split; [exact Hv|].
  intros j Hj.
  pose proof (child_for_unique p key i j Htrans Hsorted Hi Hj).
  pose proof (child_for_unique p key j i Htrans Hsorted Hj Hi).
  lia.
Qed.

End InternalLookup.

Lemma cmpZ_le a b : cmpZ a b <= 0 <-> a <= b.
Proof. unfold cmpZ. destruct (Z.sgn_spec (a - b)) as [[? ->]|[[? ->]|[? ->]]]; lia. Qed.

Lemma cmpZ_lt a b : cmpZ a b < 0 <-> a < b.
Proof. unfold cmpZ. destruct (Z.sgn_spec (a - b)) as [[? ->]|[[? ->]|[? ->]]]; lia. Qed.

Lemma cmpZ_trans a b c : cmpZ a b <= 0 -> cmpZ b c <= 0 -> cmpZ a c <= 0.
Proof. rewrite !cmpZ_le. lia. Qed.

Lemma internal_lookup_returns_child_of_key_range_witness :
  let p := mkInternal (mkHdr 3 4 INVALID_PAGE_ID 7) [(0, 10); (5, 11); (9, 12)] in
  exists i,
    child_for cmpZ 0 p 7 i /\
    Lookup cmpZ 0 p 7 = ValueAt 0 p i /\
    forall j, child_for cmpZ 0 p 7 j -> j = i.
Proof.
  intros p.
  apply (internal_lookup_returns_child_of_key_range cmpZ 0 p 7).
  - vm_compute. discriminate.
  - exact cmpZ_trans.
  - intros i j Hij Hj. change (isize p) with 3 in Hj.
    assert (i = 1) as -> by lia. assert (j = 2) as -> by lia.
    vm_compute. reflexivity.
Defined.

(** ** The buffer pool *)

Section PoolFacts.
Context {Data : Type} (zero : Data).
Implicit Types (b : BufferPoolManager Data) (p : Page Data).

Lemma page_at_set_page_eq b f p :
  frame_ok b f -> page_at zero (set_page f p b) f = p.
Proof.
  intros [H0 Hlt]. unfold page_at, set_page; simpl.
  rewrite list_lookup_insert_eq by lia. reflexivity.
Qed.

Lemma page_at_set_page_ne b f g p :
  0 <= f -> 0 <= g -> f <> g -> page_at zero (set_page f p b) g = page_at zero b g.
Proof.
  intros Hf Hg Hne. unfold page_at, set_page; simpl.
  rewrite list_lookup_insert_ne by lia. reflexivity.
Qed.

Lemma frame_ok_set_page b f p g : frame_ok (set_page f p b) g <-> frame_ok b g.
Proof. unfold frame_ok, set_page; simpl. rewrite length_insert. reflexivity. Qed.

(** What [UnpinPageImpl] does to a page that is resident and pinned: the
    flag it is given replaces the page's dirty flag, the pin count drops by
    one, the bytes stay. *)
Lemma UnpinPageImpl_pinned b page_id is_dirty f :
  page_table_ b !! page_id = Some f -> frame_ok b f ->
  0 < pin_count_ (page_at zero b f) ->
  exists b',
    UnpinPageImpl zero page_id is_dirty b = (true, b') /\
    is_dirty_ (page_at zero b' f) = is_dirty /\
    pin_count_ (page_at zero b' f) = pin_count_ (page_at zero b f) - 1 /\
    data_ (page_at zero b' f) = data_ (page_at zero b f) /\
    page_table_ b' = page_table_ b /\
    free_list_ b' = free_list_ b /\
    disk_manager_ b' = disk_manager_ b /\
    (forall g, 0 <= g -> g <> f -> page_at zero b' g = page_at zero b g).
Proof.
  intros Hpt Hok Hpin. unfold UnpinPageImpl.
  unfold frame_id_t, page_id_t in *. rewrite Hpt.
  destruct (Z.leb_spec (pin_count_ (page_at zero b f)) 0) as [|_]; [lia|].
  eexists. split; [reflexivity|].
  match goal with
  | |- context [set_replacer ?r (set_page f ?p b)] =>
      assert (Hf : page_at zero (set_replacer r (set_page f p b)) f = p)
        by (apply (page_at_set_page_eq b f p Hok));
      assert (Hg : forall g, 0 <= g -> g <> f ->
                     page_at zero (set_replacer r (set_page f p b)) g = page_at zero b g)
        by (intros g Hg Hne; apply (page_at_set_page_ne b f g p); [apply Hok | lia | congruence])
  end.
  rewrite Hf. simpl. repeat split. exact Hg.
Qed.

(** Every successful [UnpinPageImpl] leaves the frame in the replacer,
    whatever pin count remains: with two pins or more on the page the frame
    is an eviction candidate that is still pinned. *)
Lemma UnpinPageImpl_enlists_pinned_frame b page_id is_dirty f :
  page_table_ b !! page_id = Some f -> frame_ok b f ->
  lru_wf (replacer_ b) ->
  1 < pin_count_ (page_at zero b f) ->
  let b' := snd (UnpinPageImpl zero page_id is_dirty b) in
  in_replacer b' f /\ 0 < pin_count_ (page_at zero b' f).
Proof.
  intros Hpt Hok Hwf Hpin.
  destruct (UnpinPageImpl_pinned b page_id is_dirty f Hpt Hok ltac:(lia))
    as (b1 & Hun & _ & Hcount & _).
  cbv zeta. rewrite Hun. simpl. split; [|lia].
  revert Hun. unfold UnpinPageImpl.
  unfold frame_id_t, page_id_t in *. rewrite Hpt.
  destruct (Z.leb_spec (pin_count_ (page_at zero b f)) 0) as [|_]; [lia|].
  intros [= <-]. unfold in_replacer. simpl. apply Unpin_enlists. exact Hwf.
Qed.

(** Eviction through [FetchPageImpl]: a dirty victim is written to disk
    first, and the frame keeps the victim's pin count plus one and the
    victim's dirty flag. *)
Lemma FetchPageImpl_evicts b page_id v r :
  page_table_ b !! page_id = None -> free_list_ b = [] ->
  Victim (replacer_ b) = (Some v, r) -> frame_ok b v ->
  let victim := page_at zero b v in
  let d := if is_dirty_ victim
           then WritePage (disk_manager_ b) (page_id_ victim) (data_ victim)
           else disk_manager_ b in
  exists b',
    FetchPageImpl zero page_id b = (Some v, b') /\
    disk_manager_ b' = d /\
    page_table_ b' = <[page_id := v]> (delete (page_id_ victim) (page_table_ b)) /\
    page_at zero b' v =
      mkPage (ReadPage zero d page_id) page_id (pin_count_ victim + 1) (is_dirty_ victim).
Proof.
  intros Hpt Hfl Hv Hok victim d. unfold FetchPageImpl.
  unfold frame_id_t, page_id_t in *. rewrite Hpt, Hfl, Hv.
  change (page_at zero (set_replacer r b) v) with victim.
  eexists. split; [reflexivity|].
  pose proof Hok as [H0 Hlt].
  subst d. destruct (is_dirty_ victim) eqn:Hd; simpl;
    (split; [reflexivity|]; split; [reflexivity|]);
    unfold page_at; simpl;
    rewrite list_lookup_insert_eq by lia; simpl;
    unfold set_pin_count, set_data, set_page_id, ResetMemory; simpl;
    f_equal; exact Hd.
Qed.

(** The same through [NewPageImpl]. *)
Lemma NewPageImpl_evicts b v r :
  free_list_ b = [] -> Victim (replacer_ b) = (Some v, r) -> frame_ok b v ->
  let victim := page_at zero b v in
  is_dirty_ victim = true ->
  write_log (disk_manager_ (snd (NewPageImpl zero b))) =
    (page_id_ victim, data_ victim) :: write_log (disk_manager_ b).
Proof.
  intros Hfl Hv Hok victim Hd. subst victim.
  assert (Hsz : (Size (replacer_ b) =? 0) = false).
  { unfold Victim in Hv. unfold Size.
    destruct (cur_pages (replacer_ b) =? 0); [discriminate | reflexivity]. }
  destruct b as [sz ps pt fl rp dm]. simpl in *. subst fl.
  unfold NewPageImpl; simpl. rewrite Hsz; simpl. rewrite Hv; simpl.
  unfold page_at in *; simpl in *. rewrite Hd. reflexivity.
Qed.

End PoolFacts.

(** C1 (the code does not do this).  [UnpinPageImpl] assigns the flag it is
    given, it does not or it into the page's flag: page 0 is dirty and pinned
    twice; unpinning it once with the flag set leaves it dirty, and unpinning
    it again with [false] clears the dirty flag although nothing was written
    back.  The tree of the same repository counts on the flag being sticky:
    [Insert] unpins the leaf dirty and the [GetValue] after it unpins it
    clean, which clears the flag; when the frame is then evicted (another
    client allocates three pages in a pool of three frames) the leaf with the
    inserted key is neither in the pool nor on disk. *)
Theorem unpin_false_clears_dirty_flag :
  (let b := run_pool [OpNewPage; OpFetchPage 0; OpWrite 0 7; OpUnpinPage 0 true] (fresh_pool 2) in
   let '(ok, b') := UnpinPageImpl 0 0 false b in
   frame_of b 0 = Some 0 /\
   pin_count_ (page_at 0 b 0) = 1 /\
   is_dirty_ (page_at 0 b 0) = true /\
   ok = true /\
   is_dirty_ (page_at 0 b' 0) = false /\
   write_log (disk_manager_ b') = []) /\
  match state_after 10 [OpInsert 1 10; OpGetValue 1] (test_tree 3 4 4) with
  | Some t =>
      let b := buffer_pool_manager_ t in
      frame_of b 1 = Some 1 /\
      is_dirty_ (page_at Zeroed b 1) = false /\
      disk (disk_manager_ b) !! 1 = None /\
      frame_of (three_new_pages Zeroed b) 1 = None /\
      disk (disk_manager_ (three_new_pages Zeroed b)) !! 1 = None
  | None => False
  end.
Proof. vm_compute. repeat split. Qed.

(** C2 (the code does not keep this).  [UnpinPageImpl] hands the frame to
    the replacer whatever the pin count has become: after a page is pinned
    twice and unpinned once, its frame is an eviction candidate while the
    page is resident with pin count 1; in a pool of one frame the next
    [NewPageImpl] then evicts the page that is still pinned. *)
Theorem unpin_puts_pinned_frame_in_replacer :
  let b := run_pool [OpNewPage; OpFetchPage 0; OpUnpinPage 0 false] (fresh_pool 1) in
  in_replacer b 0 /\
  resident 0 b 0 /\
  pin_count_ (page_at 0 b 0) = 1 /\
  ~ replacer_mirrors_pins 0 b 0 /\
  frame_of (run_pool [OpNewPage] b) 0 = None /\
  frame_of (run_pool [OpNewPage] b) 1 = Some 0.
Proof.
  assert (Hin : in_replacer
                  (run_pool [OpNewPage; OpFetchPage 0; OpUnpinPage 0 false] (fresh_pool 1)) 0).
  { unfold in_replacer. vm_compute. left. }
  cbv zeta. split; [exact Hin|].
  split; [vm_compute; reflexivity|].
  split; [vm_compute; reflexivity|].
  split; [|split; vm_compute; reflexivity].
  intros [H _]. specialize (H Hin). destruct H as [_ H]. vm_compute in H. discriminate.
Qed.

(** C4 (the code does not do all of this).  Fetching a non-resident page
    into the frame of a dirty victim: the victim is written to disk, its
    mapping is removed, the frame holds the disk contents of the fetched page
    with pin count 1 -- and its dirty flag is still set.  When the victim is
    a frame the replacer held with a pin left on it, the pin count comes out
    as 2. *)
Theorem fetch_into_dirty_victim_leaves_dirty_flag :
  let b := run_pool [OpNewPage; OpWrite 0 7; OpUnpinPage 0 true] (fresh_pool 1) in
  let '(r, b') := FetchPageImpl 0 1 b in
  (frame_of b 1 = None /\ free_list_ b = [] /\ fst (Victim (replacer_ b)) = Some 0 /\
   is_dirty_ (page_at 0 b 0) = true) /\
  r = Some 0 /\
  write_log (disk_manager_ b') = [(0, 7)] /\
  frame_of b' 0 = None /\
  frame_of b' 1 = Some 0 /\
  data_ (page_at 0 b' 0) = ReadPage 0 (disk_manager_ b') 1 /\
  pin_count_ (page_at 0 b' 0) = 1 /\
  is_dirty_ (page_at 0 b' 0) = true /\
  let b2 := run_pool [OpNewPage; OpFetchPage 0; OpUnpinPage 0 false] (fresh_pool 1) in
  pin_count_ (page_at 0 (snd (FetchPageImpl 0 1 b2)) 0) = 2.
Proof. vm_compute. repeat split. Qed.

(** ** The tree over the pool: scenarios *)

(** C3 (the code does not do this).  A duplicate-key [Insert] returns
    [false] without unpinning the leaf it fetched, [Remove] never unpins the
    leaf it fetched, and the leaf a split allocates (page 2 below) is never
    unpinned: each leaves a page with pin count 1 after the operation has
    returned.  [GetValue], for comparison, leaves the leaf at 0. *)
Theorem duplicate_insert_and_remove_leave_leaf_pinned :
  outputs_of 10 [OpInsert 1 10; OpInsert 1 11] (test_tree 10 4 4)
    = Some [Inserted true; Inserted false] /\
  pin_count_after 10 [OpInsert 1 10] (test_tree 10 4 4) 1 = Some 0 /\
  pin_count_after 10 [OpInsert 1 10; OpInsert 1 11] (test_tree 10 4 4) 1 = Some 1 /\
  pin_count_after 10 [OpInsert 1 10; OpInsert 2 20; OpRemove 2] (test_tree 10 4 4) 1 = Some 1 /\
  pin_count_after 10 [OpInsert 1 10; OpInsert 2 20; OpInsert 3 30; OpInsert 4 40]
    (test_tree 10 4 4) 2 = Some 1 /\
  pin_count_after 10 [OpInsert 1 10; OpGetValue 1] (test_tree 10 4 4) 1 = Some 0.
Proof. vm_compute. repeat split. Qed.

(** C6 (the code does not do this).  With leaf and internal capacity 3:
    insert 1..5, remove 1 and 3 (the second removal coalesces two internal
    pages and collapses the root), then insert 6.  The insert succeeds, and
    the lookup of 6 right after it finds nothing; key 5, never removed, is
    gone as well.  After the two removals the root (page 3) has the leaf
    page 4 as its child at slot 1, while the header of page 4 still names the
    emptied page 6 as its parent.  With capacity 4 (scenario S5 of the
    spec): insert 1..10 and remove 1, 2, 3; key 5, never removed, is not
    found, and inserting it a second time returns [true]. *)
Theorem insert_then_get_misses_after_internal_coalesce :
  outputs_of 10
    [OpInsert 1 10; OpInsert 2 20; OpInsert 3 30; OpInsert 4 40; OpInsert 5 50;
     OpRemove 1; OpRemove 3; OpInsert 6 60; OpGetValue 6; OpGetValue 5]
    (test_tree 50 3 3)
  = Some [Inserted true; Inserted true; Inserted true; Inserted true; Inserted true;
          Removed; Removed; Inserted true; Got None; Got None] /\
  match state_after 10
          [OpInsert 1 10; OpInsert 2 20; OpInsert 3 30; OpInsert 4 40; OpInsert 5 50;
           OpRemove 1; OpRemove 3] (test_tree 50 3 3) with
  | Some t =>
      root_page_id_ t = 3 /\
      (exists root, page_data_of Zeroed (buffer_pool_manager_ t) 3 = Some (InternalData root) /\
                    isize root = 2 /\ ValueAt 0 root 1 = 4) /\
      tree_hdr_of t 4 = Some (mkHdr 2 3 6 4) /\
      tree_hdr_of t 6 = Some (mkHdr 0 3 7 6)
  | None => False
  end /\
  outputs_of 10
    [OpInsert 1 10; OpInsert 2 20; OpInsert 3 30; OpInsert 4 40; OpInsert 5 50;
     OpInsert 6 60; OpInsert 7 70; OpInsert 8 80; OpInsert 9 90; OpInsert 10 100;
     OpGetValue 5; OpRemove 1; OpRemove 2; OpRemove 3; OpGetValue 5; OpInsert 5 51]
    (test_tree 50 4 4)
  = Some [Inserted true; Inserted true; Inserted true; Inserted true; Inserted true;
          Inserted true; Inserted true; Inserted true; Inserted true; Inserted true;
          Got (Some 50); Removed; Removed; Removed; Got None; Inserted true].
Proof.
  vm_compute. split; [reflexivity|]. split; [|reflexivity].
  split; [reflexivity|]. split; [|split; reflexivity].
  eexists. split; [reflexivity|]. split; reflexivity.
Qed.

(** C9 (the code does not do all of this).  With leaf and internal capacity
    3, after inserting 1..5 and removing 1 the root is the internal page 7
    with two children; removing 3 coalesces its children and leaves it with
    the single child 3.  [AdjustRoot] makes page 3 the root and sets its
    parent to [INVALID_PAGE_ID] -- and the old root's page is not freed: it
    stays in the page table, still pinned, and nothing was deallocated on
    disk. *)
Theorem root_collapse_leaves_old_root_page_allocated :
  let before := [OpInsert 1 10; OpInsert 2 20; OpInsert 3 30; OpInsert 4 40; OpInsert 5 50;
                 OpRemove 1] in
  match state_after 10 before (test_tree 50 3 3),
        state_after 10 (before ++ [OpRemove 3]) (test_tree 50 3 3) with
  | Some t0, Some t =>
      root_page_id_ t0 = 7 /\
      tree_hdr_of t0 7 = Some (mkHdr 2 3 INVALID_PAGE_ID 7) /\
      root_page_id_ t = 3 /\
      tree_hdr_of t 3 = Some (mkHdr 2 3 INVALID_PAGE_ID 3) /\
      tree_hdr_of t 7 = Some (mkHdr 1 3 INVALID_PAGE_ID 7) /\
      pin_count_of Zeroed (buffer_pool_manager_ t) 7 = Some 2 /\
      deallocated (disk_manager_ (buffer_pool_manager_ t)) = [] /\
      free_list_ (buffer_pool_manager_ t) = free_list_ (buffer_pool_manager_ t0)
  | _, _ => False
  end.
Proof. vm_compute. repeat split. Qed.

(** ** Stepping through monadic code *)

Lemma bind_Ok {S A B} (m : M S A) (k : A -> M S B) (s s' : S) (a : A) :
  m s = Ok a s' -> (m ≫= k) s = k a s'.
Proof. intros H. unfold mbind, M_bind. rewrite H. reflexivity. Qed.

Lemma ret_Ok {S A} (a : A) (s : S) : (mret a : M S A) s = Ok a s.
Proof. reflexivity. Qed.

Lemma liftB_Ok {K V A} (m : M (BufferPoolManager (PageData K V)) A) (t : BPlusTree K V) a b :
  m (buffer_pool_manager_ t) = Ok a b -> liftB m t = Ok a (set_bpm b t).
Proof. intros H. unfold liftB. rewrite H. reflexivity. Qed.

(** ** The iterator *)

Section IteratorFacts.
Context {KeyType ValueType : Type}.
Abbreviation TPool := (BufferPoolManager (PageData KeyType ValueType)).

Lemma GetPageId_leaf (b : TPool) leaf l :
  data_ (page_at Zeroed b leaf) = LeafData l ->
  GetPageId leaf b = Ok (tree_page_id_ (leaf_hdr l)) b.
Proof.
  intros Hd. unfold GetPageId, as_tree, GetData, gets, mbind, M_bind, mret, M_ret.
  rewrite Hd. reflexivity.
Qed.

Lemma as_leaf_leaf (b : TPool) leaf l :
  data_ (page_at Zeroed b leaf) = LeafData l -> as_leaf leaf b = Ok l b.
Proof.
  intros Hd. unfold as_leaf, GetData, gets, mbind, M_bind, mret, M_ret.
  rewrite Hd. reflexivity.
Qed.

(** C10.  An iterator that holds a pinned leaf unpins it with the dirty flag
    set, both when it is destroyed and when [operator++] leaves the leaf for
    the next one; neither touches the leaf's bytes.  The unpin leaves the
    frame's dirty flag set.  As long as the frame holds what the iterator
    left in it (no later call has pinned, unpinned or rewritten it), the
    eviction of the frame by [NewPageImpl] or [FetchPageImpl] writes the
    leaf's bytes to disk under the leaf's page id. *)
Theorem iterator_unpins_held_leaf_as_dirty (b : TPool) (it : IndexIterator)
    (leaf f : frame_id_t) (l : LeafPage KeyType ValueType) :
  leaf_page_ it = Some leaf ->
  data_ (page_at Zeroed b leaf) = LeafData l ->
  page_table_ b !! tree_page_id_ (leaf_hdr l) = Some f ->
  frame_ok b f ->
  0 < pin_count_ (page_at Zeroed b f) ->
  exists b1,
    UnpinPageImpl Zeroed (tree_page_id_ (leaf_hdr l)) true b = (true, b1) /\
    IndexIterator_destroy it b = Ok tt b1 /\
    ((next_page_id_' l =? INVALID_PAGE_ID) && (index_ it =? lsize l - 1) = false ->
     lsize l - 1 <= index_ it ->
     advance it b =
       (page ← WrapFetchPage (next_page_id_' l); mret (mkIter 0 (Some page))) b1) /\
    is_dirty_ (page_at Zeroed b1 f) = true /\
    data_ (page_at Zeroed b1 f) = data_ (page_at Zeroed b f) /\
    page_id_ (page_at Zeroed b1 f) = page_id_ (page_at Zeroed b f) /\
    frame_ok b1 f /\
    (forall (b2 : TPool) r,
       page_at Zeroed b2 f = page_at Zeroed b1 f -> frame_ok b2 f ->
       free_list_ b2 = [] -> Victim (replacer_ b2) = (Some f, r) ->
       let written := (page_id_ (page_at Zeroed b f), data_ (page_at Zeroed b f)) in
       write_log (disk_manager_ (snd (NewPageImpl Zeroed b2)))
         = written :: write_log (disk_manager_ b2) /\
       forall page_id, page_table_ b2 !! page_id = None ->
         write_log (disk_manager_ (snd (FetchPageImpl Zeroed page_id b2)))
           = written :: write_log (disk_manager_ b2)).
Proof.
  intros Hit Hd Hpt Hok Hpin.
  destruct (UnpinPageImpl_pinned Zeroed b (tree_page_id_ (leaf_hdr l)) true f Hpt Hok Hpin)
    as (b1 & Hun & Hdirty & _ & Hdata & _).
  assert (Hpid : page_id_ (page_at Zeroed b1 f) = page_id_ (page_at Zeroed b f) /\
                 frame_ok b1 f).
  { assert (Hb1 : b1 = snd (UnpinPageImpl Zeroed (tree_page_id_ (leaf_hdr l)) true b))
      by (rewrite Hun; reflexivity).
    rewrite Hb1. unfold UnpinPageImpl. unfold frame_id_t, page_id_t in *. rewrite Hpt.
    destruct (Z.leb_spec (pin_count_ (page_at Zeroed b f)) 0) as [|_]; [lia|].
    cbv zeta. cbn [snd]. split.
    - change (page_id_ (page_at Zeroed
                (set_page f (set_pin_count (pin_count_ (set_is_dirty true (page_at Zeroed b f)) - 1)
                                (set_is_dirty true (page_at Zeroed b f))) b) f)
              = page_id_ (page_at Zeroed b f)).
      rewrite page_at_set_page_eq by exact Hok. reflexivity.
    - apply frame_ok_set_page. exact Hok. }
  destruct Hpid as [Hpid Hok1].
  exists b1. split; [exact Hun|].
  split; [|split; [|split; [exact Hdirty|split; [exact Hdata|split; [exact Hpid|split; [exact Hok1|]]]]]].
  - unfold IndexIterator_destroy. rewrite Hit.
    rewrite (bind_Ok _ _ _ _ _ (GetPageId_leaf b leaf l Hd)).
    assert (Hu : UnpinPage (tree_page_id_ (leaf_hdr l)) true b = Ok true b1)
      by (unfold UnpinPage, run_pair; rewrite Hun; reflexivity).
    rewrite (bind_Ok _ _ _ _ _ Hu). reflexivity.
  - intros Hend Hidx. unfold advance, isEnd. rewrite Hit.
    assert (He : (l0 ← as_leaf leaf;
                  mret ((next_page_id_' l0 =? INVALID_PAGE_ID) && (index_ it =? lsize l0 - 1))) b
                 = Ok false b).
    { rewrite (bind_Ok _ _ _ _ _ (as_leaf_leaf b leaf l Hd)). rewrite Hend. reflexivity. }
    rewrite (bind_Ok _ _ _ _ _ He).
    rewrite (bind_Ok _ _ _ _ _ (as_leaf_leaf b leaf l Hd)).
    destruct (Z.ltb_spec (index_ it) (lsize l - 1)) as [|_]; [lia|].
    rewrite (bind_Ok _ _ _ _ _ (GetPageId_leaf b leaf l Hd)).
    assert (Hu : UnpinPage (tree_page_id_ (leaf_hdr l)) true b = Ok true b1)
      by (unfold UnpinPage, run_pair; rewrite Hun; reflexivity).
    rewrite (bind_Ok _ _ _ _ _ Hu). reflexivity.
  - intros b2 r Hsame Hok2 Hfl Hv written.
    assert (Hd2 : is_dirty_ (page_at Zeroed b2 f) = true) by (rewrite Hsame; exact Hdirty).
    assert (Hw : (page_id_ (page_at Zeroed b2 f), data_ (page_at Zeroed b2 f)) = written).
    { unfold written. rewrite Hsame, Hpid, Hdata. reflexivity. }
    rewrite <- Hw. split.
    + apply (NewPageImpl_evicts Zeroed b2 f r Hfl Hv Hok2 Hd2).
    + intros page_id Hnone.
      destruct (FetchPageImpl_evicts Zeroed b2 page_id f r Hnone Hfl Hv Hok2)
        as (b' & Hf & Hdisk & _).
      rewrite Hf. simpl. rewrite Hdisk, Hd2. reflexivity.
Qed.

End IteratorFacts.

(** ** Allocation and the leaf split *)

Section AllocationFacts.
Context {Data : Type} (zero : Data).
Implicit Types (b : BufferPoolManager Data).

Lemma data_write_data_eq b f d :
  frame_ok b f -> data_ (page_at zero (write_data zero f d b) f) = d.
Proof.
  intros Hok. unfold write_data. rewrite page_at_set_page_eq by exact Hok. reflexivity.
Qed.

Lemma page_at_write_data_ne b f g d :
  0 <= f -> 0 <= g -> f <> g -> page_at zero (write_data zero f d b) g = page_at zero b g.
Proof. intros. unfold write_data. apply page_at_set_page_ne; assumption. Qed.

Lemma frame_ok_write_data b f d g : frame_ok (write_data zero f d b) g <-> frame_ok b g.
Proof. unfold write_data. apply frame_ok_set_page. Qed.

(** A pool in good order with a free frame or an eviction candidate hands
    out a zeroed frame for the next page id of the disk manager and leaves
    every other frame as it was. *)
Lemma NewPageImpl_hands_out b :
  pool_ok zero b ->
  free_list_ b <> [] \/ frame_ids (replacer_ b) <> [] ->
  exists f b',
    NewPageImpl zero b = (Some (f, next_page_id_ (disk_manager_ b)), b') /\
    (f ∈ free_list_ b \/ f ∈ frame_ids (replacer_ b)) /\
    frame_ok b f /\
    length (pages_ b') = length (pages_ b) /\
    data_ (page_at zero b' f) = zero /\
    page_table_ b' !! next_page_id_ (disk_manager_ b) = Some f /\
    (forall g, 0 <= g -> g <> f -> page_at zero b' g = page_at zero b g).
Proof.
  intros (Hwf & Hfree & Hrep) Hsome.
  destruct b as [sz ps pt fl rp dm]. simpl in *.
  unfold NewPageImpl; simpl.
  destruct fl as [|f rest].
  - (* the free list is empty: evict *)
    destruct Hsome as [Hn|Hn]; [congruence|].
    destruct (list_snoc_cases (frame_ids rp)) as [He|(l & v & He)]; [congruence|].
    pose proof Hwf as (Hm & Hc & Hle & Hnd).
    assert (Hsz : (Size rp =? 0) = false).
    { unfold Size. apply Z.eqb_neq. rewrite Hc, He, length_app. simpl. lia. }
    rewrite Hsz. simpl. rewrite (Victim_snoc rp l v Hwf He). simpl.
    assert (Hv : frame_ok (mkBPM sz ps pt [] rp dm) v).
    { rewrite Forall_forall in Hrep. apply Hrep. rewrite He. apply elem_of_app. right. left. }
    pose proof Hv as [Hv0 Hvlt]. simpl in Hvlt.
    eexists. eexists. split; [reflexivity|].
    split; [right; rewrite He; apply elem_of_app; right; left|].
    split; [exact Hv|].
    split; [destruct (is_dirty_ _); simpl; apply length_insert|].
    split; [|split].
    + destruct (is_dirty_ _); unfold page_at; simpl;
        rewrite list_lookup_insert_eq by lia; reflexivity.
    + destruct (is_dirty_ _); simpl; apply lookup_insert_eq.
    + intros g Hg Hne. destruct (is_dirty_ _); unfold page_at; simpl;
        rewrite list_lookup_insert_ne by lia; reflexivity.
  - (* a free frame *)
    simpl.
    apply Forall_cons in Hfree. destruct Hfree as ((Hf & Hzero) & _).
    pose proof Hf as [Hf0 Hflt]. simpl in Hflt.
    eexists. eexists. split; [reflexivity|].
    split; [left; left|].
    split; [exact Hf|].
    split; [simpl; apply length_insert|].
    split; [|split].
    + unfold page_at in *; simpl in *.
      rewrite list_lookup_insert_eq by lia. simpl. exact Hzero.
    + simpl. apply lookup_insert_eq.
    + intros g Hg Hne. unfold page_at; simpl.
      rewrite list_lookup_insert_ne by lia. reflexivity.
Qed.

End AllocationFacts.

(** ** The pool's bookkeeping is kept *)

Lemma Victim_some r v r' :
  lru_wf r -> Victim r = (Some v, r') ->
  v ∈ frame_ids r /\ (v ∉ frame_ids r') /\ lru_wf r' /\
  (forall g, (g ∈ frame_ids r') -> g ∈ frame_ids r).
Proof.
  intros Hwf Hv. pose proof (Victim_wf r Hwf) as Hwf'.
  destruct (list_snoc_cases (frame_ids r)) as [He|(l & x & He)].
  - rewrite (Victim_empty r Hwf He) in Hv. discriminate.
  - rewrite (Victim_snoc r l x Hwf He) in Hv, Hwf'. injection Hv as <- <-. simpl in *.
    destruct Hwf as (_ & _ & _ & Hnd). rewrite He in Hnd |- *.
    apply NoDup_app in Hnd. destruct Hnd as (_ & Hd & _).
    split; [apply elem_of_app; right; left|].
    split; [intros Hin; apply (Hd x Hin); left|].
    split; [exact Hwf'|].
    intros g Hg. apply elem_of_app. left. exact Hg.
Qed.

Lemma Victim_none r : Victim r = (None, snd (Victim r)) -> snd (Victim r) = r.
Proof.
  unfold Victim. destruct (cur_pages r =? 0); [reflexivity | discriminate].
Qed.

Lemma Pin_members r f g :
  lru_wf r -> g ∈ frame_ids (Pin r f) -> g ∈ frame_ids r /\ g <> f.
Proof.
  intros Hwf Hg. destruct (decide (f ∈ frame_ids r)) as [Hin|Hn].
  - apply list_elem_of_split in Hin. destruct Hin as (l1 & l2 & He).
    rewrite (Pin_present r f l1 l2 Hwf He) in Hg. simpl in Hg.
    destruct Hwf as (_ & _ & _ & Hnd). rewrite He in Hnd |- *.
    apply NoDup_app in Hnd. destruct Hnd as (_ & Hd & Hnd2).
    apply NoDup_cons in Hnd2. destruct Hnd2 as [Hf2 _].
    apply elem_of_app in Hg. destruct Hg as [Hg|Hg].
    + split; [apply elem_of_app; left; exact Hg|].
      intros ->. apply (Hd f Hg). left.
    + split; [apply elem_of_app; right; right; exact Hg|].
      intros ->. contradiction.
  - rewrite (Pin_absent r f Hn) in Hg. split; [exact Hg|]. intros ->. contradiction.
Qed.

Lemma Unpin_members r f g :
  lru_wf r -> g ∈ frame_ids (Unpin r f) -> g = f \/ g ∈ frame_ids r.
Proof.
  intros Hwf Hg. destruct (decide (f ∈ frame_ids r)) as [Hin|Hn].
  - rewrite (Unpin_present r f Hin) in Hg. right. exact Hg.
  - destruct (Z.eq_dec (cur_pages r) (max_pages r)) as [Heq|Hne].
    + rewrite (Unpin_full r f Hwf Hn Heq) in Hg. simpl in Hg.
      apply elem_of_cons in Hg. destruct Hg as [->|Hg]; [left; reflexivity|right].
      destruct (list_snoc_cases (frame_ids r)) as [He|(l & x & He)].
      * rewrite He in Hg. simpl in Hg. inversion Hg.
      * rewrite He in Hg |- *. rewrite removelast_snoc in Hg.
        apply elem_of_app. left. exact Hg.
    + rewrite (Unpin_room r f Hwf Hn Hne) in Hg. simpl in Hg.
      apply elem_of_cons in Hg. tauto.
Qed.

Section PoolInvariant.
Context {Data : Type} (zero : Data).
Implicit Types (b : BufferPoolManager Data).

Lemma pool_inv_ok b : pool_inv zero b -> pool_ok zero b.
Proof.
  intros (Hwf & Hnd & Hfree & Hrep & Htab). split; [exact Hwf|]. split.
  - apply Forall_forall. exact Hfree.
  - apply Forall_forall. intros f Hf. apply (Htab _ _ (Hrep f Hf)).
Qed.

(** Reading a frame after one frame of the array was stored. *)
Lemma page_at_stored b f g p pt fl rp dm :
  frame_ok b f -> 0 <= g ->
  page_at zero (mkBPM (pool_size_ b) (<[Z.to_nat f := p]> (pages_ b)) pt fl rp dm) g
  = if decide (g = f) then p else page_at zero b g.
Proof.
  intros [Hf0 Hflt] Hg. unfold page_at; simpl.
  destruct (decide (g = f)) as [->|Hne].
  - rewrite list_lookup_insert_eq by lia. reflexivity.
  - rewrite list_lookup_insert_ne by lia. reflexivity.
Qed.

Lemma pool_inv_new pool_size dm :
  0 < pool_size < 2 ^ 64 -> pool_inv zero (BufferPoolManager_new zero pool_size dm).
Proof.
  intros Hn. unfold pool_inv, BufferPoolManager_new; simpl.
  split; [apply LRUReplacer_new_wf; exact Hn|].
  split; [apply (NoDup_fmap_2 Z.of_nat), NoDup_seq|].
  split; [|split].
  - intros f Hf. apply list_elem_of_fmap in Hf. destruct Hf as (k & -> & Hk).
    apply elem_of_seq in Hk. unfold frame_ok, page_at; simpl.
    rewrite length_replicate, Nat2Z.id, lookup_replicate_2 by lia.
    split; [lia | reflexivity].
  - intros f Hf. inversion Hf.
  - intros page_id f Hf. rewrite lookup_empty in Hf. discriminate.
Qed.

Lemma pool_inv_write_data b f d page_id :
  pool_inv zero b -> page_table_ b !! page_id = Some f ->
  pool_inv zero (write_data zero f d b).
Proof.
  intros (Hwf & Hnd & Hfree & Hrep & Htab) Hf.
  destruct (Htab _ _ Hf) as (Hok & Hnf & Hid & _).
  assert (Hpg : forall g, 0 <= g ->
            page_at zero (write_data zero f d b) g
            = if decide (g = f) then set_data d (page_at zero b f) else page_at zero b g).
  { intros g Hg. unfold write_data, set_page. apply page_at_stored; assumption. }
  assert (Hfo : forall g, frame_ok (write_data zero f d b) g <-> frame_ok b g)
    by (intros g; apply frame_ok_write_data).
  unfold pool_inv. change (replacer_ (write_data zero f d b)) with (replacer_ b).
  change (free_list_ (write_data zero f d b)) with (free_list_ b).
  change (page_table_ (write_data zero f d b)) with (page_table_ b).
  change (disk_manager_ (write_data zero f d b)) with (disk_manager_ b).
  split; [exact Hwf|]. split; [exact Hnd|]. split; [|split].
  - intros g Hg. destruct (Hfree g Hg) as [Hgo Hgz]. rewrite Hfo.
    split; [exact Hgo|]. rewrite Hpg by apply Hgo.
    case_decide; [subst g; contradiction | exact Hgz].
  - intros g Hg. unfold resident.
    change (page_table_ (write_data zero f d b)) with (page_table_ b).
    pose proof (Hrep g Hg) as Hres. unfold resident in Hres.
    destruct (Htab _ _ Hres) as (Hgo & _).
    rewrite Hpg by apply Hgo. case_decide; [subst g|]; exact Hres.
  - intros pid g Hg. destruct (Htab _ _ Hg) as (Hgo & Hgn & Hgi & Hlt).
    rewrite Hfo. split; [exact Hgo|]. split; [exact Hgn|]. split; [|exact Hlt].
    rewrite Hpg by apply Hgo. case_decide; [subst g|]; exact Hgi.
Qed.

Lemma pool_inv_FlushPageImpl b page_id :
  pool_inv zero b -> pool_inv zero (snd (FlushPageImpl zero page_id b)).
Proof.
  intros Hinv. unfold FlushPageImpl.
  destruct (page_table_ b !! page_id) as [f|]; [|exact Hinv]. exact Hinv.
Qed.

Lemma pool_inv_UnpinPageImpl b page_id is_dirty :
  pool_inv zero b -> pool_inv zero (snd (UnpinPageImpl zero page_id is_dirty b)).
Proof.
  intros Hinv. pose proof Hinv as (Hwf & Hnd & Hfree & Hrep & Htab).
  unfold UnpinPageImpl.
  destruct (page_table_ b !! page_id) as [f|] eqn:Hf; [|exact Hinv].
  destruct (pin_count_ (page_at zero b f) <=? 0); [exact Hinv|].
  destruct (Htab _ _ Hf) as (Hok & Hnf & Hid & Hlt).
  set (p := set_pin_count (pin_count_ (set_is_dirty is_dirty (page_at zero b f)) - 1)
              (set_is_dirty is_dirty (page_at zero b f))).
  assert (Hpg : forall g, 0 <= g ->
            page_at zero (set_replacer (Unpin (replacer_ b) f) (set_page f p b)) g
            = if decide (g = f) then p else page_at zero b g).
  { intros g Hg. unfold set_replacer, set_page; simpl. apply page_at_stored; assumption. }
  assert (Hfo : forall g, frame_ok (set_replacer (Unpin (replacer_ b) f) (set_page f p b)) g
                          <-> frame_ok b g).
  { intros g. unfold frame_ok; simpl. rewrite length_insert. reflexivity. }
  simpl. unfold pool_inv; simpl.
  split; [apply Unpin_wf; exact Hwf|]. split; [exact Hnd|]. split; [|split].
  - intros g Hg. destruct (Hfree g Hg) as [Hgo Hgz]. rewrite Hfo.
    split; [exact Hgo|]. rewrite Hpg by apply Hgo.
    case_decide; [subst g; contradiction | exact Hgz].
  - intros g Hg. unfold resident; simpl.
    assert (Hres : resident zero b g).
    { apply Unpin_members in Hg; [|exact Hwf]. destruct Hg as [->|Hg].
      - unfold resident. rewrite Hid. exact Hf.
      - apply Hrep. exact Hg. }
    unfold resident in Hres. destruct (Htab _ _ Hres) as (Hgo & _).
    rewrite Hpg by apply Hgo. case_decide; [subst g|]; exact Hres.
  - intros pid g Hg. destruct (Htab _ _ Hg) as (Hgo & Hgn & Hgi & Hglt).
    rewrite Hfo. split; [exact Hgo|]. split; [exact Hgn|]. split; [|exact Hglt].
    rewrite Hpg by apply Hgo. case_decide; [subst g|]; exact Hgi.
Qed.

(** Installing a page in frame [v]: the frame's page is replaced, the page
    table loses the entries naming [v] and gains [page_id -> v], the free
    list and the replacer shrink to frames other than [v]. *)
Lemma pool_inv_install b v p page_id pt' fl' r' dm' :
  pool_inv zero b -> frame_ok b v ->
  page_id_ p = page_id ->
  page_id < next_page_id_ dm' ->
  next_page_id_ (disk_manager_ b) <= next_page_id_ dm' ->
  page_table_ b !! page_id = None ->
  lru_wf r' ->
  (forall g, (g ∈ frame_ids r') -> g ∈ frame_ids (replacer_ b) /\ g <> v) ->
  NoDup fl' ->
  (forall g, (g ∈ fl') -> g ∈ free_list_ b /\ g <> v) ->
  (forall k g, pt' !! k = Some g <->
     (k = page_id /\ g = v) \/ (k <> page_id /\ page_table_ b !! k = Some g /\ g <> v)) ->
  pool_inv zero (mkBPM (pool_size_ b) (<[Z.to_nat v := p]> (pages_ b)) pt' fl' r' dm').
Proof.
  intros (Hwf & Hnd & Hfree & Hrep & Htab) Hv Hp Hlt Hmono Hnone Hwf' Hr' Hnd' Hfl' Hpt'.
  unfold frame_id_t, page_id_t in *.
  set (b' := mkBPM (pool_size_ b) (<[Z.to_nat v := p]> (pages_ b)) pt' fl' r' dm').
  assert (Hpg : forall g, 0 <= g ->
            page_at zero b' g = if decide (g = v) then p else page_at zero b g)
    by (intros g Hg; apply page_at_stored; assumption).
  assert (Hfo : forall g, frame_ok b' g <-> frame_ok b g).
  { intros g. unfold frame_ok; simpl. rewrite length_insert. reflexivity. }
  unfold pool_inv. simpl.
  split; [exact Hwf'|]. split; [exact Hnd'|]. split; [|split].
  - intros g Hg. destruct (Hfl' g Hg) as [Hg0 Hgv].
    destruct (Hfree g Hg0) as [Hgo Hgz]. rewrite Hfo. split; [exact Hgo|].
    rewrite Hpg by apply Hgo. case_decide; [contradiction | exact Hgz].
  - intros g Hg. destruct (Hr' g Hg) as [Hg0 Hgv].
    pose proof (Hrep g Hg0) as Hres. unfold resident in Hres |- *. simpl.
    destruct (Htab _ _ Hres) as (Hgo & _).
    rewrite Hpg by apply Hgo. case_decide; [contradiction|].
    apply Hpt'. right. split; [|split; [exact Hres | exact Hgv]].
    intros Heq. unfold frame_id_t, page_id_t in Hres. rewrite Heq, Hnone in Hres.
    discriminate.
  - intros k g Hg. apply Hpt' in Hg. destruct Hg as [[-> ->]|(Hk & Hg & Hgv)].
    + rewrite Hfo. split; [exact Hv|]. split; [intros Hin; apply (Hfl' v Hin); reflexivity|].
      split; [|exact Hlt]. rewrite Hpg by apply Hv. case_decide; [exact Hp | contradiction].
    + destruct (Htab _ _ Hg) as (Hgo & Hgn & Hgi & Hglt).
      rewrite Hfo. split; [exact Hgo|].
      split; [intros Hin; apply Hgn, (Hfl' g Hin)|].
      split; [|lia]. rewrite Hpg by apply Hgo. case_decide; [contradiction | exact Hgi].
Qed.

(** Rewriting the page of a frame the page table names, keeping its id. *)
Lemma pool_inv_touch b f p page_id r' :
  pool_inv zero b -> page_table_ b !! page_id = Some f ->
  page_id_ p = page_id ->
  lru_wf r' ->
  (forall g, (g ∈ frame_ids r') -> g = f \/ g ∈ frame_ids (replacer_ b)) ->
  pool_inv zero (mkBPM (pool_size_ b) (<[Z.to_nat f := p]> (pages_ b)) (page_table_ b)
                       (free_list_ b) r' (disk_manager_ b)).
Proof.
  intros (Hwf & Hnd & Hfree & Hrep & Htab) Hf Hp Hwf' Hr'.
  destruct (Htab _ _ Hf) as (Hok & Hnf & Hid & Hlt).
  set (b' := mkBPM (pool_size_ b) (<[Z.to_nat f := p]> (pages_ b)) (page_table_ b)
                   (free_list_ b) r' (disk_manager_ b)).
  assert (Hpg : forall g, 0 <= g ->
            page_at zero b' g = if decide (g = f) then p else page_at zero b g)
    by (intros g Hg; apply page_at_stored; assumption).
  assert (Hfo : forall g, frame_ok b' g <-> frame_ok b g).
  { intros g. unfold frame_ok; simpl. rewrite length_insert. reflexivity. }
  unfold pool_inv. simpl.
  split; [exact Hwf'|]. split; [exact Hnd|]. split; [|split].
  - intros g Hg. destruct (Hfree g Hg) as [Hgo Hgz]. rewrite Hfo.
    split; [exact Hgo|]. rewrite Hpg by apply Hgo.
    case_decide; [subst g; contradiction | exact Hgz].
  - intros g Hg. unfold resident; simpl.
    assert (Hres : resident zero b g).
    { destruct (Hr' g Hg) as [->|Hg'].
      - unfold resident. rewrite Hid. exact Hf.
      - apply Hrep. exact Hg'. }
    unfold resident in Hres. destruct (Htab _ _ Hres) as (Hgo & _).
    rewrite Hpg by apply Hgo. case_decide; [subst g|]; [|exact Hres].
    rewrite Hp. exact Hf.
  - intros pid g Hg. destruct (Htab _ _ Hg) as (Hgo & Hgn & Hgi & Hglt).
    rewrite Hfo. split; [exact Hgo|]. split; [exact Hgn|]. split; [|exact Hglt].
    rewrite Hpg by apply Hgo. case_decide; [subst g|]; [|exact Hgi].
    rewrite Hp. rewrite <- Hid. exact Hgi.
Qed.

(** The page table after a victim's entry is erased and the new page's entry
    is stored. *)
Lemma page_table_replaced b v page_id k g :
  pool_inv zero b -> resident zero b v ->
  page_table_ b !! page_id = None ->
  <[page_id := v]> (delete (page_id_ (page_at zero b v)) (page_table_ b)) !! k = Some g <->
  (k = page_id /\ g = v) \/ (k <> page_id /\ page_table_ b !! k = Some g /\ g <> v).
Proof.
  intros (Hwf & Hnd & Hfree & Hrep & Htab) Hres Hnone. unfold resident in Hres.
  unfold frame_id_t, page_id_t in *.
  destruct (decide (k = page_id)) as [->|Hk].
  - rewrite lookup_insert_eq. split.
    + intros [= <-]. left. split; reflexivity.
    + intros [[_ ->]|[Hc _]]; [reflexivity | contradiction].
  - rewrite lookup_insert_ne by congruence.
    destruct (decide (k = page_id_ (page_at zero b v))) as [->|Hkv].
    + rewrite lookup_delete_eq. split; [discriminate|].
      intros [[Hc _]|(_ & Hg & Hgv)]; [contradiction|].
      rewrite Hres in Hg. congruence.
    + rewrite lookup_delete_ne by congruence. split.
      * intros Hg. right. split; [exact Hk|]. split; [exact Hg|].
        intros ->. destruct (Htab _ _ Hg) as (_ & _ & Hgi & _). congruence.
      * intros [[Hc _]|(_ & Hg & _)]; [contradiction | exact Hg].
Qed.

(** The page table after a free frame receives a page. *)
Lemma page_table_extended b v page_id k g :
  pool_inv zero b -> (v ∈ free_list_ b) ->
  <[page_id := v]> (page_table_ b) !! k = Some g <->
  (k = page_id /\ g = v) \/ (k <> page_id /\ page_table_ b !! k = Some g /\ g <> v).
Proof.
  intros (Hwf & Hnd & Hfree & Hrep & Htab) Hv.
  unfold frame_id_t, page_id_t in *.
  destruct (decide (k = page_id)) as [->|Hk].
  - rewrite lookup_insert_eq. split.
    + intros [= <-]. left. split; reflexivity.
    + intros [[_ ->]|[Hc _]]; [reflexivity | contradiction].
  - rewrite lookup_insert_ne by congruence. split.
    + intros Hg. right. split; [exact Hk|]. split; [exact Hg|].
      intros ->. destruct (Htab _ _ Hg) as (_ & Hgn & _). contradiction.
    + intros [[Hc _]|(_ & Hg & _)]; [contradiction | exact Hg].
Qed.

Lemma pool_inv_FetchPageImpl b page_id :
  pool_inv zero b -> page_id < next_page_id_ (disk_manager_ b) ->
  pool_inv zero (snd (FetchPageImpl zero page_id b)).
Proof.
  intros Hinv Hlt. pose proof Hinv as (Hwf & Hnd & Hfree & Hrep & Htab).
  unfold FetchPageImpl. unfold frame_id_t, page_id_t in *.
  destruct (page_table_ b !! page_id) as [f|] eqn:Hf.
  - simpl. apply (pool_inv_touch b f _ page_id); try assumption.
    + simpl. apply (Htab _ _ Hf).
    + apply Pin_wf. exact Hwf.
    + intros g Hg. right. apply (Pin_members _ f g Hwf Hg).
  - destruct (free_list_ b) as [|f rest] eqn:Hfl;
      clear Hwf Hnd Hfree Hrep Htab; pose proof Hinv as (Hwf & Hnd & Hfree & Hrep & Htab).
    + destruct (Victim (replacer_ b)) as [[v|] r'] eqn:Hv; [|exact Hinv].
      destruct (Victim_some _ _ _ Hwf Hv) as (Hvin & Hvn & Hwf' & Hsub).
      pose proof (Hrep v Hvin) as Hres.
      assert (Hvok : frame_ok b v) by apply (Htab _ _ Hres).
      change (page_at zero (set_replacer r' b) v) with (page_at zero b v).
      destruct (is_dirty_ (page_at zero b v));
        unfold set_replacer, set_page, set_page_table, set_disk; simpl.
      * apply (pool_inv_install b v _ page_id); try assumption; try reflexivity; try (simpl; lia).
        -- apply Pin_wf. exact Hwf'.
        -- intros g Hg. destruct (Pin_members _ v g Hwf' Hg) as [Hg' Hgv].
           split; [apply Hsub; exact Hg' | exact Hgv].
        -- intros g Hg. rewrite Hfl in Hg. inversion Hg.
        -- intros k g. apply page_table_replaced; assumption.
      * apply (pool_inv_install b v _ page_id); try assumption; try reflexivity; try (simpl; lia).
        -- apply Pin_wf. exact Hwf'.
        -- intros g Hg. destruct (Pin_members _ v g Hwf' Hg) as [Hg' Hgv].
           split; [apply Hsub; exact Hg' | exact Hgv].
        -- intros g Hg. rewrite Hfl in Hg. inversion Hg.
        -- intros k g. apply page_table_replaced; assumption.
    + assert (Hfin : f ∈ free_list_ b) by (rewrite Hfl; left).
      rewrite Hfl in Hnd. apply NoDup_cons in Hnd. destruct Hnd as [Hfn Hnd'].
      unfold set_replacer, set_page, set_page_table, set_free_list; simpl.
      apply (pool_inv_install b f _ page_id); try assumption; try reflexivity; try (simpl; lia).
      * apply (Hfree f Hfin).
      * apply Pin_wf. exact Hwf.
      * intros g Hg. apply (Pin_members _ f g Hwf Hg).
      * intros g Hg. rewrite Hfl. split; [right; exact Hg|]. intros ->. contradiction.
      * intros k g. apply page_table_extended; assumption.
Qed.

Lemma pool_inv_NewPageImpl b :
  pool_inv zero b -> pool_inv zero (snd (NewPageImpl zero b)).
Proof.
  intros Hinv. pose proof Hinv as (Hwf & Hnd & Hfree & Hrep & Htab).
  assert (Hnone : page_table_ b !! next_page_id_ (disk_manager_ b) = None).
  { destruct (page_table_ b !! next_page_id_ (disk_manager_ b)) as [g|] eqn:Hg;
      [|reflexivity].
    destruct (Htab _ _ Hg) as (_ & _ & _ & Hc). lia. }
  unfold NewPageImpl.
  destruct (bool_decide (free_list_ b = []) && (Size (replacer_ b) =? 0)); [exact Hinv|].
  unfold AllocatePage. cbv beta iota zeta.
  change (free_list_ (set_disk _ b)) with (free_list_ b).
  destruct (free_list_ b) as [|f rest] eqn:Hfl;
      clear Hwf Hnd Hfree Hrep Htab; pose proof Hinv as (Hwf & Hnd & Hfree & Hrep & Htab).
  - change (replacer_ (set_disk _ b)) with (replacer_ b).
    destruct (Victim (replacer_ b)) as [[v|] r'] eqn:Hv.
    2:{ simpl. unfold pool_inv; simpl. rewrite Hfl.
        split; [exact Hwf|]. split; [constructor|]. split; [|split].
        - intros g Hg. inversion Hg.
        - exact Hrep.
        - intros k g Hg. destruct (Htab _ _ Hg) as (Ha & Hb & Hc & Hd).
          rewrite Hfl in Hb. split; [exact Ha|]. split; [exact Hb|]. split; [exact Hc|lia]. }
    destruct (Victim_some _ _ _ Hwf Hv) as (Hvin & Hvn & Hwf' & Hsub).
    pose proof (Hrep v Hvin) as Hres.
    assert (Hvok : frame_ok b v) by apply (Htab _ _ Hres).
    change (page_at zero (set_replacer r' (set_disk _ b)) v) with (page_at zero b v).
    destruct (is_dirty_ (page_at zero b v));
      unfold set_replacer, set_page, set_page_table, set_disk; simpl.
    + apply (pool_inv_install b v _ (next_page_id_ (disk_manager_ b)));
        try assumption; try reflexivity; try (simpl; lia).
      * apply Pin_wf. exact Hwf'.
      * intros g Hg. destruct (Pin_members _ v g Hwf' Hg) as [Hg' Hgv].
        split; [apply Hsub; exact Hg' | exact Hgv].
      * intros g Hg. rewrite Hfl in Hg. inversion Hg.
      * intros k g. apply page_table_replaced; assumption.
    + apply (pool_inv_install b v _ (next_page_id_ (disk_manager_ b)));
        try assumption; try reflexivity; try (simpl; lia).
      * apply Pin_wf. exact Hwf'.
      * intros g Hg. destruct (Pin_members _ v g Hwf' Hg) as [Hg' Hgv].
        split; [apply Hsub; exact Hg' | exact Hgv].
      * intros g Hg. rewrite Hfl in Hg. inversion Hg.
      * intros k g. apply page_table_replaced; assumption.
  - assert (Hfin : f ∈ free_list_ b) by (rewrite Hfl; left).
    rewrite Hfl in Hnd. apply NoDup_cons in Hnd. destruct Hnd as [Hfn Hnd'].
    unfold set_replacer, set_page, set_page_table, set_free_list, set_disk; simpl.
    apply (pool_inv_install b f _ (next_page_id_ (disk_manager_ b)));
      try assumption; try reflexivity; try (simpl; lia).
    + apply (Hfree f Hfin).
    + apply Pin_wf. exact Hwf.
    + intros g Hg. apply (Pin_members _ f g Hwf Hg).
    + intros g Hg. rewrite Hfl. split; [right; exact Hg|]. intros ->. contradiction.
    + intros k g. apply page_table_extended; assumption.
Qed.

Lemma pool_inv_DeletePageImpl b page_id :
  pool_inv zero b -> pool_inv zero (snd (DeletePageImpl zero page_id b)).
Proof.
  intros Hinv. pose proof Hinv as (Hwf & Hnd & Hfree & Hrep & Htab).
  unfold DeletePageImpl. unfold frame_id_t, page_id_t in *.
  destruct (page_table_ b !! page_id) as [f|] eqn:Hf; [|exact Hinv].
  destruct (0 <? pin_count_ (page_at zero b f)); [exact Hinv|].
  destruct (Htab _ _ Hf) as (Hok & Hnf & Hid & Hlt).
  unfold set_replacer, set_page, set_page_table, set_free_list, set_disk; simpl.
  set (p := ResetMemory zero (page_at zero b f)).
  set (b' := mkBPM _ _ _ _ _ _).
  assert (Hpg : forall g, 0 <= g ->
            page_at zero b' g = if decide (g = f) then p else page_at zero b g)
    by (intros g Hg; apply page_at_stored; assumption).
  assert (Hfo : forall g, frame_ok b' g <-> frame_ok b g).
  { intros g. unfold frame_ok; simpl. rewrite length_insert. reflexivity. }
  unfold pool_inv. simpl.
  split; [apply Pin_wf; exact Hwf|].
  split.
  { apply NoDup_app. split; [exact Hnd|]. split; [|apply NoDup_singleton].
    intros g Hg Hg'. apply list_elem_of_singleton in Hg'. subst g. contradiction. }
  split; [|split].
  - intros g Hg. rewrite Hfo. apply elem_of_app in Hg. destruct Hg as [Hg|Hg].
    + destruct (Hfree g Hg) as [Hgo Hgz]. split; [exact Hgo|].
      rewrite Hpg by apply Hgo. case_decide; [subst g; contradiction | exact Hgz].
    + apply list_elem_of_singleton in Hg. subst g. split; [exact Hok|].
      rewrite Hpg by apply Hok. case_decide; [reflexivity | contradiction].
  - intros g Hg. destruct (Pin_members _ f g Hwf Hg) as [Hg' Hgf].
    pose proof (Hrep g Hg') as Hres. unfold resident in Hres |- *. simpl.
    unfold frame_id_t, page_id_t in *.
    destruct (Htab _ _ Hres) as (Hgo & _).
    rewrite Hpg by apply Hgo. case_decide; [contradiction|].
    rewrite lookup_delete_ne; [exact Hres|].
    intros Heq. rewrite <- Heq, Hid, Hf in Hres. congruence.
  - intros k g Hg.
    destruct (decide (k = page_id_ (page_at zero b f))) as [->|Hk].
    + rewrite lookup_delete_eq in Hg. discriminate.
    + rewrite lookup_delete_ne in Hg by congruence.
      destruct (Htab _ _ Hg) as (Hgo & Hgn & Hgi & Hglt).
      assert (Hgf : g <> f) by (intros ->; congruence).
      rewrite Hfo. split; [exact Hgo|]. split.
      { intros Hin. apply elem_of_app in Hin. destruct Hin as [Hin|Hin];
          [contradiction|]. apply list_elem_of_singleton in Hin. contradiction. }
      split; [|exact Hglt].
      rewrite Hpg by apply Hgo. case_decide; [contradiction | exact Hgi].
Qed.

End PoolInvariant.

Section LeafSplit.
Context {KeyType ValueType : Type}.
Context (key0 : KeyType) (val0 : ValueType).
Abbreviation Tree := (BPlusTree KeyType ValueType).
Abbreviation LPool := (BufferPoolManager (PageData KeyType ValueType)).


Lemma SetData_Ok (b : LPool) f d : SetData f d b = Ok tt (write_data Zeroed f d b).
Proof. reflexivity. Qed.

Lemma GetData_Ok (b : LPool) f : GetData f b = Ok (data_ (page_at Zeroed b f)) b.
Proof. reflexivity. Qed.

Lemma upd_leaf_Ok (b : LPool) f l g :
  data_ (page_at Zeroed b f) = LeafData l ->
  upd_leaf f g b = Ok tt (write_data Zeroed f (LeafData (g l)) b).
Proof.
  intros Hd. unfold upd_leaf. rewrite (bind_Ok _ _ _ _ _ (as_leaf_leaf b f l Hd)).
  reflexivity.
Qed.

Lemma Leaf_Init_at_zeroed (b : LPool) f page_id parent_id max_size :
  data_ (page_at Zeroed b f) = Zeroed ->
  Leaf_Init_at f page_id parent_id max_size b
    = Ok tt (write_data Zeroed f (LeafData (Leaf_Init page_id parent_id max_size)) b).
Proof.
  intros Hd. unfold Leaf_Init_at. rewrite (bind_Ok _ _ _ _ _ (GetData_Ok b f)).
  rewrite Hd. reflexivity.
Qed.


Lemma IsFull_leaf (b : LPool) f l :
  data_ (page_at Zeroed b f) = LeafData l ->
  IsFull f b = Ok (lsize l =? max_size_ (leaf_hdr l)) b.
Proof.
  intros Hd. unfold IsFull, as_tree, GetData, gets, mbind, M_bind, mret, M_ret.
  rewrite Hd. reflexivity.
Qed.

Lemma WrapNewPage_Ok (b b1 : LPool) f page_id :
  NewPageImpl Zeroed b = (Some (f, page_id), b1) -> WrapNewPage b = Ok (f, page_id) b1.
Proof.
  intros H. unfold WrapNewPage.
  assert (Hn : NewPage b = Ok (Some (f, page_id)) b1)
    by (unfold NewPage, run_pair; rewrite H; reflexivity).
  rewrite (bind_Ok _ _ _ _ _ Hn). reflexivity.
Qed.
End LeafSplit.

Lemma iterator_unpins_held_leaf_as_dirty_witness :
  let b := buffer_pool_manager_ (fst scan_on_full_pool) in
  let it := snd scan_on_full_pool in
  let leaf := mkLeaf (mkHdr 1 4 INVALID_PAGE_ID 1) INVALID_PAGE_ID [(1, 10)] in
  is_dirty_ (page_at Zeroed b 1) = false /\
  exists b1,
    IndexIterator_destroy it b = Ok tt b1 /\
    is_dirty_ (page_at Zeroed b1 1) = true /\
    data_ (page_at Zeroed b1 1) = LeafData leaf /\
    let b2 := snd (NewPageImpl Zeroed b1) in
    page_table_ b2 !! 1 = Some 1 /\
    write_log (disk_manager_ (snd (NewPageImpl Zeroed b2)))
      = (1, LeafData leaf) :: write_log (disk_manager_ b2).
Proof.
  intros b it leaf. split; [vm_compute; reflexivity|].
  destruct (iterator_unpins_held_leaf_as_dirty b it 1 1 leaf)
    as (b1 & Hun & Hdestroy & _ & Hdirty & Hdata & _ & _ & Hevict).
  - vm_compute. reflexivity.
  - vm_compute. reflexivity.
  - vm_compute. reflexivity.
  - vm_compute. split; [intros H; discriminate H | reflexivity].
  - vm_compute. reflexivity.
  - assert (Hb1 : b1 = snd (UnpinPageImpl Zeroed (tree_page_id_ (leaf_hdr leaf)) true b))
      by (rewrite Hun; reflexivity).
    exists b1. split; [exact Hdestroy|]. split; [exact Hdirty|].
    split; [rewrite Hdata; vm_compute; reflexivity|].
    cbv zeta. split; [rewrite Hb1; vm_compute; reflexivity|].
    destruct (Hevict (snd (NewPageImpl Zeroed b1)) (mkLRU [] 0 2)) as [Hnew _].
    + rewrite Hb1. vm_compute. reflexivity.
    + rewrite Hb1. vm_compute. split; [intros H; discriminate H | reflexivity].
    + rewrite Hb1. vm_compute. reflexivity.
    + rewrite Hb1. vm_compute. reflexivity.
    + exact Hnew.
Defined.

(** C10, the clause that fails.  A scan visits the leaf (page 1) and lets go
    of it; the leaf's frame is dirty.  A [GetValue] then reads the same
    leaf and unpins it with [false], which clears the flag.  The pool has
    two frames: the next [NewPage] evicts the header page, the one after it
    evicts the leaf, and that eviction writes nothing: the write log is the
    one from before, and page 1 has never reached the disk. *)
Lemma scanned_leaf_is_evicted_unwritten_after_get_value :
  let t := fst scan_on_full_pool in
  let it := snd scan_on_full_pool in
  exists b1 t2,
    IndexIterator_destroy it (buffer_pool_manager_ t) = Ok tt b1 /\
    is_dirty_ (page_at Zeroed b1 1) = true /\
    GetValue cmpZ 0 0 10 1 (set_bpm b1 t) = Ok (Some 10) t2 /\
    data_ (page_at Zeroed (buffer_pool_manager_ t2) 1) = data_ (page_at Zeroed b1 1) /\
    let b3 := snd (NewPageImpl Zeroed (buffer_pool_manager_ t2)) in
    let b4 := snd (NewPageImpl Zeroed b3) in
    page_table_ b3 !! 1 = Some 1 /\
    page_table_ b4 !! 1 = None /\
    write_log (disk_manager_ b4) = write_log (disk_manager_ b3) /\
    Forall (fun w => fst w <> 1) (write_log (disk_manager_ b4)) /\
    ReadPage Zeroed (disk_manager_ b4) 1 = Zeroed.
Proof.
  intros t it.
  destruct (IndexIterator_destroy it (buffer_pool_manager_ t)) as [[] b1| | |] eqn:Hd;
    try (vm_compute in Hd; discriminate Hd).
  assert (Hb1 : match IndexIterator_destroy it (buffer_pool_manager_ t) with
                | Ok _ b' => b' | _ => buffer_pool_manager_ t end = b1)
    by (rewrite Hd; reflexivity).
  destruct (GetValue cmpZ 0 0 10 1 (set_bpm b1 t)) as [v t2| | |] eqn:Hg;
    try (rewrite <- Hb1 in Hg; vm_compute in Hg; discriminate Hg).
  assert (Ht2 : match GetValue cmpZ 0 0 10 1 (set_bpm b1 t) with
                | Ok _ t' => t' | _ => t end = t2)
    by (rewrite Hg; reflexivity).
  assert (Hv : v = Some 10).
  { rewrite <- Hb1 in Hg. vm_compute in Hg. congruence. }
  subst v.
  exists b1, t2. split; [reflexivity|].
  rewrite <- Ht2. rewrite <- Hb1.
  split; [vm_compute; reflexivity|].
  split; [vm_compute; reflexivity|].
  split; [vm_compute; reflexivity|].
  cbv zeta.
  split; [vm_compute; reflexivity|].
  split; [vm_compute; reflexivity|].
  split; [vm_compute; reflexivity|].
  split; [|vm_compute; reflexivity].
  vm_compute. repeat constructor; discriminate.
Qed.

(** * Further properties of the code *)

(** ** lru_replacer.cpp: runs of calls *)

Lemma lru_wf_nil_eq r : lru_wf r -> frame_ids r = [] -> r = mkLRU [] 0 (max_pages r).
Proof.
  intros (_ & Hc & _ & _) He. destruct r as [l c m]. simpl in *. subst l.
  simpl in Hc. subst c. reflexivity.
Qed.

Lemma victims_drain l : forall r,
  lru_wf r -> frame_ids r = l ->
  victims (length l) r = (rev l, mkLRU [] 0 (max_pages r)).
Proof.
  induction l as [|x l IH] using rev_ind; intros r Hwf He.
  - simpl. rewrite (lru_wf_nil_eq r Hwf He) at 1. reflexivity.
  - rewrite length_app, Nat.add_1_r. simpl victims.
    rewrite (Victim_snoc r l x Hwf He).
    pose proof (Victim_wf r Hwf) as Hwf'. rewrite (Victim_snoc r l x Hwf He) in Hwf'.
    simpl in Hwf'. rewrite (IH _ Hwf' eq_refl). simpl. rewrite rev_unit. reflexivity.
Qed.

Lemma Unpin_run fs : forall r,
  lru_wf r -> NoDup fs -> (forall f, (f ∈ fs) -> f ∉ frame_ids r) ->
  cur_pages r + Z.of_nat (length fs) <= max_pages r ->
  lru_wf (fold_left Unpin fs r) /\
  frame_ids (fold_left Unpin fs r) = rev fs ++ frame_ids r /\
  max_pages (fold_left Unpin fs r) = max_pages r.
Proof.
  induction fs as [|f fs IH]; intros r Hwf Hnd Hdis Hcap.
  - simpl. auto.
  - apply NoDup_cons in Hnd. destruct Hnd as [Hf Hnd].
    assert (Hfr : f ∉ frame_ids r) by (apply Hdis; left).
    assert (Hne : cur_pages r <> max_pages r) by (simpl length in Hcap; lia).
    simpl fold_left.
    pose proof (Unpin_wf r f Hwf) as Hwf1.
    pose proof (Unpin_room r f Hwf Hfr Hne) as Hun.
    destruct (IH (Unpin r f) Hwf1 Hnd) as (Hwf2 & Hids & Hmax).
    + intros g Hg. rewrite Hun. simpl. intros Hin. apply elem_of_cons in Hin.
      destruct Hin as [->|Hin]; [contradiction|]. apply (Hdis g); [right; exact Hg | exact Hin].
    + rewrite Hun. simpl. simpl length in Hcap. lia.
    + split; [exact Hwf2|]. split.
      * rewrite Hids, Hun. simpl. rewrite <- app_assoc. reflexivity.
      * rewrite Hmax, Hun. reflexivity.
Qed.

(** X1.  The replacer is a queue: when distinct frames are unpinned into a
    new replacer that has room for all of them, [Victim] hands them back in
    the order they were unpinned and leaves the replacer as the constructor
    made it. *)
Theorem victims_come_out_in_unpin_order (n : Z) (fs : list frame_id_t) :
  0 < n < 2 ^ 64 -> NoDup fs -> Z.of_nat (length fs) <= n ->
  victims (length fs) (fold_left Unpin fs (LRUReplacer_new n)) = (fs, LRUReplacer_new n).
Proof.
  intros Hn Hnd Hcap.
  destruct (Unpin_run fs (LRUReplacer_new n) (LRUReplacer_new_wf n Hn) Hnd) as (Hwf & Hids & Hmax).
  - intros f _ Hin. inversion Hin.
  - simpl. lia.
  - simpl in Hids. rewrite app_nil_r in Hids.
    assert (Hlen : length fs = length (rev fs)) by (rewrite length_rev; reflexivity).
    rewrite Hlen, (victims_drain (rev fs) _ Hwf Hids), rev_involutive, Hmax. reflexivity.
Qed.

Lemma victims_come_out_in_unpin_order_witness :
  victims 3 (fold_left Unpin [7; 2; 5] (LRUReplacer_new 4)) = ([7; 2; 5], LRUReplacer_new 4).
Proof.
  apply (victims_come_out_in_unpin_order 4 [7; 2; 5]).
  - lia.
  - apply NoDup_cons. split.
    + intros H. apply elem_of_cons in H. destruct H as [H|H]; [discriminate H|].
      apply elem_of_cons in H. destruct H as [H|H]; [discriminate H | inversion H].
    + apply NoDup_cons. split.
      * intros H. apply elem_of_cons in H. destruct H as [H|H]; [discriminate H | inversion H].
      * apply NoDup_cons. split; [intros H; inversion H | constructor].
  - simpl. lia.
Defined.

(** X2.  [Pin] undoes an [Unpin] that enlisted a frame: on a replacer with
    room, unpinning a frame it does not hold and pinning it again gives the
    replacer back.  The other way round does not: a frame the replacer holds
    that is pinned and unpinned again moves to the front, so it becomes the
    last one [Victim] picks. *)
Theorem pin_undoes_unpin_and_reunpin_moves_to_front (r : LRUReplacer) (f : frame_id_t) :
  lru_wf r ->
  (f ∉ frame_ids r -> Size r <> max_pages r -> Pin (Unpin r f) f = r) /\
  (forall l1 l2, frame_ids r = l1 ++ f :: l2 ->
     frame_ids (Unpin (Pin r f) f) = f :: l1 ++ l2 /\ Size (Unpin (Pin r f) f) = Size r).
Proof.
  intros Hwf. split.
  - intros Hn Hne. rewrite (Unpin_room r f Hwf Hn Hne).
    pose proof (Unpin_wf r f Hwf) as Hwf1. rewrite (Unpin_room r f Hwf Hn Hne) in Hwf1.
    rewrite (Pin_present _ f [] (frame_ids r) Hwf1 eq_refl). simpl.
    destruct r as [l c m]. simpl. f_equal. lia.
  - intros l1 l2 He. pose proof (Pin_wf r f Hwf) as Hwf1.
    pose proof (Pin_present r f l1 l2 Hwf He) as Hpin. rewrite Hpin in Hwf1 |- *.
    pose proof Hwf as (Hm & Hc & Hle & Hnd).
    assert (Hn : f ∉ frame_ids (mkLRU (l1 ++ l2) (cur_pages r - 1) (max_pages r))).
    { simpl. rewrite He in Hnd. apply NoDup_app in Hnd. destruct Hnd as (_ & Hd & Hnd2).
      apply NoDup_cons in Hnd2. destruct Hnd2 as [Hf2 _].
      intros Hin. apply elem_of_app in Hin. destruct Hin as [Hin|Hin].
      - apply (Hd f Hin). left.
      - contradiction. }
    rewrite (Unpin_room _ f Hwf1 Hn) by (simpl; lia). simpl. unfold Size. simpl.
    split; [reflexivity | lia].
Qed.

Lemma pin_undoes_unpin_and_reunpin_moves_to_front_witness :
  let r := Unpin (Unpin (LRUReplacer_new 7) 1) 2 in
  Pin (Unpin r 5) 5 = r /\ frame_ids (Unpin (Pin r 1) 1) = [1; 2].
Proof.
  intros r.
  assert (Hwf : lru_wf r).
  { unfold lru_wf. vm_compute. repeat split; try discriminate.
    apply NoDup_cons. split.
    - intros H. apply elem_of_cons in H. destruct H as [H|H]; [discriminate H | inversion H].
    - apply NoDup_cons. split; [intros H; inversion H | constructor]. }
  split.
  - apply (proj1 (pin_undoes_unpin_and_reunpin_moves_to_front r 5 Hwf)).
    + vm_compute. intros H. apply elem_of_cons in H. destruct H as [H|H]; [discriminate H|].
      apply elem_of_cons in H. destruct H as [H|H]; [discriminate H | inversion H].
    + vm_compute. discriminate.
  - apply (proj2 (pin_undoes_unpin_and_reunpin_moves_to_front r 1 Hwf) [2] []). reflexivity.
Defined.
(** ** buffer_pool_manager.cpp: what each call returns and leaves behind *)

Section PoolCalls.
Context {Data : Type} (zero : Data).
Implicit Types (b : BufferPoolManager Data).

(** [FetchPageImpl] by cases, with the pool it leaves written out. *)
Lemma FetchPageImpl_cases b page_id :
  pool_inv zero b ->
  (exists f,
     page_table_ b !! page_id = Some f /\ frame_ok b f /\
     FetchPageImpl zero page_id b =
       (Some f,
        mkBPM (pool_size_ b)
          (<[Z.to_nat f := set_pin_count (pin_count_ (page_at zero b f) + 1) (page_at zero b f)]>
             (pages_ b))
          (page_table_ b) (free_list_ b) (Pin (replacer_ b) f) (disk_manager_ b))) \/
  (exists f rest,
     page_table_ b !! page_id = None /\ free_list_ b = f :: rest /\ frame_ok b f /\
     FetchPageImpl zero page_id b =
       (Some f,
        mkBPM (pool_size_ b)
          (<[Z.to_nat f := mkPage (ReadPage zero (disk_manager_ b) page_id) page_id
                             (pin_count_ (page_at zero b f) + 1) (is_dirty_ (page_at zero b f))]>
             (pages_ b))
          (<[page_id := f]> (page_table_ b)) rest (Pin (replacer_ b) f) (disk_manager_ b))) \/
  (exists v r',
     page_table_ b !! page_id = None /\ free_list_ b = [] /\
     Victim (replacer_ b) = (Some v, r') /\ frame_ok b v /\ resident zero b v /\
     let victim := page_at zero b v in
     let d := if is_dirty_ victim
              then WritePage (disk_manager_ b) (page_id_ victim) (data_ victim)
              else disk_manager_ b in
     FetchPageImpl zero page_id b =
       (Some v,
        mkBPM (pool_size_ b)
          (<[Z.to_nat v := mkPage (ReadPage zero d page_id) page_id
                             (pin_count_ victim + 1) (is_dirty_ victim)]> (pages_ b))
          (<[page_id := v]> (delete (page_id_ victim) (page_table_ b))) []
          (Pin r' v) d)) \/
  (page_table_ b !! page_id = None /\ free_list_ b = [] /\ frame_ids (replacer_ b) = [] /\
   FetchPageImpl zero page_id b = (None, b)).
Proof.
  intros Hinv. pose proof Hinv as (Hwf & Hnd & Hfree & Hrep & Htab).
  unfold FetchPageImpl. unfold frame_id_t, page_id_t in *.
  destruct (page_table_ b !! page_id) as [f|] eqn:Hf.
  - left. exists f. split; [reflexivity|]. split; [apply (Htab _ _ Hf)|]. reflexivity.
  - right. destruct (free_list_ b) as [|f rest] eqn:Hfl.
    + right. destruct (list_snoc_cases (frame_ids (replacer_ b))) as [He|(l & v & He)].
      * right. rewrite (Victim_empty _ Hwf He). auto.
      * left. rewrite (Victim_snoc _ l v Hwf He).
        assert (Hin : v ∈ frame_ids (replacer_ b))
          by (rewrite He; apply elem_of_app; right; left).
        pose proof (Hrep v Hin) as Hres.
        assert (Hok : frame_ok b v) by apply (Htab _ _ Hres).
        eexists v, _. split; [reflexivity|]. split; [reflexivity|]. split; [reflexivity|].
        split; [exact Hok|]. split; [exact Hres|].
        cbv zeta. unfold set_replacer, set_page, set_page_table, set_disk.
        change (page_at zero (mkBPM (pool_size_ b) (pages_ b) (page_table_ b) (free_list_ b)
                  (mkLRU l (cur_pages (replacer_ b) - 1) (max_pages (replacer_ b)))
                  (disk_manager_ b)) v) with (page_at zero b v).
        destruct (is_dirty_ (page_at zero b v)) eqn:Hd; simpl; rewrite Hfl;
          unfold set_pin_count, set_data, set_page_id, ResetMemory; simpl;
          rewrite ?Hd; reflexivity.
    + left. exists f, rest. split; [reflexivity|]. split; [reflexivity|].
      split; [apply Hfree; left|]. reflexivity.
Qed.

(** [NewPageImpl] by cases, with the pool it leaves written out. *)
Lemma NewPageImpl_cases b :
  pool_inv zero b ->
  let id := next_page_id_ (disk_manager_ b) in
  let dm1 := snd (AllocatePage (disk_manager_ b)) in
  (free_list_ b = [] /\ frame_ids (replacer_ b) = [] /\ NewPageImpl zero b = (None, b)) \/
  (exists f rest,
     free_list_ b = f :: rest /\ frame_ok b f /\
     NewPageImpl zero b =
       (Some (f, id),
        mkBPM (pool_size_ b)
          (<[Z.to_nat f := mkPage (data_ (page_at zero b f)) id
                             (pin_count_ (page_at zero b f) + 1) (is_dirty_ (page_at zero b f))]>
             (pages_ b))
          (<[id := f]> (page_table_ b)) rest (Pin (replacer_ b) f) dm1)) \/
  (exists v r',
     free_list_ b = [] /\ Victim (replacer_ b) = (Some v, r') /\ frame_ok b v /\
     resident zero b v /\
     let victim := page_at zero b v in
     let d := if is_dirty_ victim
              then WritePage dm1 (page_id_ victim) (data_ victim)
              else dm1 in
     NewPageImpl zero b =
       (Some (v, id),
        mkBPM (pool_size_ b)
          (<[Z.to_nat v := mkPage zero id (pin_count_ victim + 1) (is_dirty_ victim)]> (pages_ b))
          (<[id := v]> (delete (page_id_ victim) (page_table_ b))) []
          (Pin r' v) d)).
Proof.
  intros Hinv. pose proof Hinv as (Hwf & Hnd & Hfree & Hrep & Htab).
  pose proof Hwf as (Hm & Hc & Hle & Hndr).
  cbv zeta. unfold NewPageImpl, AllocatePage. unfold frame_id_t, page_id_t in *.
  destruct (free_list_ b) as [|f rest] eqn:Hfl.
  - destruct (list_snoc_cases (frame_ids (replacer_ b))) as [He|(l & v & He)].
    + left. unfold Size. rewrite Hc, He. simpl. auto.
    + right. right.
      assert (Hsz : (Size (replacer_ b) =? 0) = false).
      { unfold Size. apply Z.eqb_neq. rewrite Hc, He, length_app. simpl. lia. }
      rewrite Hsz. simpl andb. cbv iota beta zeta.
      change (free_list_ (set_disk _ b)) with (free_list_ b). rewrite Hfl.
      change (replacer_ (set_disk _ b)) with (replacer_ b).
      rewrite (Victim_snoc _ l v Hwf He).
      assert (Hin : v ∈ frame_ids (replacer_ b))
        by (rewrite He; apply elem_of_app; right; left).
      pose proof (Hrep v Hin) as Hres.
      assert (Hok : frame_ok b v) by apply (Htab _ _ Hres).
      eexists v, _. split; [reflexivity|]. split; [reflexivity|].
      split; [exact Hok|]. split; [exact Hres|].
      unfold set_replacer, set_page, set_page_table, set_disk.
      match goal with
      | |- context [is_dirty_ (page_at zero ?bb v)] =>
          change (page_at zero bb v) with (page_at zero b v)
      end.
      destruct (is_dirty_ (page_at zero b v)) eqn:Hd; simpl;
        unfold set_pin_count, set_data, set_page_id, ResetMemory; simpl;
        rewrite ?Hd, ?Hfl; reflexivity.
  - right. left. exists f, rest. split; [reflexivity|].
    split; [apply Hfree; left|].
    rewrite bool_decide_eq_false_2 by discriminate. simpl andb. cbv iota beta zeta.
    change (free_list_ (set_disk _ b)) with (free_list_ b). rewrite Hfl.
    reflexivity.
Qed.

Lemma Pin_removes r f : lru_wf r -> f ∉ frame_ids (Pin r f).
Proof. intros Hwf Hin. apply (Pin_members r f f Hwf) in Hin. destruct Hin as [_ Hne]. congruence. Qed.

Lemma ReadPage_WritePage_eq (d : DiskManager Data) page_id x :
  ReadPage zero (WritePage d page_id x) page_id = x.
Proof. unfold ReadPage, WritePage; simpl. rewrite lookup_insert_eq. reflexivity. Qed.

Lemma ReadPage_WritePage_ne (d : DiskManager Data) page_id k x :
  k <> page_id -> ReadPage zero (WritePage d page_id x) k = ReadPage zero d k.
Proof.
  intros Hne. unfold ReadPage, WritePage; simpl. rewrite lookup_insert_ne by congruence.
  reflexivity.
Qed.

Lemma FetchPageImpl_success b page_id f b' :
  pool_inv zero b ->
  FetchPageImpl zero page_id b = (Some f, b') ->
  frame_ok b f /\
  page_table_ b' !! page_id = Some f /\
  page_id_ (page_at zero b' f) = page_id /\
  pin_count_ (page_at zero b' f) = pin_count_ (page_at zero b f) + 1 /\
  is_dirty_ (page_at zero b' f) = is_dirty_ (page_at zero b f) /\
  data_ (page_at zero b' f) =
    match page_table_ b !! page_id with
    | Some _ => data_ (page_at zero b f)
    | None => ReadPage zero (disk_manager_ b) page_id
    end /\
  (f ∉ free_list_ b') /\ (f ∉ frame_ids (replacer_ b')) /\
  (forall g, 0 <= g -> g <> f -> page_at zero b' g = page_at zero b g).
Proof.
  intros Hinv Hfetch. pose proof Hinv as (Hwf & Hnd & Hfree & Hrep & Htab).
  unfold frame_id_t, page_id_t in *.
  destruct (FetchPageImpl_cases b page_id Hinv)
    as [(f0 & Hf & Hok & Heq)|[(f0 & rest & Hf & Hfl & Hok & Heq)|
        [(v & r' & Hf & Hfl & Hv & Hok & Hres & Heq)|(_ & _ & _ & Heq)]]];
    cbv zeta in Heq; unfold frame_id_t, page_id_t in *;
    rewrite Heq in Hfetch; [| | |discriminate];
    injection Hfetch as <- <-.
  - rewrite Hf. destruct (Htab _ _ Hf) as (_ & Hnf & Hid & _).
    split; [exact Hok|]. simpl.
    rewrite (page_at_stored zero b f0 f0) by (try exact Hok; apply Hok).
    rewrite decide_True by reflexivity. simpl.
    repeat split; try assumption.
    + apply Pin_removes. exact Hwf.
    + intros g Hg Hne. rewrite (page_at_stored zero b f0 g) by assumption.
      rewrite decide_False by exact Hne. reflexivity.
  - rewrite Hf. split; [exact Hok|]. simpl.
    rewrite (page_at_stored zero b f0 f0) by (try exact Hok; apply Hok).
    rewrite decide_True by reflexivity. simpl.
    rewrite Hfl in Hnd. apply NoDup_cons in Hnd. destruct Hnd as [Hnr _].
    repeat split; try assumption; try reflexivity.
    + apply lookup_insert_eq.
    + apply Pin_removes. exact Hwf.
    + intros g Hg Hne. rewrite (page_at_stored zero b f0 g) by assumption.
      rewrite decide_False by exact Hne. reflexivity.
  - rewrite Hf. split; [exact Hok|]. simpl.
    rewrite (page_at_stored zero b v v) by (try exact Hok; apply Hok).
    rewrite decide_True by reflexivity. simpl.
    destruct (Victim_some _ _ _ Hwf Hv) as (_ & _ & Hwf' & _).
    unfold resident in Hres. unfold frame_id_t, page_id_t in *.
    assert (Hne : page_id <> page_id_ (page_at zero b v)) by (intros Heq'; congruence).
    repeat split; try reflexivity.
    + apply lookup_insert_eq.
    + destruct (is_dirty_ (page_at zero b v)); [|reflexivity].
      apply ReadPage_WritePage_ne. exact Hne.
    + intros Hin. inversion Hin.
    + apply Pin_removes. exact Hwf'.
    + intros g Hg Hneg. rewrite (page_at_stored zero b v g) by assumption.
      rewrite decide_False by exact Hneg. reflexivity.
Qed.

(** X3.  A [FetchPageImpl] that returns a frame returns the requested page
    in it: the page table maps the page id to the frame, the frame carries
    the page id, its pin count went up by one, its bytes are the ones the pool
    held if the page was resident and the ones on disk otherwise, the frame is
    neither free nor an eviction candidate, and no other frame changed.  The
    dirty flag is the one the frame had, also after an eviction. *)
Theorem fetch_returns_requested_page_pinned b page_id f b' :
  pool_inv zero b ->
  FetchPageImpl zero page_id b = (Some f, b') ->
  frame_ok b f /\
  page_table_ b' !! page_id = Some f /\
  page_id_ (page_at zero b' f) = page_id /\
  pin_count_ (page_at zero b' f) = pin_count_ (page_at zero b f) + 1 /\
  is_dirty_ (page_at zero b' f) = is_dirty_ (page_at zero b f) /\
  data_ (page_at zero b' f) =
    match page_table_ b !! page_id with
    | Some _ => data_ (page_at zero b f)
    | None => ReadPage zero (disk_manager_ b) page_id
    end /\
  (f ∉ free_list_ b') /\ (f ∉ frame_ids (replacer_ b')) /\
  (forall g, 0 <= g -> g <> f -> page_at zero b' g = page_at zero b g).
Proof. apply FetchPageImpl_success. Qed.

Lemma NewPageImpl_success b f page_id b' :
  pool_inv zero b ->
  NewPageImpl zero b = (Some (f, page_id), b') ->
  frame_ok b f /\
  page_id = next_page_id_ (disk_manager_ b) /\
  next_page_id_ (disk_manager_ b') = page_id + 1 /\
  page_table_ b !! page_id = None /\
  page_table_ b' !! page_id = Some f /\
  page_id_ (page_at zero b' f) = page_id /\
  pin_count_ (page_at zero b' f) = pin_count_ (page_at zero b f) + 1 /\
  is_dirty_ (page_at zero b' f) = is_dirty_ (page_at zero b f) /\
  data_ (page_at zero b' f) = zero /\
  (f ∉ free_list_ b') /\ (f ∉ frame_ids (replacer_ b')) /\
  (forall g, 0 <= g -> g <> f -> page_at zero b' g = page_at zero b g).
Proof.
  intros Hinv Hnew. pose proof Hinv as (Hwf & Hnd & Hfree & Hrep & Htab).
  unfold frame_id_t, page_id_t in *.
  assert (Hnone : page_table_ b !! next_page_id_ (disk_manager_ b) = None).
  { destruct (page_table_ b !! next_page_id_ (disk_manager_ b)) as [g|] eqn:Hg;
      [|reflexivity].
    destruct (Htab _ _ Hg) as (_ & _ & _ & Hc). lia. }
  destruct (NewPageImpl_cases b Hinv)
    as [(_ & _ & Heq)|[(f0 & rest & Hfl & Hok & Heq)|(v & r' & Hfl & Hv & Hok & Hres & Heq)]];
    cbv zeta in Heq; unfold frame_id_t, page_id_t in *;
    rewrite Heq in Hnew; [discriminate| |];
    injection Hnew as <- <- <-.
  - split; [exact Hok|]. simpl.
    rewrite (page_at_stored zero b f0 f0) by (try exact Hok; apply Hok).
    rewrite decide_True by reflexivity. simpl.
    rewrite Hfl in Hnd. apply NoDup_cons in Hnd. destruct Hnd as [Hnr _].
    repeat split; try assumption; try reflexivity.
    + apply lookup_insert_eq.
    + apply Hfree. rewrite Hfl. left.
    + apply Pin_removes. exact Hwf.
    + intros g Hg Hne. rewrite (page_at_stored zero b f0 g) by assumption.
      rewrite decide_False by exact Hne. reflexivity.
  - split; [exact Hok|]. simpl.
    rewrite (page_at_stored zero b v v) by (try exact Hok; apply Hok).
    rewrite decide_True by reflexivity. simpl.
    destruct (Victim_some _ _ _ Hwf Hv) as (_ & _ & Hwf' & _).
    repeat split; try assumption; try reflexivity.
    + destruct (is_dirty_ (page_at zero b v)); reflexivity.
    + apply lookup_insert_eq.
    + intros Hin. inversion Hin.
    + apply Pin_removes. exact Hwf'.
    + intros g Hg Hneg. rewrite (page_at_stored zero b v g) by assumption.
      rewrite decide_False by exact Hneg. reflexivity.
Qed.

(** X4.  A [NewPageImpl] that returns a frame allocated the disk manager's
    next page id for it, an id no resident page had; the frame holds that id
    with zeroed bytes and one pin more than the frame had, is neither free
    nor an eviction candidate, and no other frame changed. *)
Theorem new_page_is_fresh_zeroed_and_pinned b f page_id b' :
  pool_inv zero b ->
  NewPageImpl zero b = (Some (f, page_id), b') ->
  frame_ok b f /\
  page_id = next_page_id_ (disk_manager_ b) /\
  next_page_id_ (disk_manager_ b') = page_id + 1 /\
  page_table_ b !! page_id = None /\
  page_table_ b' !! page_id = Some f /\
  page_id_ (page_at zero b' f) = page_id /\
  pin_count_ (page_at zero b' f) = pin_count_ (page_at zero b f) + 1 /\
  is_dirty_ (page_at zero b' f) = is_dirty_ (page_at zero b f) /\
  data_ (page_at zero b' f) = zero /\
  (f ∉ free_list_ b') /\ (f ∉ frame_ids (replacer_ b')) /\
  (forall g, 0 <= g -> g <> f -> page_at zero b' g = page_at zero b g).
Proof. apply NewPageImpl_success. Qed.

(** X5.  [FetchPageImpl] and [NewPageImpl] give up only when there is nothing
    to take a frame from: the free list and the replacer are both empty (and,
    for a fetch, the page is not resident).  Giving up changes nothing: no
    page id is allocated, nothing is written. *)
Theorem pool_refuses_only_without_free_or_evictable_frame b :
  pool_inv zero b ->
  (forall page_id,
     (fst (FetchPageImpl zero page_id b) = None <->
      page_table_ b !! page_id = None /\ free_list_ b = [] /\ frame_ids (replacer_ b) = []) /\
     (fst (FetchPageImpl zero page_id b) = None -> snd (FetchPageImpl zero page_id b) = b)) /\
  (fst (NewPageImpl zero b) = None <->
   free_list_ b = [] /\ frame_ids (replacer_ b) = []) /\
  (fst (NewPageImpl zero b) = None -> snd (NewPageImpl zero b) = b).
Proof.
  intros Hinv. split; [|split].
  - intros page_id.
    destruct (FetchPageImpl_cases b page_id Hinv)
      as [(f0 & Hf & Hok & Heq)|[(f0 & rest & Hf & Hfl & Hok & Heq)|
          [(v & r' & Hf & Hfl & Hv & Hok & Hres & Heq)|(Hf & Hfl & He & Heq)]]];
      cbv zeta in Heq; unfold frame_id_t, page_id_t in *; rewrite Heq; simpl.
    + split; [|discriminate]. split; [discriminate|]. intros (Hc & _). congruence.
    + split; [|discriminate]. split; [discriminate|]. intros (_ & Hc & _). congruence.
    + split; [|discriminate]. split; [discriminate|]. intros (_ & _ & Hc).
      pose proof Hinv as (Hwf & _). rewrite (Victim_empty _ Hwf Hc) in Hv. discriminate.
    + split; [|reflexivity]. split; auto.
  - destruct (NewPageImpl_cases b Hinv)
      as [(Hfl & He & Heq)|[(f0 & rest & Hfl & Hok & Heq)|(v & r' & Hfl & Hv & Hok & Hres & Heq)]];
      cbv zeta in Heq; unfold frame_id_t, page_id_t in *; rewrite Heq; simpl.
    + split; auto.
    + split; [discriminate|]. intros (Hc & _). congruence.
    + split; [discriminate|]. intros (_ & Hc).
      pose proof Hinv as (Hwf & _). rewrite (Victim_empty _ Hwf Hc) in Hv. discriminate.
  - destruct (NewPageImpl_cases b Hinv)
      as [(Hfl & He & Heq)|[(f0 & rest & Hfl & Hok & Heq)|(v & r' & Hfl & Hv & Hok & Hres & Heq)]];
      cbv zeta in Heq; unfold frame_id_t, page_id_t in *; rewrite Heq; simpl;
      [reflexivity | discriminate | discriminate].
Qed.

(** X6.  A dirty page that is evicted is not lost: when [FetchPageImpl] takes
    the frame of a dirty victim, the victim leaves the page table, its bytes
    are on disk under its page id, and a later [FetchPageImpl] of that page
    id that returns a frame returns those bytes. *)
Theorem evicted_dirty_page_reads_back b page_id v r' :
  pool_inv zero b ->
  page_id < next_page_id_ (disk_manager_ b) ->
  page_table_ b !! page_id = None -> free_list_ b = [] ->
  Victim (replacer_ b) = (Some v, r') ->
  is_dirty_ (page_at zero b v) = true ->
  let victim := page_at zero b v in
  let b1 := snd (FetchPageImpl zero page_id b) in
  fst (FetchPageImpl zero page_id b) = Some v /\
  page_table_ b1 !! page_id_ victim = None /\
  ReadPage zero (disk_manager_ b1) (page_id_ victim) = data_ victim /\
  (forall g b2, FetchPageImpl zero (page_id_ victim) b1 = (Some g, b2) ->
     data_ (page_at zero b2 g) = data_ victim).
Proof.
  intros Hinv Hlt Hnone Hfl Hv Hd victim b1.
  pose proof (pool_inv_FetchPageImpl zero b page_id Hinv Hlt) as Hinv1.
  fold b1 in Hinv1.
  pose proof Hinv as (Hwf & Hnd & Hfree & Hrep & Htab).
  unfold frame_id_t, page_id_t in *.
  destruct (Victim_some _ _ _ Hwf Hv) as (Hvin & _).
  pose proof (Hrep v Hvin) as Hres. unfold resident in Hres.
  unfold frame_id_t, page_id_t in *.
  assert (Hok : frame_ok b v) by apply (Htab _ _ Hres).
  destruct (FetchPageImpl_evicts zero b page_id v r' Hnone Hfl Hv Hok)
    as (b' & Hf & Hdisk & Hpt & _).
  assert (Hb1 : b1 = b') by (unfold b1; rewrite Hf; reflexivity).
  rewrite Hd in Hdisk. fold victim in Hres, Hdisk, Hpt.
  assert (Hne : page_id_ victim <> page_id) by (intros Heq; congruence).
  assert (Hgone : page_table_ b1 !! page_id_ victim = None).
  { rewrite Hb1, Hpt. rewrite lookup_insert_ne by congruence. apply lookup_delete_eq. }
  assert (Hread : ReadPage zero (disk_manager_ b1) (page_id_ victim) = data_ victim).
  { rewrite Hb1, Hdisk. apply ReadPage_WritePage_eq. }
  split; [rewrite Hf; reflexivity|]. split; [exact Hgone|]. split; [exact Hread|].
  intros g b2 Hfetch.
  destruct (FetchPageImpl_success b1 _ g b2 Hinv1 Hfetch) as (_ & _ & _ & _ & _ & Hdata & _).
  unfold frame_id_t, page_id_t in *. rewrite Hgone in Hdata. rewrite Hdata. exact Hread.
Qed.

End PoolCalls.
Section UnpinFlushDelete.
Context {Data : Type} (zero : Data).
Implicit Types (b : BufferPoolManager Data).

(** X7.  The calls that refuse leave the pool as it was.  [UnpinPageImpl]
    refuses a page that is not resident or has no pin; [FlushPageImpl] refuses
    a page that is not resident; [DeletePageImpl] refuses a resident page that
    is pinned, and reports success without doing anything for a page that is
    not resident. *)
Theorem refused_unpin_flush_delete_change_nothing b page_id :
  (forall is_dirty,
     (fst (UnpinPageImpl zero page_id is_dirty b) = false <->
      page_table_ b !! page_id = None \/
      exists f, page_table_ b !! page_id = Some f /\ pin_count_ (page_at zero b f) <= 0) /\
     (fst (UnpinPageImpl zero page_id is_dirty b) = false ->
      snd (UnpinPageImpl zero page_id is_dirty b) = b)) /\
  ((fst (FlushPageImpl zero page_id b) = false <-> page_table_ b !! page_id = None) /\
   (fst (FlushPageImpl zero page_id b) = false -> snd (FlushPageImpl zero page_id b) = b)) /\
  ((fst (DeletePageImpl zero page_id b) = false <->
    exists f, page_table_ b !! page_id = Some f /\ 0 < pin_count_ (page_at zero b f)) /\
   (fst (DeletePageImpl zero page_id b) = false -> snd (DeletePageImpl zero page_id b) = b) /\
   (page_table_ b !! page_id = None -> DeletePageImpl zero page_id b = (true, b))).
Proof.
  unfold UnpinPageImpl, FlushPageImpl, DeletePageImpl. unfold frame_id_t, page_id_t in *.
  destruct (page_table_ b !! page_id) as [f|] eqn:Hf.
  - split; [|split].
    + intros is_dirty.
      destruct (Z.leb_spec (pin_count_ (page_at zero b f)) 0) as [Hle|Hgt]; simpl.
      * split; [|reflexivity]. split; [|reflexivity]. intros _. right. exists f. auto.
      * split; [|discriminate]. split; [discriminate|].
        intros [Hc|(g & Hg & Hle)]; [discriminate|]. injection Hg as <-. lia.
    + simpl. split; [|discriminate]. split; discriminate.
    + destruct (Z.ltb_spec 0 (pin_count_ (page_at zero b f))) as [Hgt|Hle]; simpl.
      * split; [|split; [reflexivity | discriminate]].
        split; [|reflexivity]. intros _. exists f. auto.
      * split; [|split; discriminate].
        split; [discriminate|]. intros (g & Hg & Hgt). injection Hg as <-. lia.
  - simpl. split; [|split].
    + intros is_dirty. split; [|reflexivity]. split; [|reflexivity]. intros _. left. reflexivity.
    + split; [|reflexivity]. split; reflexivity.
    + split; [|split; reflexivity]. split; [discriminate|]. intros (g & Hg & _). discriminate.
Qed.

(** X8.  [FlushPageImpl] of a resident page writes the bytes the pool holds
    to disk under the page's id and touches no other page on disk.  It changes
    no frame: the page stays as dirty as it was. *)
Theorem flush_page_writes_through_and_keeps_dirty_flag b page_id f :
  pool_inv zero b -> page_table_ b !! page_id = Some f ->
  let b' := snd (FlushPageImpl zero page_id b) in
  fst (FlushPageImpl zero page_id b) = true /\
  ReadPage zero (disk_manager_ b') page_id = data_ (page_at zero b f) /\
  (forall k, k <> page_id ->
     ReadPage zero (disk_manager_ b') k = ReadPage zero (disk_manager_ b) k) /\
  write_log (disk_manager_ b') = (page_id, data_ (page_at zero b f)) :: write_log (disk_manager_ b) /\
  pages_ b' = pages_ b /\ page_table_ b' = page_table_ b /\
  free_list_ b' = free_list_ b /\ replacer_ b' = replacer_ b /\
  is_dirty_ (page_at zero b' f) = is_dirty_ (page_at zero b f).
Proof.
  intros Hinv Hf b'. pose proof Hinv as (_ & _ & _ & _ & Htab).
  destruct (Htab _ _ Hf) as (_ & _ & Hid & _).
  subst b'. unfold FlushPageImpl. unfold frame_id_t, page_id_t in *. rewrite Hf. simpl.
  rewrite Hid. split; [reflexivity|]. split; [apply ReadPage_WritePage_eq|].
  split; [intros k Hk; apply ReadPage_WritePage_ne; exact Hk|].
  repeat split.
Qed.

(** X9.  [DeletePageImpl] of a resident page nobody pins gives the frame
    back: the page leaves the page table, the frame goes to the back of the
    free list with zeroed bytes and is no eviction candidate, and the page id
    is deallocated on disk.  Nothing is written: the bytes of a dirty page are
    dropped.  The frame keeps the page id and the dirty flag it had. *)
Theorem delete_page_returns_frame_to_free_list b page_id f :
  pool_inv zero b -> page_table_ b !! page_id = Some f ->
  pin_count_ (page_at zero b f) <= 0 ->
  let b' := snd (DeletePageImpl zero page_id b) in
  fst (DeletePageImpl zero page_id b) = true /\
  page_table_ b' !! page_id = None /\
  (forall k, k <> page_id -> page_table_ b' !! k = page_table_ b !! k) /\
  free_list_ b' = free_list_ b ++ [f] /\
  (f ∉ frame_ids (replacer_ b')) /\
  data_ (page_at zero b' f) = zero /\
  page_id_ (page_at zero b' f) = page_id /\
  is_dirty_ (page_at zero b' f) = is_dirty_ (page_at zero b f) /\
  deallocated (disk_manager_ b') = page_id :: deallocated (disk_manager_ b) /\
  disk (disk_manager_ b') = disk (disk_manager_ b) /\
  write_log (disk_manager_ b') = write_log (disk_manager_ b) /\
  (forall g, 0 <= g -> g <> f -> page_at zero b' g = page_at zero b g).
Proof.
  intros Hinv Hf Hpin b'. pose proof Hinv as (Hwf & _ & _ & _ & Htab).
  destruct (Htab _ _ Hf) as (Hok & _ & Hid & _).
  subst b'. unfold DeletePageImpl. unfold frame_id_t, page_id_t in *. rewrite Hf.
  destruct (Z.ltb_spec 0 (pin_count_ (page_at zero b f))) as [Hgt|_]; [lia|].
  unfold set_replacer, set_page, set_page_table, set_free_list, set_disk. simpl.
  rewrite (page_at_stored zero b f f) by (try exact Hok; apply Hok).
  rewrite decide_True by reflexivity. simpl. rewrite Hid.
  split; [reflexivity|]. split; [apply lookup_delete_eq|].
  split; [intros k Hk; apply lookup_delete_ne; congruence|].
  split; [reflexivity|]. split; [apply Pin_removes; exact Hwf|].
  repeat split; try assumption.
  intros g Hg Hne. rewrite (page_at_stored zero b f g) by assumption.
  rewrite decide_False by exact Hne. reflexivity.
Qed.

End UnpinFlushDelete.
Section FlushAll.
Context {Data : Type} (zero : Data).
Implicit Types (b : BufferPoolManager Data).

Lemma FlushAllPagesImpl_disk_loop b :
  FlushAllPagesImpl zero b =
    set_disk (fold_left (flush_frame zero b) (seq 0 (Z.to_nat (pool_size_ b))) (disk_manager_ b)) b.
Proof.
  unfold FlushAllPagesImpl.
  assert (H : forall l d,
            fold_left
              (fun b0 i =>
                 let page := page_at zero b0 (Z.of_nat i) in
                 if negb (page_id_ page =? INVALID_PAGE_ID) && is_dirty_ page
                 then set_disk (WritePage (disk_manager_ b0) (page_id_ page) (data_ page)) b0
                 else b0) l (set_disk d b)
            = set_disk (fold_left (flush_frame zero b) l d) b).
  { induction l as [|i l IH]; intros d; [reflexivity|].
    simpl fold_left. unfold flush_frame at 2.
    change (page_at zero (set_disk d b) (Z.of_nat i)) with (page_at zero b (Z.of_nat i)).
    cbv zeta.
    destruct (negb (page_id_ (page_at zero b (Z.of_nat i)) =? INVALID_PAGE_ID)
              && is_dirty_ (page_at zero b (Z.of_nat i))).
    - apply (IH (WritePage d _ _)).
    - apply IH. }
  rewrite <- H. destruct b; reflexivity.
Qed.

Lemma flush_frame_next b d i : next_page_id_ (flush_frame zero b d i) = next_page_id_ d.
Proof. unfold flush_frame. cbv zeta. destruct (_ && _); reflexivity. Qed.

Lemma flush_loop_next b l : forall d,
  next_page_id_ (fold_left (flush_frame zero b) l d) = next_page_id_ d.
Proof.
  induction l as [|i l IH]; intros d; [reflexivity|].
  simpl. rewrite IH. apply flush_frame_next.
Qed.

Lemma flush_loop_untouched b k d n :
  (forall j, (j < n)%nat ->
     ~ (page_id_ (page_at zero b (Z.of_nat j)) = k /\ k <> INVALID_PAGE_ID /\
        is_dirty_ (page_at zero b (Z.of_nat j)) = true)) ->
  ReadPage zero (fold_left (flush_frame zero b) (seq 0 n) d) k = ReadPage zero d k.
Proof.
  induction n as [|n IH]; intros Hno; [reflexivity|].
  rewrite seq_S, fold_left_app. simpl.
  unfold flush_frame at 1. cbv zeta.
  destruct (Z.eqb_spec (page_id_ (page_at zero b (Z.of_nat n))) INVALID_PAGE_ID) as [He|Hne];
    simpl.
  - apply IH. intros j Hj. apply Hno. lia.
  - destruct (is_dirty_ (page_at zero b (Z.of_nat n))) eqn:Hd.
    + rewrite ReadPage_WritePage_ne.
      * apply IH. intros j Hj. apply Hno. lia.
      * intros Hk. apply (Hno n ltac:(lia)). subst k. auto.
    + apply IH. intros j Hj. apply Hno. lia.
Qed.

Lemma flush_loop_written b i d n :
  (i < n)%nat ->
  page_id_ (page_at zero b (Z.of_nat i)) <> INVALID_PAGE_ID ->
  is_dirty_ (page_at zero b (Z.of_nat i)) = true ->
  (forall j, (j < n)%nat -> j <> i -> is_dirty_ (page_at zero b (Z.of_nat j)) = true ->
     page_id_ (page_at zero b (Z.of_nat j)) <> page_id_ (page_at zero b (Z.of_nat i))) ->
  ReadPage zero (fold_left (flush_frame zero b) (seq 0 n) d)
    (page_id_ (page_at zero b (Z.of_nat i))) = data_ (page_at zero b (Z.of_nat i)).
Proof.
  intros Hi Hid Hd. induction n as [|n IH]; intros Huniq; [lia|].
  rewrite seq_S, fold_left_app. simpl.
  destruct (Nat.eq_dec i n) as [->|Hne].
  - unfold flush_frame at 1. cbv zeta.
    destruct (Z.eqb_spec (page_id_ (page_at zero b (Z.of_nat n))) INVALID_PAGE_ID) as [He|_];
      [contradiction|].
    rewrite Hd. simpl. apply ReadPage_WritePage_eq.
  - unfold flush_frame at 1. cbv zeta.
    assert (IH' := IH ltac:(lia) (fun j Hj => Huniq j ltac:(lia))).
    destruct (negb (page_id_ (page_at zero b (Z.of_nat n)) =? INVALID_PAGE_ID)) eqn:Hv; simpl;
      [|exact IH'].
    destruct (is_dirty_ (page_at zero b (Z.of_nat n))) eqn:Hdn; [|exact IH'].
    rewrite ReadPage_WritePage_ne; [exact IH'|].
    intros Heq. apply (Huniq n ltac:(lia) ltac:(congruence) Hdn). symmetry. exact Heq.
Qed.

(** X10.  [FlushAllPagesImpl] changes nothing but the disk: every frame
    keeps its bytes and its dirty flag.  A dirty frame with a valid page id
    has its bytes on disk afterwards, provided no other dirty frame carries
    the same page id; a page id no dirty frame carries reads from disk as
    before. *)
Theorem flush_all_writes_every_dirty_frame b :
  let b' := FlushAllPagesImpl zero b in
  (pages_ b' = pages_ b /\ page_table_ b' = page_table_ b /\ free_list_ b' = free_list_ b /\
   replacer_ b' = replacer_ b /\
   next_page_id_ (disk_manager_ b') = next_page_id_ (disk_manager_ b)) /\
  (forall i, 0 <= i < pool_size_ b ->
     page_id_ (page_at zero b i) <> INVALID_PAGE_ID ->
     is_dirty_ (page_at zero b i) = true ->
     (forall j, 0 <= j < pool_size_ b -> j <> i -> is_dirty_ (page_at zero b j) = true ->
        page_id_ (page_at zero b j) <> page_id_ (page_at zero b i)) ->
     ReadPage zero (disk_manager_ b') (page_id_ (page_at zero b i)) = data_ (page_at zero b i)) /\
  (forall k,
     (forall j, 0 <= j < pool_size_ b ->
        ~ (page_id_ (page_at zero b j) = k /\ k <> INVALID_PAGE_ID /\
           is_dirty_ (page_at zero b j) = true)) ->
     ReadPage zero (disk_manager_ b') k = ReadPage zero (disk_manager_ b) k).
Proof.
  intros b'. subst b'. rewrite FlushAllPagesImpl_disk_loop. simpl.
  split; [|split].
  - repeat split. apply flush_loop_next.
  - intros i Hi Hid Hd Huniq.
    rewrite <- (Z2Nat.id i) by lia.
    apply flush_loop_written.
    + lia.
    + rewrite Z2Nat.id by lia. exact Hid.
    + rewrite Z2Nat.id by lia. exact Hd.
    + intros j Hj Hne Hdj. rewrite Z2Nat.id by lia.
      apply Huniq; [lia | lia | exact Hdj].
  - intros k Hno. apply flush_loop_untouched.
    intros j Hj. apply Hno. lia.
Qed.

End FlushAll.
(** ** buffer_pool_manager.cpp: the bookkeeping in every reachable pool *)

Lemma Pin_max r f : max_pages (Pin r f) = max_pages r.
Proof. unfold Pin. destruct (find_frame f (frame_ids r)); reflexivity. Qed.

Lemma Victim_max r : max_pages (snd (Victim r)) = max_pages r.
Proof. unfold Victim. destruct (cur_pages r =? 0); reflexivity. Qed.

Lemma Unpin_max r f : max_pages (Unpin r f) = max_pages r.
Proof.
  unfold Unpin. destruct (find_frame f (frame_ids r)); [reflexivity|].
  destruct (cur_pages r =? max_pages r); simpl; [apply Victim_max | reflexivity].
Qed.

Section ReachablePools.
Context {Data : Type} (zero : Data).
Implicit Types (b : BufferPoolManager Data).

Lemma pin_nonneg_page_at b f :
  Forall (fun p => 0 <= pin_count_ p) (pages_ b) -> 0 <= pin_count_ (page_at zero b f).
Proof.
  intros Hall. unfold page_at.
  destruct (pages_ b !! Z.to_nat f) as [p|] eqn:Hp; simpl; [|lia].
  rewrite Forall_lookup in Hall. apply (Hall _ _ Hp).
Qed.

Lemma frames_ok_store n b f p pt fl r dm :
  frames_ok n b -> 0 <= pin_count_ p -> max_pages r = n ->
  frames_ok n (mkBPM (pool_size_ b) (<[Z.to_nat f := p]> (pages_ b)) pt fl r dm).
Proof.
  intros (Hn & Hlen & Hpins & Hmax) Hp Hr. unfold frames_ok; simpl.
  split; [exact Hn|]. split; [rewrite length_insert; exact Hlen|].
  split; [|exact Hr]. apply Forall_insert; assumption.
Qed.

Lemma frames_ok_new n dm :
  0 < n -> frames_ok n (BufferPoolManager_new zero n dm).
Proof.
  intros Hn. unfold frames_ok, BufferPoolManager_new; simpl.
  split; [reflexivity|]. split; [apply length_replicate|]. split; [|reflexivity].
  apply Forall_replicate. simpl. lia.
Qed.

Lemma frames_ok_FetchPageImpl n b page_id :
  pool_inv zero b -> frames_ok n b -> frames_ok n (snd (FetchPageImpl zero page_id b)).
Proof.
  intros Hinv Hfr. pose proof Hfr as (Hn & Hlen & Hpins & Hmax).
  pose proof (pin_nonneg_page_at b) as Hpin.
  destruct (FetchPageImpl_cases zero b page_id Hinv)
    as [(f0 & Hf & Hok & Heq)|[(f0 & rest & Hf & Hfl & Hok & Heq)|
        [(v & r' & Hf & Hfl & Hv & Hok & Hres & Heq)|(_ & _ & _ & Heq)]]];
    cbv zeta in Heq; rewrite Heq; simpl; [| | |exact Hfr];
    apply frames_ok_store; try exact Hfr; simpl;
    try (specialize (Hpin f0 Hpins); lia); try (specialize (Hpin v Hpins); lia);
    rewrite Pin_max; try exact Hmax.
  replace r' with (snd (Victim (replacer_ b))) by (rewrite Hv; reflexivity).
  rewrite Victim_max. exact Hmax.
Qed.

Lemma frames_ok_NewPageImpl n b :
  pool_inv zero b -> frames_ok n b -> frames_ok n (snd (NewPageImpl zero b)).
Proof.
  intros Hinv Hfr. pose proof Hfr as (Hn & Hlen & Hpins & Hmax).
  pose proof (pin_nonneg_page_at b) as Hpin.
  destruct (NewPageImpl_cases zero b Hinv)
    as [(_ & _ & Heq)|[(f0 & rest & Hfl & Hok & Heq)|(v & r' & Hfl & Hv & Hok & Hres & Heq)]];
    cbv zeta in Heq; rewrite Heq; simpl; [exact Hfr| |];
    apply frames_ok_store; try exact Hfr; simpl;
    try (specialize (Hpin f0 Hpins); lia); try (specialize (Hpin v Hpins); lia);
    rewrite Pin_max; try exact Hmax.
  replace r' with (snd (Victim (replacer_ b))) by (rewrite Hv; reflexivity).
  rewrite Victim_max. exact Hmax.
Qed.

Lemma frames_ok_UnpinPageImpl n b page_id is_dirty :
  frames_ok n b -> frames_ok n (snd (UnpinPageImpl zero page_id is_dirty b)).
Proof.
  intros Hfr. pose proof Hfr as (Hn & Hlen & Hpins & Hmax).
  unfold UnpinPageImpl. destruct (page_table_ b !! page_id) as [f|]; [|exact Hfr].
  destruct (Z.leb_spec (pin_count_ (page_at zero b f)) 0) as [|Hgt]; [exact Hfr|].
  unfold set_replacer, set_page. simpl.
  apply frames_ok_store; [exact Hfr | simpl; lia | rewrite Unpin_max; exact Hmax].
Qed.

Lemma frames_ok_DeletePageImpl n b page_id :
  frames_ok n b -> frames_ok n (snd (DeletePageImpl zero page_id b)).
Proof.
  intros Hfr. pose proof Hfr as (Hn & Hlen & Hpins & Hmax).
  unfold DeletePageImpl. destruct (page_table_ b !! page_id) as [f|]; [|exact Hfr].
  destruct (0 <? pin_count_ (page_at zero b f)); [exact Hfr|].
  unfold set_replacer, set_page, set_page_table, set_free_list, set_disk. simpl.
  apply frames_ok_store; [exact Hfr | simpl; apply pin_nonneg_page_at; exact Hpins
                         | rewrite Pin_max; exact Hmax].
Qed.

Lemma frames_ok_FlushPageImpl n b page_id :
  frames_ok n b -> frames_ok n (snd (FlushPageImpl zero page_id b)).
Proof.
  intros Hfr. unfold FlushPageImpl. destruct (page_table_ b !! page_id); exact Hfr.
Qed.

Lemma frames_ok_write_data n b f d :
  frames_ok n b -> frames_ok n (write_data zero f d b).
Proof.
  intros Hfr. pose proof Hfr as (Hn & Hlen & Hpins & Hmax).
  unfold write_data, set_page.
  apply frames_ok_store; [exact Hfr | simpl; apply pin_nonneg_page_at; exact Hpins | exact Hmax].
Qed.

Lemma pool_inv_set_disk b d :
  next_page_id_ d = next_page_id_ (disk_manager_ b) ->
  pool_inv zero b -> pool_inv zero (set_disk d b).
Proof.
  intros Hd (Hwf & Hnd & Hfree & Hrep & Htab). unfold pool_inv. simpl.
  split; [exact Hwf|]. split; [exact Hnd|]. split; [exact Hfree|]. split; [exact Hrep|].
  intros k g Hg. destruct (Htab _ _ Hg) as (Ha & Hb & Hc & Hlt).
  split; [exact Ha|]. split; [exact Hb|]. split; [exact Hc|]. rewrite Hd. exact Hlt.
Qed.

Lemma reachable_invariants n dm b :
  0 < n < 2 ^ 64 -> reachable zero n dm b -> pool_inv zero b /\ frames_ok n b.
Proof.
  intros Hn Hreach. induction Hreach as
    [|b page_id _ [Hinv Hfr] Hlt|b _ [Hinv Hfr]|b page_id is_dirty _ [Hinv Hfr]
     |b page_id _ [Hinv Hfr]|b page_id _ [Hinv Hfr]|b _ [Hinv Hfr]|b page_id f d _ [Hinv Hfr] Hf].
  - split; [apply pool_inv_new; exact Hn | apply frames_ok_new; lia].
  - split; [apply pool_inv_FetchPageImpl; assumption | apply frames_ok_FetchPageImpl; assumption].
  - split; [apply pool_inv_NewPageImpl; assumption | apply frames_ok_NewPageImpl; assumption].
  - split; [apply pool_inv_UnpinPageImpl; assumption | apply frames_ok_UnpinPageImpl; assumption].
  - split; [apply pool_inv_FlushPageImpl; assumption | apply frames_ok_FlushPageImpl; assumption].
  - split; [apply pool_inv_DeletePageImpl; assumption | apply frames_ok_DeletePageImpl; assumption].
  - rewrite FlushAllPagesImpl_disk_loop. split.
    + apply pool_inv_set_disk; [apply flush_loop_next | exact Hinv].
    + exact Hfr.
  - split; [apply (pool_inv_write_data zero b f d page_id); assumption
           | apply frames_ok_write_data; exact Hfr].
Qed.

(** X11.  In every pool a client can bring about, the bookkeeping is
    consistent: the array has [pool_size] frames and no pin count is negative;
    a frame the page table names lies in the array and carries the page id it
    is mapped from, so no two page ids share a frame, and that id has been
    allocated; the free list has no repetition, and a free frame is zeroed,
    is mapped from no page id and is no eviction candidate; the replacer has
    no repetition, counts its frames, holds at most [pool_size] of them, and
    each holds a resident page. *)
Theorem reachable_pool_keeps_its_books n dm b :
  0 < n < 2 ^ 64 -> reachable zero n dm b ->
  (length (pages_ b) = Z.to_nat n /\
   forall f, 0 <= pin_count_ (page_at zero b f)) /\
  ((forall page_id f, page_table_ b !! page_id = Some f ->
      frame_ok b f /\ page_id_ (page_at zero b f) = page_id /\
      page_id < next_page_id_ (disk_manager_ b)) /\
   (forall p1 p2 f, page_table_ b !! p1 = Some f -> page_table_ b !! p2 = Some f -> p1 = p2)) /\
  (NoDup (free_list_ b) /\
   forall f, (f ∈ free_list_ b) ->
     frame_ok b f /\ data_ (page_at zero b f) = zero /\
     (forall page_id, page_table_ b !! page_id <> Some f) /\
     (f ∉ frame_ids (replacer_ b))) /\
  (NoDup (frame_ids (replacer_ b)) /\
   Size (replacer_ b) = Z.of_nat (length (frame_ids (replacer_ b))) /\
   Size (replacer_ b) <= n /\
   forall f, (f ∈ frame_ids (replacer_ b)) ->
     page_table_ b !! page_id_ (page_at zero b f) = Some f).
Proof.
  intros Hn Hreach.
  destruct (reachable_invariants n dm b Hn Hreach)
    as ((Hwf & Hnd & Hfree & Hrep & Htab) & (Hsz & Hlen & Hpins & Hmax)).
  pose proof Hwf as (Hm & Hc & Hle & Hndr).
  split; [|split; [|split]].
  - split; [exact Hlen|]. intros f. apply pin_nonneg_page_at. exact Hpins.
  - split.
    + intros page_id f Hf. destruct (Htab _ _ Hf) as (Ha & _ & Hb & Hlt). auto.
    + intros p1 p2 f H1 H2.
      destruct (Htab _ _ H1) as (_ & _ & <- & _). destruct (Htab _ _ H2) as (_ & _ & <- & _).
      reflexivity.
  - split; [exact Hnd|]. intros f Hf. destruct (Hfree f Hf) as [Ha Hb].
    split; [exact Ha|]. split; [exact Hb|]. split.
    + intros page_id Hpt. destruct (Htab _ _ Hpt) as (_ & Hnot & _). contradiction.
    + intros Hin. pose proof (Hrep f Hin) as Hres. unfold resident in Hres.
      destruct (Htab _ _ Hres) as (_ & Hnot & _). contradiction.
  - split; [exact Hndr|]. unfold Size. split; [exact Hc|]. split; [lia|]. exact Hrep.
Qed.

End ReachablePools.
(** Instances on a pool whose pages hold one number each. *)

Lemma fetch_returns_requested_page_pinned_witness :
  let b := snd (NewPageImpl 0 (fresh_pool 2)) in
  let b' := snd (FetchPageImpl 0 0 b) in
  page_table_ b' !! 0 = Some 0 /\
  pin_count_ (page_at 0 b' 0) = pin_count_ (page_at 0 b 0) + 1.
Proof.
  intros b b'.
  destruct (fetch_returns_requested_page_pinned 0 b 0 0 b') as (_ & H1 & _ & H2 & _).
  - apply pool_inv_NewPageImpl, pool_inv_new. lia.
  - vm_compute. reflexivity.
  - split; assumption.
Defined.

Lemma new_page_is_fresh_zeroed_and_pinned_witness :
  let b := snd (NewPageImpl 0 (fresh_pool 2)) in
  let b' := snd (NewPageImpl 0 b) in
  page_table_ b !! 1 = None /\ page_table_ b' !! 1 = Some 1 /\ data_ (page_at 0 b' 1) = 0.
Proof.
  intros b b'.
  destruct (new_page_is_fresh_zeroed_and_pinned 0 b 1 1 b')
    as (_ & _ & _ & H1 & H2 & _ & _ & _ & H3 & _).
  - apply pool_inv_NewPageImpl, pool_inv_new. lia.
  - vm_compute. reflexivity.
  - split; [exact H1|]. split; assumption.
Defined.

Lemma pool_refuses_only_without_free_or_evictable_frame_witness :
  let b := snd (NewPageImpl 0 (fresh_pool 1)) in
  fst (NewPageImpl 0 b) = None /\ snd (NewPageImpl 0 b) = b /\
  fst (FetchPageImpl 0 5 b) = None.
Proof.
  intros b.
  destruct (pool_refuses_only_without_free_or_evictable_frame 0 b) as (Hfetch & Hnew & Hsame).
  - apply pool_inv_NewPageImpl, pool_inv_new. lia.
  - assert (Hn : fst (NewPageImpl 0 b) = None) by (apply Hnew; split; reflexivity).
    split; [exact Hn|]. split; [apply Hsame; exact Hn|].
    apply (proj1 (Hfetch 5)). repeat split.
Defined.

Lemma evicted_dirty_page_reads_back_witness :
  let b := run_pool [OpNewPage; OpUnpinPage 0 false; OpNewPage; OpWrite 0 9; OpUnpinPage 1 true]
             (fresh_pool 1) in
  let b1 := snd (FetchPageImpl 0 0 b) in
  data_ (page_at 0 b 0) = 9 /\ page_table_ b1 !! 1 = None /\
  ReadPage 0 (disk_manager_ b1) 1 = 9.
Proof.
  intros b b1.
  assert (Hinv : pool_inv 0 b).
  { unfold b. cbn [run_pool fold_left run_pool_op].
    apply pool_inv_UnpinPageImpl. apply (pool_inv_write_data 0 _ 0 9 1).
    - apply pool_inv_NewPageImpl, pool_inv_UnpinPageImpl, pool_inv_NewPageImpl, pool_inv_new. lia.
    - vm_compute. reflexivity. }
  destruct (evicted_dirty_page_reads_back 0 b 0 0 (LRUReplacer_new 1) Hinv)
    as (_ & H1 & H2 & _).
  - vm_compute. reflexivity.
  - vm_compute. reflexivity.
  - vm_compute. reflexivity.
  - vm_compute. reflexivity.
  - vm_compute. reflexivity.
  - split; [vm_compute; reflexivity|]. split; [exact H1 | exact H2].
Defined.

Lemma flush_page_writes_through_and_keeps_dirty_flag_witness :
  let b := run_pool [OpNewPage; OpWrite 0 7; OpUnpinPage 0 true] (fresh_pool 2) in
  let b' := snd (FlushPageImpl 0 0 b) in
  ReadPage 0 (disk_manager_ b) 0 = 0 /\ ReadPage 0 (disk_manager_ b') 0 = 7 /\
  is_dirty_ (page_at 0 b' 0) = true.
Proof.
  intros b b'.
  assert (Hinv : pool_inv 0 b).
  { unfold b. cbn [run_pool fold_left run_pool_op].
    apply pool_inv_UnpinPageImpl. apply (pool_inv_write_data 0 _ 0 7 0).
    - apply pool_inv_NewPageImpl, pool_inv_new. lia.
    - vm_compute. reflexivity. }
  destruct (flush_page_writes_through_and_keeps_dirty_flag 0 b 0 0 Hinv)
    as (_ & H1 & _ & _ & _ & _ & _ & _ & H2).
  - vm_compute. reflexivity.
  - split; [vm_compute; reflexivity|]. split; [exact H1|].
    fold b' in H2. rewrite H2. vm_compute. reflexivity.
Defined.

Lemma delete_page_returns_frame_to_free_list_witness :
  let b := run_pool [OpNewPage; OpWrite 0 7; OpUnpinPage 0 true] (fresh_pool 2) in
  let b' := snd (DeletePageImpl 0 0 b) in
  page_table_ b' !! 0 = None /\ free_list_ b' = [1; 0] /\
  write_log (disk_manager_ b') = [] /\ is_dirty_ (page_at 0 b' 0) = true.
Proof.
  intros b b'.
  assert (Hinv : pool_inv 0 b).
  { unfold b. cbn [run_pool fold_left run_pool_op].
    apply pool_inv_UnpinPageImpl. apply (pool_inv_write_data 0 _ 0 7 0).
    - apply pool_inv_NewPageImpl, pool_inv_new. lia.
    - vm_compute. reflexivity. }
  destruct (delete_page_returns_frame_to_free_list 0 b 0 0 Hinv)
    as (_ & H1 & _ & H2 & _ & _ & _ & H3 & _ & _ & H4 & _).
  - vm_compute. reflexivity.
  - vm_compute. discriminate.
  - fold b' in H1, H2, H3, H4. split; [exact H1|]. split; [exact H2|].
    split; [exact H4|]. rewrite H3. vm_compute. reflexivity.
Defined.

Lemma reachable_pool_keeps_its_books_witness :
  let b := snd (UnpinPageImpl 0 0 true (snd (NewPageImpl 0 (fresh_pool 2)))) in
  length (pages_ b) = 2%nat /\ NoDup (free_list_ b) /\ Size (replacer_ b) <= 2.
Proof.
  intros b.
  destruct (reachable_pool_keeps_its_books 0 2 DiskManager_new b)
    as ((H1 & _) & _ & (H2 & _) & (_ & _ & H3 & _)).
  - lia.
  - apply reach_unpin, reach_new_page, reach_new.
  - split; [exact H1|]. split; [exact H2 | exact H3].
Defined.
(** ** b_plus_tree_internal_page.cpp: the entry array *)

Section RawArrayFacts.
Context {E : Type} (dflt : E).

Lemma arr_get_set a i e j :
  0 <= i -> arr_get dflt (arr_set dflt a i e) j = if j =? i then e else arr_get dflt a j.
Proof.
  intros Hi. unfold arr_get, arr_set.
  destruct (Z.ltb_spec i 0) as [|_]; [lia|].
  destruct (Z.ltb_spec j 0) as [Hj|Hj].
  - destruct (Z.eqb_spec j i); [lia | reflexivity].
  - rewrite !nth_lookup.
    destruct (Z.eqb_spec j i) as [->|Hne].
    + rewrite list_lookup_insert_eq; [reflexivity|].
      rewrite length_app, length_replicate. lia.
    + rewrite list_lookup_insert_ne by lia.
      destruct (lt_dec (Z.to_nat j) (length a)) as [Hlt|Hge].
      * rewrite lookup_app_l by exact Hlt. reflexivity.
      * rewrite lookup_app_r by lia. rewrite (lookup_ge_None_2 a) by lia. simpl.
        destruct (replicate _ dflt !! _) as [x|] eqn:Hx; [|reflexivity].
        apply lookup_replicate in Hx. destruct Hx as [-> _]. reflexivity.
Qed.

Lemma arr_get_write l : forall a dst j,
  0 <= dst ->
  arr_get dflt (arr_write dflt a dst l) j =
    if (dst <=? j) && (j <? dst + Z.of_nat (length l))
    then nth (Z.to_nat (j - dst)) l dflt
    else arr_get dflt a j.
Proof.
  induction l as [|e l IH]; intros a dst j Hdst.
  - cbn [arr_write length]. change (Z.of_nat 0) with 0.
    destruct (Z.leb_spec dst j), (Z.ltb_spec j (dst + 0)); cbn [andb]; try reflexivity; lia.
  - cbn [arr_write]. rewrite IH by lia. rewrite arr_get_set by exact Hdst.
    cbn [length]. rewrite Nat2Z.inj_succ.
    destruct (Z.leb_spec (dst + 1) j), (Z.ltb_spec j (dst + 1 + Z.of_nat (length l)));
      destruct (Z.leb_spec dst j), (Z.ltb_spec j (dst + Z.succ (Z.of_nat (length l))));
      destruct (Z.eqb_spec j dst); cbn [andb]; try lia; try reflexivity.
    + replace (Z.to_nat (j - dst)) with (S (Z.to_nat (j - (dst + 1)))) by lia. reflexivity.
    + subst j. rewrite Z.sub_diag. reflexivity.
Qed.

Lemma length_arr_slice a start n : length (arr_slice dflt a start n) = Z.to_nat n.
Proof. unfold arr_slice. rewrite length_map, length_seq. reflexivity. Qed.

Lemma nth_arr_slice a start n k :
  0 <= k < n -> nth (Z.to_nat k) (arr_slice dflt a start n) dflt = arr_get dflt a (start + k).
Proof.
  intros Hk. unfold arr_slice.
  rewrite (nth_indep _ dflt (arr_get dflt a (start + Z.of_nat 0)))
    by (rewrite length_map, length_seq; lia).
  rewrite (map_nth (fun k0 => arr_get dflt a (start + Z.of_nat k0))).
  rewrite seq_nth by lia. simpl. rewrite Z2Nat.id by lia. reflexivity.
Qed.

Lemma arr_get_memmove a dst src n j :
  0 <= dst ->
  arr_get dflt (arr_memmove dflt a dst src n) j =
    if (dst <=? j) && (j <? dst + n) then arr_get dflt a (src + (j - dst)) else arr_get dflt a j.
Proof.
  intros Hdst. unfold arr_memmove. rewrite arr_get_write by exact Hdst.
  rewrite length_arr_slice.
  destruct (Z.leb_spec dst j) as [Hle|Hgt]; simpl; [|reflexivity].
  destruct (Z.ltb_spec j (dst + Z.of_nat (Z.to_nat n))) as [H1|H1];
    destruct (Z.ltb_spec j (dst + n)) as [H2|H2]; try lia; try reflexivity.
  apply nth_arr_slice. lia.
Qed.

End RawArrayFacts.
Section InternalPageFacts.
Context {KeyType : Type} (comparator : KeyType -> KeyType -> Z) (key0 : KeyType).
Implicit Types (p : InternalPage KeyType) (key : KeyType).

Lemma slot_arr_get p j : slot key0 p j = arr_get (ient0 key0) (int_array p) j.
Proof. unfold slot, KeyAt, ValueAt. destruct (arr_get _ _ _); reflexivity. Qed.

Lemma ValueIndex_from_spec p value n : forall i,
  0 <= i ->
  let r := ValueIndex_from key0 p value i n in
  (r = -1 /\ forall k, i <= k < i + Z.of_nat n -> ValueAt key0 p k <> value) \/
  (i <= r < i + Z.of_nat n /\ ValueAt key0 p r = value /\
   forall k, i <= k < r -> ValueAt key0 p k <> value).
Proof.
  induction n as [|n IH]; intros i Hi; cbn [ValueIndex_from].
  - left. split; [reflexivity|]. intros k Hk. lia.
  - destruct (Z.eqb_spec (ValueAt key0 p i) value) as [He|Hne].
    + right. split; [lia|]. split; [exact He|]. intros k Hk. lia.
    + destruct (IH (i + 1) ltac:(lia)) as [(Hr & Hall)|(Hr & Hv & Hall)].
      * left. split; [exact Hr|]. intros k Hk.
        destruct (Z.eq_dec k i) as [->|Hki]; [exact Hne|]. apply Hall. lia.
      * right. split; [lia|]. split; [exact Hv|]. intros k Hk.
        destruct (Z.eq_dec k i) as [->|Hki]; [exact Hne|]. apply Hall. lia.
Qed.

Lemma ValueIndex_spec p value :
  (ValueIndex key0 p value = -1 /\
   forall k, 0 <= k < isize p -> ValueAt key0 p k <> value) \/
  (0 <= ValueIndex key0 p value < isize p /\
   ValueAt key0 p (ValueIndex key0 p value) = value /\
   forall k, 0 <= k < ValueIndex key0 p value -> ValueAt key0 p k <> value).
Proof.
  unfold ValueIndex.
  destruct (ValueIndex_from_spec p value (Z.to_nat (isize p)) 0 ltac:(lia))
    as [(Hr & Hall)|(Hr & Hv & Hall)].
  - left. split; [exact Hr|]. intros k Hk. apply Hall. lia.
  - right. split; [lia|]. split; [exact Hv|]. exact Hall.
Qed.

(** X12.  [ValueIndex] is a search for the first slot: it answers [-1]
    exactly when none of the [size] slots holds the value, and otherwise the
    index of the first slot that does. *)
Theorem value_index_finds_first_slot_or_minus_one p value :
  (ValueIndex key0 p value = -1 <->
   forall k, 0 <= k < isize p -> ValueAt key0 p k <> value) /\
  (ValueIndex key0 p value <> -1 ->
   0 <= ValueIndex key0 p value < isize p /\
   ValueAt key0 p (ValueIndex key0 p value) = value /\
   forall k, 0 <= k < ValueIndex key0 p value -> ValueAt key0 p k <> value).
Proof.
  destruct (ValueIndex_spec p value) as [(Hr & Hall)|(Hr & Hv & Hall)].
  - split.
    + split; [intros _; exact Hall | intros _; exact Hr].
    + intros Hne. contradiction.
  - split.
    + split; [lia|]. intros Hnone. exfalso. apply (Hnone _ Hr). exact Hv.
    + intros _. auto.
Qed.

Lemma InsertNodeAfter_slots p old_value new_key new_value :
  let idx := ValueIndex key0 p old_value + 1 in
  let p' := InsertNodeAfter key0 old_value new_key new_value p in
  0 <= idx <= Z.max 0 (isize p) /\
  isize p' = isize p + 1 /\
  forall j, slot key0 p' j =
    if j =? idx then (new_key, new_value)
    else if (idx <? j) && (j <=? isize p) then slot key0 p (j - 1)
    else slot key0 p j.
Proof.
  intros idx p'.
  assert (Hidx : 0 <= idx <= Z.max 0 (isize p)).
  { subst idx. destruct (ValueIndex_spec p old_value) as [(Hr & _)|(Hr & _)]; lia. }
  split; [exact Hidx|]. split; [reflexivity|].
  intros j. rewrite !slot_arr_get. subst p'. unfold InsertNodeAfter. fold idx.
  cbv zeta. unfold SetKeyValueAt, SetValueAt, SetKeyAt, iset_size, iset_array. simpl int_array.
  rewrite !arr_get_set by lia.
  unfold KeyAt, ValueAt. simpl int_array.
  rewrite !arr_get_set by lia. rewrite Z.eqb_refl. simpl fst.
  destruct (Z.eqb_spec j idx) as [->|Hne]; [reflexivity|].
  rewrite arr_get_memmove by lia.
  destruct (Z.ltb_spec idx j), (Z.leb_spec j (isize p)),
    (Z.leb_spec (idx + 1) j), (Z.ltb_spec j (idx + 1 + (isize p - idx)));
    cbn [andb]; try lia; try reflexivity.
  f_equal. lia.
Qed.

(** X13.  [InsertNodeAfter] puts the new pair in the slot after the first
    slot that holds [old_value], moves the slots above it up by one and adds
    one to the size; the slots below are as they were.  When no slot holds
    [old_value], [ValueIndex] answers [-1] and the new pair goes to slot 0,
    in front of every entry. *)
Theorem insert_node_after_shifts_upper_slots p old_value new_key new_value :
  let idx := ValueIndex key0 p old_value + 1 in
  let p' := InsertNodeAfter key0 old_value new_key new_value p in
  isize p' = isize p + 1 /\
  slot key0 p' idx = (new_key, new_value) /\
  (forall j, j < idx -> slot key0 p' j = slot key0 p j) /\
  (forall j, idx < j <= isize p -> slot key0 p' j = slot key0 p (j - 1)) /\
  ((forall k, 0 <= k < isize p -> ValueAt key0 p k <> old_value) -> idx = 0).
Proof.
  intros idx p'.
  destruct (InsertNodeAfter_slots p old_value new_key new_value) as (Hidx & Hsize & Hslots).
  fold idx in Hidx, Hslots. fold p' in Hsize, Hslots.
  split; [exact Hsize|]. split; [|split; [|split]].
  - rewrite Hslots, Z.eqb_refl. reflexivity.
  - intros j Hj. rewrite Hslots.
    destruct (Z.eqb_spec j idx); [lia|]. destruct (Z.ltb_spec idx j); [lia|]. reflexivity.
  - intros j Hj. rewrite Hslots.
    destruct (Z.eqb_spec j idx); [lia|].
    destruct (Z.ltb_spec idx j), (Z.leb_spec j (isize p)); try lia. reflexivity.
  - intros Hnone. subst idx.
    destruct (ValueIndex_spec p old_value) as [(Hr & _)|(Hr & Hv & _)]; [lia|].
    exfalso. apply (Hnone _ Hr). exact Hv.
Qed.

Lemma Remove_at_slots p index :
  0 <= index ->
  isize (Remove_at key0 index p) = isize p - 1 /\
  forall j, slot key0 (Remove_at key0 index p) j =
    if (index <=? j) && (j <? isize p - 1) then slot key0 p (j + 1) else slot key0 p j.
Proof.
  intros Hi. split; [reflexivity|].
  intros j. rewrite !slot_arr_get. unfold Remove_at. cbv zeta.
  unfold iset_size, iset_array. simpl int_array.
  rewrite arr_get_memmove by lia.
  destruct (Z.leb_spec index j), (Z.ltb_spec j (index + (isize p - index - 1))),
    (Z.ltb_spec j (isize p - 1)); cbn [andb]; try lia; try reflexivity.
  f_equal. lia.
Qed.

(** X14.  [Remove(index)] with [index] inside the page closes the gap: the
    slots from [index] up to the last but one take the entry of the slot
    above, the size drops by one, and the slots below [index] are as they
    were.  The slot that was last is not cleared: it still holds the entry
    that moved down. *)
Theorem remove_at_closes_gap p index :
  0 <= index < isize p ->
  let p' := Remove_at key0 index p in
  isize p' = isize p - 1 /\
  (forall j, j < index -> slot key0 p' j = slot key0 p j) /\
  (forall j, index <= j < isize p - 1 -> slot key0 p' j = slot key0 p (j + 1)) /\
  (forall j, isize p - 1 <= j -> slot key0 p' j = slot key0 p j).
Proof.
  intros [Hi Hlt] p'.
  destruct (Remove_at_slots p index Hi) as (Hsize & Hslots). fold p' in Hsize, Hslots.
  split; [exact Hsize|]. split; [|split]; intros j Hj; rewrite Hslots;
    destruct (Z.leb_spec index j), (Z.ltb_spec j (isize p - 1)); cbn [andb]; try lia; reflexivity.
Qed.

(** X15.  [Remove] undoes [InsertNodeAfter]: removing the slot the new pair
    was put in gives back the size and every entry below it. *)
Theorem remove_undoes_insert_node_after p old_value new_key new_value :
  let idx := ValueIndex key0 p old_value + 1 in
  let p' := Remove_at key0 idx (InsertNodeAfter key0 old_value new_key new_value p) in
  isize p' = isize p /\
  int_hdr p' = int_hdr p /\
  forall j, j < isize p -> slot key0 p' j = slot key0 p j.
Proof.
  intros idx p'.
  destruct (InsertNodeAfter_slots p old_value new_key new_value) as (Hidx & Hsize & Hslots).
  fold idx in Hidx, Hslots.
  destruct (Remove_at_slots (InsertNodeAfter key0 old_value new_key new_value p) idx
              ltac:(lia)) as (Hsize' & Hslots').
  fold p' in Hsize', Hslots'.
  assert (Hsz : isize p' = isize p) by lia.
  split; [exact Hsz|]. split.
  - subst p'. unfold Remove_at, InsertNodeAfter, iset_size, iset_array, set_size, isize.
    cbv zeta. simpl. destruct p as [[s m pa pi] a]. simpl. f_equal. lia.
  - intros j Hj. rewrite Hslots', !Hslots, Hsize.
    destruct (Z.leb_spec idx j), (Z.ltb_spec j (isize p + 1 - 1)); cbn [andb]; try lia.
    + destruct (Z.eqb_spec (j + 1) idx); [lia|].
      destruct (Z.ltb_spec idx (j + 1)), (Z.leb_spec (j + 1) (isize p)); cbn [andb]; try lia.
      f_equal. lia.
    + destruct (Z.eqb_spec j idx); [lia|].
      destruct (Z.ltb_spec idx j); cbn [andb]; [lia | reflexivity].
Qed.

Lemma PopulateNewRoot_Lookup p old_value new_key new_value key :
  let root := PopulateNewRoot key0 old_value new_key new_value p in
  isize root = 2 /\
  ValueAt key0 root 0 = old_value /\ KeyAt key0 root 1 = new_key /\
  ValueAt key0 root 1 = new_value /\
  Lookup comparator key0 root key =
    if 0 <? comparator new_key key then old_value else new_value.
Proof.
  intros root.
  assert (H0 : ValueAt key0 root 0 = old_value /\ slot key0 root 1 = (new_key, new_value)).
  { rewrite slot_arr_get. subst root.
    unfold PopulateNewRoot, SetKeyAt, SetValueAt, ValueAt, KeyAt, iset_size, iset_array.
    simpl int_array. rewrite !arr_get_set by lia. simpl. split; reflexivity. }
  destruct H0 as [Hv0 Hs1]. unfold slot in Hs1. injection Hs1 as Hk1 Hv1.
  split; [reflexivity|]. split; [exact Hv0|]. split; [exact Hk1|]. split; [exact Hv1|].
  unfold Lookup. change (isize root) with 2. change (Z.to_nat (2 - 1)) with 1%nat.
  cbn [Lookup_loop]. change (1 <? 2) with true. cbv iota.
  change (Z.shiftr (2 - 1) 1 + 1) with 1. rewrite Hk1.
  destruct (0 <? comparator new_key key).
  - change (1 - 1) with 0. exact Hv0.
  - change (1 + 1 - 1) with 1. exact Hv1.
Qed.

(** X16.  A root made by [PopulateNewRoot] has two children and [Lookup]
    tells them apart by the separator: keys the comparator puts below
    [new_key] go to [old_value], all others to [new_value]. *)
Theorem lookup_in_populated_root p old_value new_key new_value key :
  let root := PopulateNewRoot key0 old_value new_key new_value p in
  isize root = 2 /\
  ValueAt key0 root 0 = old_value /\ KeyAt key0 root 1 = new_key /\
  ValueAt key0 root 1 = new_value /\
  Lookup comparator key0 root key =
    if 0 <? comparator new_key key then old_value else new_value.
Proof. apply PopulateNewRoot_Lookup. Qed.

End InternalPageFacts.

Lemma remove_at_closes_gap_witness :
  let p := mkInternal (mkHdr 3 4 (-1) 5) [(0, 10); (7, 11); (9, 12)] in
  let p' := Remove_at 0 1 p in
  isize p' = 2 /\ slot 0 p' 0 = (0, 10) /\ slot 0 p' 1 = (9, 12) /\ slot 0 p' 2 = (9, 12).
Proof.
  intros p p'.
  destruct (remove_at_closes_gap 0 p 1) as (H1 & H2 & H3 & H4);
    [unfold p, isize; simpl; lia|].
  fold p' in H1, H2, H3, H4.
  split; [exact H1|]. split; [apply (H2 0); lia|].
  split; [apply (H3 1); unfold p, isize; simpl; lia|].
  apply (H4 2). unfold p, isize. simpl. lia.
Defined.
(** ** index_iterator.cpp: construction and stepping *)

Section IteratorSteps.
Context {KeyType ValueType : Type}.
Implicit Types (b : BufferPoolManager (PageData KeyType ValueType)) (it : IndexIterator).

Lemma WrapFetchPage_result b page_id :
  WrapFetchPage page_id b =
    match FetchPageImpl Zeroed page_id b with
    | (Some f, b') => Ok f b'
    | (None, b') => Throw "out of memory" b'
    end.
Proof.
  unfold WrapFetchPage, FetchPage, run_pair, mbind, M_bind.
  destruct (FetchPageImpl Zeroed page_id b) as [[f|] b']; reflexivity.
Qed.

Lemma IndexIterator_new_result b page_id index :
  IndexIterator_new page_id index b =
    match FetchPageImpl Zeroed page_id b with
    | (None, b') => Throw "out of memory" b'
    | (Some f, b') =>
        match data_ (page_at Zeroed b' f) with
        | LeafData _ => Ok (mkIter index (Some f)) b'
        | InternalData _ => Throw "should provide valid leaf page id" b'
        | _ => Fault
        end
    end.
Proof.
  unfold IndexIterator_new. unfold mbind at 1. unfold M_bind.
  rewrite WrapFetchPage_result.
  destruct (FetchPageImpl Zeroed page_id b) as [[f|] b']; [|reflexivity].
  unfold IsLeafPage, GetData, gets, mbind, M_bind, mret, M_ret.
  destruct (data_ (page_at Zeroed b' f)); reflexivity.
Qed.

(** X17.  The iterator's constructor fetches the page and keeps it pinned
    whatever it finds.  A leaf gives the iterator; a pool that cannot supply
    a frame gives "out of memory"; an internal page gives "should provide
    valid leaf page id", and the page the constructor fetched is left with
    the pin it took: nothing unpins it. *)
Theorem iterator_constructor_pins_page_even_when_it_throws b page_id index :
  pool_inv Zeroed b ->
  match FetchPageImpl Zeroed page_id b with
  | (None, b') =>
      IndexIterator_new page_id index b = Throw "out of memory" b' /\ b' = b
  | (Some f, b') =>
      pin_count_ (page_at Zeroed b' f) = pin_count_ (page_at Zeroed b f) + 1 /\
      match data_ (page_at Zeroed b' f) with
      | LeafData _ => IndexIterator_new page_id index b = Ok (mkIter index (Some f)) b'
      | InternalData _ =>
          IndexIterator_new page_id index b = Throw "should provide valid leaf page id" b'
      | _ => IndexIterator_new page_id index b = Fault
      end
  end.
Proof.
  intros Hinv. rewrite IndexIterator_new_result.
  destruct (FetchPageImpl Zeroed page_id b) as [[f|] b'] eqn:Hfetch.
  - destruct (FetchPageImpl_success Zeroed b page_id f b' Hinv Hfetch)
      as (_ & _ & _ & Hpin & _).
    split; [exact Hpin|].
    destruct (data_ (page_at Zeroed b' f)); reflexivity.
  - split; [reflexivity|].
    destruct (FetchPageImpl_cases Zeroed b page_id Hinv)
      as [(f0 & _ & _ & Heq)|[(f0 & rest & _ & _ & _ & Heq)|
          [(v & r' & _ & _ & _ & _ & _ & Heq)|(_ & _ & _ & Heq)]]];
      cbv zeta in Heq; rewrite Heq in Hfetch; try discriminate.
    injection Hfetch as <-. reflexivity.
Qed.

Lemma isEnd_leaf b it f l :
  leaf_page_ it = Some f -> data_ (page_at Zeroed b f) = LeafData l ->
  isEnd it b = Ok ((next_page_id_' l =? INVALID_PAGE_ID) && (index_ it =? lsize l - 1)) b.
Proof.
  intros Hit Hd. unfold isEnd. rewrite Hit.
  rewrite (bind_Ok _ _ _ _ _ (as_leaf_leaf b f l Hd)). reflexivity.
Qed.

Lemma advance_steps_in_leaf b it f l :
  leaf_page_ it = Some f -> data_ (page_at Zeroed b f) = LeafData l ->
  (index_ it < lsize l - 1 ->
   advance it b = Ok (mkIter (index_ it + 1) (Some f)) b) /\
  (next_page_id_' l = INVALID_PAGE_ID -> index_ it = lsize l - 1 ->
   isEnd it b = Ok true b /\
   advance it b = Ok (mkIter (lsize l) (Some f)) b /\
   isEnd (mkIter (lsize l) (Some f)) b = Ok false b).
Proof.
  intros Hit Hd. split.
  - intros Hlt. unfold advance.
    rewrite (bind_Ok _ _ _ _ _ (isEnd_leaf b it f l Hit Hd)).
    destruct (Z.eqb_spec (index_ it) (lsize l - 1)) as [He|_]; [lia|].
    rewrite andb_false_r. rewrite Hit.
    rewrite (bind_Ok _ _ _ _ _ (as_leaf_leaf b f l Hd)).
    destruct (Z.ltb_spec (index_ it) (lsize l - 1)) as [_|Hge]; [reflexivity | lia].
  - intros Hnext Hidx.
    assert (He : isEnd it b = Ok true b).
    { rewrite (isEnd_leaf b it f l Hit Hd), Hnext, Hidx, !Z.eqb_refl. reflexivity. }
    split; [exact He|]. split.
    + unfold advance. rewrite (bind_Ok _ _ _ _ _ He). rewrite Hit, Hidx.
      replace (lsize l - 1 + 1) with (lsize l) by lia. reflexivity.
    + rewrite (isEnd_leaf b (mkIter (lsize l) (Some f)) f l eq_refl Hd). simpl index_.
      destruct (Z.eqb_spec (lsize l) (lsize l - 1)) as [Hc|_]; [lia|].
      rewrite andb_false_r. reflexivity.
Qed.


(** X18.  [operator++] inside a leaf only moves the index: below the last
    entry it adds one and leaves the pool alone.  On the last entry of the
    last leaf, where [isEnd] holds, it adds one as well; the iterator then
    stands one past the last entry of a leaf it still holds, and [isEnd] no
    longer holds there. *)
Theorem advance_within_leaf_and_past_the_end b it f l :
  leaf_page_ it = Some f -> data_ (page_at Zeroed b f) = LeafData l ->
  (index_ it < lsize l - 1 ->
   advance it b = Ok (mkIter (index_ it + 1) (Some f)) b) /\
  (next_page_id_' l = INVALID_PAGE_ID -> index_ it = lsize l - 1 ->
   isEnd it b = Ok true b /\
   advance it b = Ok (mkIter (lsize l) (Some f)) b /\
   isEnd (mkIter (lsize l) (Some f)) b = Ok false b).
Proof. apply advance_steps_in_leaf. Qed.

End IteratorSteps.


(** ** b_plus_tree.cpp: the empty tree and the first insert *)

Section SameContents.
Context {Data : Type} (zero : Data).
Implicit Types (b : BufferPoolManager Data).

Lemma same_contents_refl b : same_contents zero b b.
Proof. unfold same_contents. auto. Qed.

Lemma same_contents_trans b1 b2 b3 :
  same_contents zero b1 b2 -> same_contents zero b2 b3 -> same_contents zero b1 b3.
Proof.
  intros (H1 & H2 & Hd1 & H3) (H4 & H5 & Hd2 & H6). unfold same_contents.
  split; [congruence|]. split; [congruence|]. split; [congruence|].
  intros g. rewrite H6. apply H3.
Qed.

Lemma same_contents_store b x p pt fl r dm :
  pt = page_table_ b -> dm = disk_manager_ b -> data_ p = data_ (page_at zero b x) ->
  same_contents zero b (mkBPM (pool_size_ b) (<[Z.to_nat x := p]> (pages_ b)) pt fl r dm).
Proof.
  intros -> -> Hp. unfold same_contents. simpl.
  split; [reflexivity|]. split; [apply length_insert|]. split; [reflexivity|].
  intros g. unfold page_at in *. simpl.
  destruct (decide (Z.to_nat g = Z.to_nat x)) as [He|Hne].
  - rewrite He. destruct (lt_dec (Z.to_nat x) (length (pages_ b))) as [Hlt|Hge].
    + rewrite list_lookup_insert_eq by exact Hlt. simpl. exact Hp.
    + rewrite !(lookup_ge_None_2) by (rewrite ?length_insert; lia). reflexivity.
  - rewrite list_lookup_insert_ne by congruence. reflexivity.
Qed.

Lemma same_contents_UnpinPageImpl b page_id is_dirty :
  same_contents zero b (snd (UnpinPageImpl zero page_id is_dirty b)).
Proof.
  unfold UnpinPageImpl. destruct (page_table_ b !! page_id) as [f|];
    [|apply same_contents_refl].
  destruct (pin_count_ (page_at zero b f) <=? 0); [apply same_contents_refl|].
  unfold set_replacer, set_page. simpl. apply same_contents_store; reflexivity.
Qed.

Lemma FetchPageImpl_resident b page_id f :
  page_table_ b !! page_id = Some f ->
  fst (FetchPageImpl zero page_id b) = Some f /\
  same_contents zero b (snd (FetchPageImpl zero page_id b)).
Proof.
  intros Hf. unfold FetchPageImpl. unfold frame_id_t, page_id_t in *. rewrite Hf.
  split; [reflexivity|]. unfold set_replacer, set_page. simpl.
  apply same_contents_store; reflexivity.
Qed.

Lemma same_contents_frame_ok b b' f :
  same_contents zero b b' -> frame_ok b f -> frame_ok b' f.
Proof. intros (_ & Hlen & _) Hok. unfold frame_ok in *. rewrite Hlen. exact Hok. Qed.

End SameContents.
Section EmptyTreeAndFirstInsert.
Context {KeyType ValueType : Type}.
Context (comparator : KeyType -> KeyType -> Z) (key0 : KeyType) (val0 : ValueType).
Implicit Types (t : BPlusTree KeyType ValueType)
               (b : BufferPoolManager (PageData KeyType ValueType)).

Lemma set_bpm_same t : set_bpm (buffer_pool_manager_ t) t = t.
Proof. destruct t; reflexivity. Qed.

Lemma FetchPage_resident b page_id f :
  page_table_ b !! page_id = Some f ->
  FetchPage page_id b = Ok (Some f) (snd (FetchPageImpl Zeroed page_id b)).
Proof.
  intros Hf. destruct (FetchPageImpl_resident Zeroed b page_id f Hf) as [Hfst _].
  unfold FetchPage, run_pair.
  destruct (FetchPageImpl Zeroed page_id b) as [r b']. simpl in *. subst r. reflexivity.
Qed.

Lemma UnpinPage_Ok b page_id is_dirty :
  UnpinPage page_id is_dirty b =
    Ok (fst (UnpinPageImpl Zeroed page_id is_dirty b)) (snd (UnpinPageImpl Zeroed page_id is_dirty b)).
Proof.
  unfold UnpinPage, run_pair. destruct (UnpinPageImpl Zeroed page_id is_dirty b); reflexivity.
Qed.

Lemma GetBPlusPage_resident t page_id f :
  page_table_ (buffer_pool_manager_ t) !! page_id = Some f ->
  GetBPlusPage page_id t =
    Ok f (set_bpm (snd (FetchPageImpl Zeroed page_id (buffer_pool_manager_ t))) t).
Proof.
  intros Hf. unfold GetBPlusPage. apply liftB_Ok.
  rewrite (bind_Ok _ _ _ _ _ (FetchPage_resident _ page_id f Hf)). reflexivity.
Qed.

Lemma IsLeafPage_leaf b f l :
  data_ (page_at Zeroed b f) = LeafData l -> IsLeafPage f b = Ok true b.
Proof.
  intros Hd. unfold IsLeafPage, GetData, gets, mbind, M_bind, mret, M_ret.
  rewrite Hd. reflexivity.
Qed.

Lemma descend_leaf fuel key t f l :
  data_ (page_at Zeroed (buffer_pool_manager_ t) f) = LeafData l ->
  descend comparator key0 fuel key f t = Ok f t.
Proof.
  intros Hd.
  assert (H : liftB (IsLeafPage f) t = Ok true t).
  { rewrite (liftB_Ok _ _ _ _ (IsLeafPage_leaf _ f l Hd)). rewrite set_bpm_same. reflexivity. }
  destruct fuel; cbn [descend]; rewrite (bind_Ok _ _ _ _ _ H); reflexivity.
Qed.

(** [GetValue] on a tree whose root is a leaf the pool holds. *)
Lemma GetValue_root_leaf fuel key t f l :
  root_page_id_ t <> INVALID_PAGE_ID ->
  page_table_ (buffer_pool_manager_ t) !! root_page_id_ t = Some f ->
  data_ (page_at Zeroed (buffer_pool_manager_ t) f) = LeafData l ->
  exists t',
    GetValue comparator key0 val0 fuel key t = Ok (Leaf_Lookup comparator key0 val0 l key) t' /\
    root_page_id_ t' = root_page_id_ t /\
    same_contents Zeroed (buffer_pool_manager_ t) (buffer_pool_manager_ t').
Proof.
  intros Hroot Hf Hd.
  set (b0 := buffer_pool_manager_ t).
  set (b1 := snd (FetchPageImpl Zeroed (root_page_id_ t) b0)).
  destruct (FetchPageImpl_resident Zeroed b0 _ f Hf) as [_ Hsame1]. fold b1 in Hsame1.
  assert (Hd1 : data_ (page_at Zeroed b1 f) = LeafData l).
  { destruct Hsame1 as (_ & _ & _ & Hdata). rewrite Hdata. exact Hd. }
  set (pid := tree_page_id_ (leaf_hdr l)).
  set (b2 := snd (UnpinPageImpl Zeroed pid false b1)).
  pose proof (same_contents_UnpinPageImpl Zeroed b1 pid false) as Hsame2. fold b2 in Hsame2.
  exists (set_bpm b2 (set_bpm b1 t)). split; [|split].
  - unfold GetValue.
    erewrite bind_Ok by reflexivity.
    unfold IsEmpty. rewrite (proj2 (Z.eqb_neq _ _) Hroot).
    erewrite bind_Ok by reflexivity.
    rewrite (bind_Ok _ _ _ _ _ (GetBPlusPage_resident t _ f Hf)). fold b0 b1.
    rewrite (bind_Ok _ _ _ _ _ (descend_leaf fuel key (set_bpm b1 t) f l Hd1)).
    erewrite bind_Ok by (apply liftB_Ok, as_leaf_leaf; exact Hd1).
    erewrite bind_Ok.
    2:{ apply liftB_Ok. simpl buffer_pool_manager_.
        rewrite (bind_Ok _ _ _ _ _ (GetPageId_leaf b1 f l Hd1)). apply UnpinPage_Ok. }
    reflexivity.
  - reflexivity.
  - simpl. apply (same_contents_trans Zeroed b0 b1 b2); assumption.
Qed.

Lemma Leaf_Lookup_single key value key' page_id parent_id max_size :
  Leaf_Lookup comparator key0 val0
    (Leaf_Insert comparator key value (Leaf_Init page_id parent_id max_size)) key' =
  if comparator key key' =? 0 then Some value else None.
Proof.
  unfold Leaf_Lookup, Leaf_Insert, Leaf_Init, lset_entries, lsize. simpl.
  change (Z.shiftr (1 - 0) 1 + 0) with 0.
  unfold Leaf_KeyAt, Leaf_GetItem. simpl.
  destruct (comparator key key' =? 0); [reflexivity|].
  destruct (0 <? comparator key key'); reflexivity.
Qed.

Lemma UpdateRootPageId_resident_header t h (recs : list (string * page_id_t)) :
  page_table_ (buffer_pool_manager_ t) !! HEADER_PAGE_ID = Some h ->
  frame_ok (buffer_pool_manager_ t) h ->
  data_ (page_at Zeroed (buffer_pool_manager_ t) h) = Zeroed \/
  (exists recs, data_ (page_at Zeroed (buffer_pool_manager_ t) h) = HeaderData recs) ->
  exists t',
    UpdateRootPageId 0 t = Ok tt t' /\
    root_page_id_ t' = root_page_id_ t /\
    page_table_ (buffer_pool_manager_ t') = page_table_ (buffer_pool_manager_ t) /\
    forall g, 0 <= g -> g <> h ->
      data_ (page_at Zeroed (buffer_pool_manager_ t') g)
      = data_ (page_at Zeroed (buffer_pool_manager_ t) g).
Proof.
  intros Hh Hok Hdata.
  set (b0 := buffer_pool_manager_ t) in *.
  set (b1 := snd (FetchPageImpl Zeroed HEADER_PAGE_ID b0)).
  destruct (FetchPageImpl_resident Zeroed b0 _ h Hh) as [_ Hsame1]. fold b1 in Hsame1.
  pose proof Hsame1 as (Hpt1 & Hlen1 & _ & Hd1).
  assert (Hok1 : frame_ok b1 h) by (apply (same_contents_frame_ok Zeroed b0); assumption).
  assert (Hstep : forall X : PageData KeyType ValueType,
            let b2 := write_data Zeroed h X b1 in
            let b3 := snd (UnpinPageImpl Zeroed HEADER_PAGE_ID true b2) in
            page_table_ b3 = page_table_ b0 /\
            forall g, 0 <= g -> g <> h ->
              data_ (page_at Zeroed b3 g) = data_ (page_at Zeroed b0 g)).
  { intros X b2 b3.
    pose proof (same_contents_UnpinPageImpl Zeroed b2 HEADER_PAGE_ID true) as (Hpt3 & _ & _ & Hd3).
    fold b3 in Hpt3, Hd3. split.
    - rewrite Hpt3. exact Hpt1.
    - intros g Hg Hne. rewrite Hd3. unfold b2.
      rewrite page_at_write_data_ne by (try apply Hok; try assumption; congruence).
      apply Hd1. }
  assert (Hfetch : liftB (FetchPage HEADER_PAGE_ID) t = Ok (Some h) (set_bpm b1 t))
    by (apply liftB_Ok, FetchPage_resident; exact Hh).
  unfold UpdateRootPageId.
  rewrite (bind_Ok _ _ _ _ _ Hfetch).
  erewrite bind_Ok by reflexivity. erewrite bind_Ok by reflexivity.
  erewrite bind_Ok by (apply liftB_Ok, GetData_Ok).
  simpl buffer_pool_manager_. rewrite Hd1. fold b0.
  destruct Hdata as [Hz|(recs0 & Hr)]; [rewrite Hz | rewrite Hr].
  - erewrite bind_Ok by (apply liftB_Ok, SetData_Ok).
    erewrite bind_Ok by (apply liftB_Ok, UnpinPage_Ok).
    eexists. split; [reflexivity|]. split; [reflexivity|]. simpl. apply Hstep.
  - erewrite bind_Ok by (apply liftB_Ok, SetData_Ok).
    erewrite bind_Ok by (apply liftB_Ok, UnpinPage_Ok).
    eexists. split; [reflexivity|]. split; [reflexivity|]. simpl. apply Hstep.
Qed.

(** The first [Insert]: [StartNewTree] on a pool that has a free frame and
    holds the header page. *)
Lemma Insert_first fuel key value t f rest h :
  root_page_id_ t = INVALID_PAGE_ID ->
  pool_inv Zeroed (buffer_pool_manager_ t) ->
  free_list_ (buffer_pool_manager_ t) = f :: rest ->
  page_table_ (buffer_pool_manager_ t) !! HEADER_PAGE_ID = Some h ->
  data_ (page_at Zeroed (buffer_pool_manager_ t) h) = Zeroed \/
  (exists recs, data_ (page_at Zeroed (buffer_pool_manager_ t) h) = HeaderData recs) ->
  let id := next_page_id_ (disk_manager_ (buffer_pool_manager_ t)) in
  let leaf := Leaf_Insert comparator key value
                (Leaf_Init id INVALID_PAGE_ID (leaf_max_size_ t)) in
  exists t',
    Insert comparator key0 val0 fuel key value t = Ok true t' /\
    root_page_id_ t' = id /\ id <> INVALID_PAGE_ID /\
    page_table_ (buffer_pool_manager_ t') !! id = Some f /\
    data_ (page_at Zeroed (buffer_pool_manager_ t') f) = LeafData leaf.
Proof.
  intros Hroot Hinv Hfl Hh Hhd id leaf.
  set (b0 := buffer_pool_manager_ t) in *.
  pose proof Hinv as (Hwf & Hnd & Hfree & Hrep & Htab).
  destruct (Htab _ _ Hh) as (Hokh & Hhfree & _ & Hlt). fold id in Hlt.
  assert (Hid0 : id <> HEADER_PAGE_ID) by (unfold HEADER_PAGE_ID in *; lia).
  assert (Hidv : id <> INVALID_PAGE_ID) by (unfold HEADER_PAGE_ID, INVALID_PAGE_ID in *; lia).
  assert (Hfin : f ∈ free_list_ b0) by (rewrite Hfl; left).
  destruct (Hfree f Hfin) as [Hokf Hzero].
  assert (Hfh : f <> h) by (intros ->; contradiction).
  destruct (NewPageImpl_cases Zeroed b0 Hinv)
    as [(Hc & _)|[(f1 & rest1 & Hfl1 & _ & Hnew)|(v & r' & Hc & _)]];
    [congruence| |congruence].
  cbv zeta in Hnew. fold id in Hnew.
  assert (f1 = f) by congruence. subst f1.
  match type of Hnew with _ = (_, ?bb) => set (b1 := bb) in * end.
  assert (Hok1 : frame_ok b1 f) by (unfold frame_ok, b1; simpl; rewrite length_insert; apply Hokf).
  assert (Hokh1 : frame_ok b1 h)
    by (unfold frame_ok, b1; simpl; rewrite length_insert; apply Hokh).
  assert (Hz1 : data_ (page_at Zeroed b1 f) = Zeroed).
  { unfold b1. rewrite (page_at_stored Zeroed b0 f f) by (try exact Hokf; apply Hokf).
    rewrite decide_True by reflexivity. simpl. exact Hzero. }
  assert (Hh1 : page_at Zeroed b1 h = page_at Zeroed b0 h).
  { unfold b1. rewrite (page_at_stored Zeroed b0 f h) by (try exact Hokf; apply Hokh).
    rewrite decide_False by congruence. reflexivity. }
  set (init := Leaf_Init id INVALID_PAGE_ID (leaf_max_size_ t) : LeafPage KeyType ValueType).
  set (b2 := write_data Zeroed f (LeafData init) b1).
  set (b3 := write_data Zeroed f (LeafData leaf) b2).
  set (b4 := snd (UnpinPageImpl Zeroed id true b3)).
  assert (Hok2 : frame_ok b2 f) by (apply frame_ok_write_data; exact Hok1).
  assert (Hd2 : data_ (page_at Zeroed b2 f) = LeafData init)
    by (apply data_write_data_eq; exact Hok1).
  assert (Hd3 : data_ (page_at Zeroed b3 f) = LeafData leaf)
    by (apply data_write_data_eq; exact Hok2).
  assert (Hh3 : page_at Zeroed b3 h = page_at Zeroed b0 h).
  { unfold b3, b2. rewrite !page_at_write_data_ne by (try apply Hokf; try apply Hokh; exact Hfh).
    exact Hh1. }
  pose proof (same_contents_UnpinPageImpl Zeroed b3 id true) as (Hpt4 & Hlen4 & _ & Hd4).
  fold b4 in Hpt4, Hlen4, Hd4.
  assert (Hpt3 : page_table_ b3 = <[id := f]> (page_table_ b0)) by reflexivity.
  set (t4 := set_root id (set_bpm b4 (set_bpm b3 (set_bpm b2 (set_bpm b1 t))))).
  destruct (UpdateRootPageId_resident_header t4 h [])
    as (t' & Hupd & Hroot' & Hpt' & Hd').
  { simpl. rewrite Hpt4, Hpt3. rewrite lookup_insert_ne by exact Hid0. exact Hh. }
  { simpl. unfold frame_ok in *. rewrite Hlen4. unfold b3, b2, write_data, set_page. simpl.
    rewrite !length_insert. apply Hokh. }
  { simpl. rewrite Hd4, Hh3. exact Hhd. }
  exists t'. split; [|split; [|split; [|split]]].
  - unfold Insert.
    erewrite bind_Ok by reflexivity.
    unfold IsEmpty. rewrite Hroot. rewrite Z.eqb_refl.
    assert (Hstart : StartNewTree comparator key value t = Ok tt t').
    { unfold StartNewTree.
      erewrite bind_Ok by (apply liftB_Ok, WrapNewPage_Ok; exact Hnew).
      cbv beta iota.
      erewrite bind_Ok by reflexivity.
      erewrite bind_Ok by (apply liftB_Ok, Leaf_Init_at_zeroed; exact Hz1).
      erewrite bind_Ok by (apply liftB_Ok, (upd_leaf_Ok _ f init); exact Hd2).
      erewrite bind_Ok by (apply liftB_Ok, UnpinPage_Ok).
      erewrite bind_Ok by reflexivity.
      exact Hupd. }
    rewrite (bind_Ok _ _ _ _ _ Hstart). reflexivity.
  - rewrite Hroot'. reflexivity.
  - exact Hidv.
  - rewrite Hpt'. simpl. rewrite Hpt4, Hpt3. apply lookup_insert_eq.
  - rewrite Hd' by (try apply Hokf; exact Hfh). simpl. rewrite Hd4. exact Hd3.
Qed.

(** X19.  The empty tree.  [GetValue] finds nothing and [Remove] does
    nothing, and neither touches the pool.  [Insert] has to allocate the
    first leaf: on a pool with no free frame and no eviction candidate it
    throws "out of memory", and the tree and the pool stay as they were. *)
Theorem empty_tree_reads_nothing_and_needs_a_frame fuel key value t :
  root_page_id_ t = INVALID_PAGE_ID ->
  GetValue comparator key0 val0 fuel key t = Ok None t /\
  Remove comparator key0 val0 fuel key t = Ok tt t /\
  (pool_inv Zeroed (buffer_pool_manager_ t) ->
   free_list_ (buffer_pool_manager_ t) = [] ->
   frame_ids (replacer_ (buffer_pool_manager_ t)) = [] ->
   Insert comparator key0 val0 fuel key value t = Throw "out of memory" t).
Proof.
  intros Hroot. split; [|split].
  - unfold GetValue. erewrite bind_Ok by reflexivity.
    unfold IsEmpty. rewrite Hroot. reflexivity.
  - unfold Remove, FindLeafPage.
    unfold mbind at 1. unfold M_bind at 1.
    erewrite bind_Ok by reflexivity.
    unfold IsEmpty. rewrite Hroot. reflexivity.
  - intros Hinv Hfl He.
    destruct (NewPageImpl_cases Zeroed _ Hinv)
      as [(_ & _ & Hnew)|[(f1 & rest1 & Hc & _)|(v & r' & _ & Hv & _)]].
    + unfold Insert. erewrite bind_Ok by reflexivity.
      unfold IsEmpty. rewrite Hroot. rewrite Z.eqb_refl.
      unfold StartNewTree, liftB, WrapNewPage, NewPage, run_pair, mbind, M_bind.
      rewrite Hnew. clear. destruct t; reflexivity.
    + congruence.
    + pose proof Hinv as (Hwf & _). rewrite (Victim_empty _ Hwf He) in Hv. discriminate.
Qed.

(** X20.  The first insert and what follows it.  On an empty tree whose
    pool has a free frame and holds the header page, [Insert] returns [true]
    and makes the page the disk manager allocates the root.  Right after it
    [GetValue] of the key returns the value, [GetValue] of a key the
    comparator tells apart from it returns nothing, and a second [Insert] of
    the key returns [false]. *)
Theorem first_insert_then_get_value fuel key value t f rest h :
  root_page_id_ t = INVALID_PAGE_ID ->
  pool_inv Zeroed (buffer_pool_manager_ t) ->
  free_list_ (buffer_pool_manager_ t) = f :: rest ->
  page_table_ (buffer_pool_manager_ t) !! HEADER_PAGE_ID = Some h ->
  data_ (page_at Zeroed (buffer_pool_manager_ t) h) = Zeroed \/
  (exists recs, data_ (page_at Zeroed (buffer_pool_manager_ t) h) = HeaderData recs) ->
  comparator key key = 0 ->
  exists t1,
    Insert comparator key0 val0 fuel key value t = Ok true t1 /\
    root_page_id_ t1 = next_page_id_ (disk_manager_ (buffer_pool_manager_ t)) /\
    (exists t2, GetValue comparator key0 val0 fuel key t1 = Ok (Some value) t2) /\
    (forall key', comparator key key' <> 0 ->
       exists t2, GetValue comparator key0 val0 fuel key' t1 = Ok None t2) /\
    (forall value', exists t2, Insert comparator key0 val0 fuel key value' t1 = Ok false t2).
Proof.
  intros Hroot Hinv Hfl Hh Hhd Hcmp.
  destruct (Insert_first fuel key value t f rest h Hroot Hinv Hfl Hh Hhd)
    as (t1 & Hins & Hroot1 & Hvalid & Hpt1 & Hd1).
  exists t1. split; [exact Hins|]. split; [exact Hroot1|].
  rewrite <- Hroot1 in Hvalid, Hpt1.
  split; [|split].
  - destruct (GetValue_root_leaf fuel key t1 f _ Hvalid Hpt1 Hd1) as (t2 & Hget & _).
    exists t2. rewrite Hget, Leaf_Lookup_single, Hcmp. reflexivity.
  - intros key' Hne.
    destruct (GetValue_root_leaf fuel key' t1 f _ Hvalid Hpt1 Hd1) as (t2 & Hget & _).
    exists t2. rewrite Hget, Leaf_Lookup_single.
    rewrite (proj2 (Z.eqb_neq _ _) Hne). reflexivity.
  - intros value'.
    set (b1 := snd (FetchPageImpl Zeroed (root_page_id_ t1) (buffer_pool_manager_ t1))).
    destruct (FetchPageImpl_resident Zeroed (buffer_pool_manager_ t1) _ f Hpt1)
      as [_ (_ & _ & _ & Hsame)].
    fold b1 in Hsame.
    assert (Hdb : data_ (page_at Zeroed b1 f) = LeafData
                    (Leaf_Insert comparator key value
                       (Leaf_Init (next_page_id_ (disk_manager_ (buffer_pool_manager_ t)))
                          INVALID_PAGE_ID (leaf_max_size_ t))))
      by (rewrite Hsame; exact Hd1).
    exists (set_bpm b1 t1).
    unfold Insert. erewrite bind_Ok by reflexivity.
    unfold IsEmpty. rewrite (proj2 (Z.eqb_neq _ _) Hvalid).
    unfold InsertIntoLeaf.
    erewrite bind_Ok by reflexivity.
    rewrite (bind_Ok _ _ _ _ _ (GetBPlusPage_resident t1 _ f Hpt1)). fold b1.
    rewrite (bind_Ok _ _ _ _ _ (descend_leaf fuel key (set_bpm b1 t1) f _ Hdb)).
    erewrite bind_Ok by (apply liftB_Ok, as_leaf_leaf; exact Hdb).
    rewrite Leaf_Lookup_single, Hcmp. reflexivity.
Qed.

End EmptyTreeAndFirstInsert.

Lemma empty_tree_reads_nothing_and_needs_a_frame_witness :
  let t := test_tree 1 4 4 in
  GetValue cmpZ 0 0 10 5 t = Ok None t /\
  Insert cmpZ 0 0 10 5 50 t = Throw "out of memory" t.
Proof.
  intros t.
  destruct (empty_tree_reads_nothing_and_needs_a_frame cmpZ 0 0 10 5 50 t) as (H1 & _ & H2).
  - reflexivity.
  - split; [exact H1|]. apply H2.
    + apply pool_inv_NewPageImpl, pool_inv_new. lia.
    + reflexivity.
    + reflexivity.
Defined.

Lemma first_insert_then_get_value_witness :
  exists t1,
    Insert cmpZ 0 0 10 5 50 (test_tree 3 4 4) = Ok true t1 /\
    root_page_id_ t1 = 1 /\
    (exists t2, GetValue cmpZ 0 0 10 5 t1 = Ok (Some 50) t2).
Proof.
  destruct (first_insert_then_get_value cmpZ 0 0 10 5 50 (test_tree 3 4 4) 1 [2] 0)
    as (t1 & H1 & H2 & H3 & _).
  - reflexivity.
  - apply pool_inv_NewPageImpl, pool_inv_new. lia.
  - reflexivity.
  - reflexivity.
  - left. reflexivity.
  - reflexivity.
  - exists t1. split; [exact H1|]. split; [exact H2 | exact H3].
Defined.
Lemma iterator_constructor_pins_page_even_when_it_throws_witness :
  let b := write_data Zeroed 0 (InternalData (mkInternal (mkHdr 2 4 (-1) 0) [(0, 1); (5, 2)]))
             (test_pool 2) in
  let b' := snd (FetchPageImpl Zeroed 0 b) in
  pin_count_ (page_at Zeroed b' 0) = pin_count_ (page_at Zeroed b 0) + 1 /\
  IndexIterator_new 0 0 b = Throw "should provide valid leaf page id" b'.
Proof.
  intros b b'.
  assert (Hinv : pool_inv Zeroed b).
  { apply (pool_inv_write_data Zeroed _ 0 _ 0); [|reflexivity].
    apply pool_inv_NewPageImpl, pool_inv_new. lia. }
  pose proof (iterator_constructor_pins_page_even_when_it_throws b 0 0 Hinv) as H.
  change (FetchPageImpl Zeroed 0 b) with (Some 0, b') in H.
  exact H.
Defined.

Lemma advance_within_leaf_and_past_the_end_witness :
  let l := mkLeaf (mkHdr 2 4 INVALID_PAGE_ID 0) INVALID_PAGE_ID [(1, 10); (2, 20)] in
  let b := write_data Zeroed 0 (LeafData l) (test_pool 2) in
  advance (mkIter 0 (Some 0)) b = Ok (mkIter 1 (Some 0)) b /\
  advance (mkIter 1 (Some 0)) b = Ok (mkIter 2 (Some 0)) b /\
  isEnd (mkIter 2 (Some 0)) b = Ok false b.
Proof.
  intros l b.
  destruct (advance_within_leaf_and_past_the_end b (mkIter 0 (Some 0)) 0 l eq_refl eq_refl)
    as [H1 _].
  destruct (advance_within_leaf_and_past_the_end b (mkIter 1 (Some 0)) 0 l eq_refl eq_refl)
    as [_ H2].
  split; [apply H1; reflexivity|].
  destruct (H2 eq_refl eq_refl) as (_ & H3 & H4). split; [exact H3 | exact H4].
Defined.
(** ** b_plus_tree.cpp: [end], [Begin] and a scan over a single leaf *)

Section RootLeafScan.
Context {KeyType ValueType : Type}.
Context (comparator : KeyType -> KeyType -> Z) (key0 : KeyType) (val0 : ValueType).
Implicit Types (t : BPlusTree KeyType ValueType)
               (b : BufferPoolManager (PageData KeyType ValueType)).

Lemma rightmost_leaf fuel t f l :
  data_ (page_at Zeroed (buffer_pool_manager_ t) f) = LeafData l ->
  rightmost key0 fuel f t = Ok f t.
Proof.
  intros Hd.
  assert (H : liftB (IsLeafPage f) t = Ok true t).
  { rewrite (liftB_Ok _ _ _ _ (IsLeafPage_leaf _ f l Hd)). rewrite set_bpm_same. reflexivity. }
  destruct fuel; cbn [rightmost]; rewrite (bind_Ok _ _ _ _ _ H); reflexivity.
Qed.

Lemma GetSize_leaf b f l :
  data_ (page_at Zeroed b f) = LeafData l -> GetSize f b = Ok (lsize l) b.
Proof.
  intros Hd. unfold GetSize, as_tree, GetData, gets, mbind, M_bind, mret, M_ret.
  rewrite Hd. reflexivity.
Qed.

Lemma IndexIterator_new_resident_leaf b page_id index f l :
  page_table_ b !! page_id = Some f ->
  data_ (page_at Zeroed b f) = LeafData l ->
  IndexIterator_new page_id index b =
    Ok (mkIter index (Some f)) (snd (FetchPageImpl Zeroed page_id b)).
Proof.
  intros Hf Hd. rewrite IndexIterator_new_result.
  destruct (FetchPageImpl_resident Zeroed b page_id f Hf) as [Hfst (_ & _ & _ & Hsame)].
  destruct (FetchPageImpl Zeroed page_id b) as [r b']. simpl in *. subst r.
  rewrite Hsame, Hd. reflexivity.
Qed.

(** The common part of [end] and [Begin] on a tree whose root is a leaf the
    pool holds: fetch the root, read it, unpin it, construct the iterator. *)
Lemma iterator_at_root_leaf t f l index :
  page_table_ (buffer_pool_manager_ t) !! root_page_id_ t = Some f ->
  data_ (page_at Zeroed (buffer_pool_manager_ t) f) = LeafData l ->
  tree_page_id_ (leaf_hdr l) = root_page_id_ t ->
  let b1 := snd (FetchPageImpl Zeroed (root_page_id_ t) (buffer_pool_manager_ t)) in
  let b2 := snd (UnpinPageImpl Zeroed (root_page_id_ t) false b1) in
  let b3 := snd (FetchPageImpl Zeroed (root_page_id_ t) b2) in
  data_ (page_at Zeroed b1 f) = LeafData l /\
  liftB (IndexIterator_new (root_page_id_ t) index) (set_bpm b2 (set_bpm b1 t))
    = Ok (mkIter index (Some f)) (set_bpm b3 (set_bpm b2 (set_bpm b1 t))) /\
  same_contents Zeroed (buffer_pool_manager_ t) b3.
Proof.
  intros Hf Hd Hid b1 b2 b3.
  destruct (FetchPageImpl_resident Zeroed _ _ f Hf) as [_ Hs1]. fold b1 in Hs1.
  pose proof (same_contents_UnpinPageImpl Zeroed b1 (root_page_id_ t) false) as Hs2.
  fold b2 in Hs2.
  pose proof (same_contents_trans Zeroed _ _ _ Hs1 Hs2) as Hs12.
  pose proof Hs12 as (Hpt2 & _ & _ & Hd2).
  assert (Hf2 : page_table_ b2 !! root_page_id_ t = Some f) by (rewrite Hpt2; exact Hf).
  destruct (FetchPageImpl_resident Zeroed b2 _ f Hf2) as [_ Hs3]. fold b3 in Hs3.
  split; [|split].
  - destruct Hs1 as (_ & _ & _ & Hd1). rewrite Hd1. exact Hd.
  - apply liftB_Ok. simpl buffer_pool_manager_.
    apply (IndexIterator_new_resident_leaf b2 _ index f l Hf2). rewrite Hd2. exact Hd.
  - apply (same_contents_trans Zeroed _ _ _ Hs12 Hs3).
Qed.

Lemma end_root_leaf fuel t f l :
  root_page_id_ t <> INVALID_PAGE_ID ->
  page_table_ (buffer_pool_manager_ t) !! root_page_id_ t = Some f ->
  data_ (page_at Zeroed (buffer_pool_manager_ t) f) = LeafData l ->
  tree_page_id_ (leaf_hdr l) = root_page_id_ t ->
  exists t',
    end_ key0 fuel t = Ok (mkIter (lsize l) (Some f)) t' /\
    root_page_id_ t' = root_page_id_ t /\
    same_contents Zeroed (buffer_pool_manager_ t) (buffer_pool_manager_ t').
Proof.
  intros Hroot Hf Hd Hid.
  destruct (iterator_at_root_leaf t f l (lsize l) Hf Hd Hid) as (Hd1 & Hnew & Hsame).
  set (b1 := snd (FetchPageImpl Zeroed (root_page_id_ t) (buffer_pool_manager_ t))) in *.
  set (b2 := snd (UnpinPageImpl Zeroed (root_page_id_ t) false b1)) in *.
  set (b3 := snd (FetchPageImpl Zeroed (root_page_id_ t) b2)) in *.
  exists (set_bpm b3 (set_bpm b2 (set_bpm b1 t))). split; [|split; [reflexivity | exact Hsame]].
  unfold end_.
  erewrite bind_Ok by reflexivity.
  unfold IsEmpty. rewrite (proj2 (Z.eqb_neq _ _) Hroot).
  erewrite bind_Ok by reflexivity.
  rewrite (bind_Ok _ _ _ _ _ (GetBPlusPage_resident t _ f Hf)). fold b1.
  rewrite (bind_Ok _ _ _ _ _ (rightmost_leaf fuel (set_bpm b1 t) f l Hd1)).
  erewrite bind_Ok by (apply liftB_Ok, GetPageId_leaf; exact Hd1).
  erewrite bind_Ok by (apply liftB_Ok, GetSize_leaf; exact Hd1).
  rewrite Hid.
  erewrite bind_Ok by (apply liftB_Ok, UnpinPage_Ok).
  exact Hnew.
Qed.

Lemma iter_eq_same_leaf b f l i j :
  data_ (page_at Zeroed b f) = LeafData l ->
  iter_eq (mkIter i (Some f)) (mkIter j (Some f)) b = Ok (i =? j) b /\
  iter_ne (mkIter i (Some f)) (mkIter j (Some f)) b = Ok (negb (i =? j)) b.
Proof.
  intros Hd. unfold iter_eq, iter_ne. simpl.
  rewrite !(bind_Ok _ _ _ _ _ (GetPageId_leaf b f l Hd)).
  unfold mret, M_ret. rewrite Z.eqb_refl. simpl. split; reflexivity.
Qed.

(** X21.  A scan over a tree whose root is a leaf stops at [end()].  [end]
    returns the iterator one past the last entry of the root leaf and leaves
    the bytes of every page as they were.  [operator++] on the last entry
    gives an iterator that [operator==] finds equal to it, and
    [operator!=] tells every other index of the leaf apart from it. *)
Theorem scan_of_root_leaf_stops_at_end fuel t f l :
  root_page_id_ t <> INVALID_PAGE_ID ->
  page_table_ (buffer_pool_manager_ t) !! root_page_id_ t = Some f ->
  data_ (page_at Zeroed (buffer_pool_manager_ t) f) = LeafData l ->
  tree_page_id_ (leaf_hdr l) = root_page_id_ t ->
  next_page_id_' l = INVALID_PAGE_ID ->
  exists t',
    end_ key0 fuel t = Ok (mkIter (lsize l) (Some f)) t' /\
    same_contents Zeroed (buffer_pool_manager_ t) (buffer_pool_manager_ t') /\
    let b' := buffer_pool_manager_ t' in
    let last := mkIter (lsize l - 1) (Some f) in
    let e := mkIter (lsize l) (Some f) in
    advance last b' = Ok e b' /\
    iter_eq e e b' = Ok true b' /\
    (forall i, iter_ne (mkIter i (Some f)) e b' = Ok (negb (i =? lsize l)) b').
Proof.
  intros Hroot Hf Hd Hid Hnext.
  destruct (end_root_leaf fuel t f l Hroot Hf Hd Hid) as (t' & Hend & _ & Hsame).
  exists t'. split; [exact Hend|]. split; [exact Hsame|].
  intros b' last e.
  assert (Hd' : data_ (page_at Zeroed b' f) = LeafData l).
  { destruct Hsame as (_ & _ & _ & Hdata). unfold b'. rewrite Hdata. exact Hd. }
  split; [|split].
  - destruct (advance_steps_in_leaf b' last f l eq_refl Hd') as [_ H].
    destruct (H Hnext eq_refl) as (_ & Hadv & _). exact Hadv.
  - destruct (iter_eq_same_leaf b' f l (lsize l) (lsize l) Hd') as [Heq _].
    unfold e. rewrite Heq, Z.eqb_refl. reflexivity.
  - intros i. apply (iter_eq_same_leaf b' f l i (lsize l) Hd').
Qed.

Lemma Leaf_search_sound (l : LeafPage KeyType ValueType) key fuel : forall left right i,
  Leaf_search comparator key0 val0 l key fuel left right = Some i ->
  left <= i < right /\ comparator (Leaf_KeyAt key0 val0 l i) key = 0.
Proof.
  induction fuel as [|fuel IH]; intros left right i; cbn [Leaf_search]; [discriminate|].
  destruct (Z.ltb_spec left right) as [Hlt|_]; [|discriminate].
  pose proof (shiftr1_mid left right Hlt) as Hmid.
  set (mid := Z.shiftr (right - left) 1 + left) in *.
  destruct (Z.eqb_spec (comparator (Leaf_KeyAt key0 val0 l mid) key) 0) as [He|Hne].
  - intros [= <-]. split; [lia | exact He].
  - destruct (0 <? comparator (Leaf_KeyAt key0 val0 l mid) key); intros Hs;
      apply IH in Hs; destruct Hs as [Hr Hc]; (split; [lia | exact Hc]).
Qed.

(** X22.  [Begin(key)] on a tree whose root is a leaf: when the binary
    search finds a slot, the iterator stands on it, the key in that slot
    compares equal to [key], the slot lies within the leaf, and dereferencing
    the iterator reads that entry. *)
Theorem begin_at_key_finds_equal_key fuel key t f l i :
  root_page_id_ t <> INVALID_PAGE_ID ->
  page_table_ (buffer_pool_manager_ t) !! root_page_id_ t = Some f ->
  data_ (page_at Zeroed (buffer_pool_manager_ t) f) = LeafData l ->
  tree_page_id_ (leaf_hdr l) = root_page_id_ t ->
  Leaf_search comparator key0 val0 l key (Z.to_nat (lsize l)) 0 (lsize l) = Some i ->
  exists t',
    Begin comparator key0 val0 fuel key t = Ok (mkIter i (Some f)) t' /\
    same_contents Zeroed (buffer_pool_manager_ t) (buffer_pool_manager_ t') /\
    0 <= i < lsize l /\
    comparator (Leaf_KeyAt key0 val0 l i) key = 0 /\
    deref key0 val0 (mkIter i (Some f)) (buffer_pool_manager_ t')
      = Ok (Leaf_GetItem key0 val0 l i) (buffer_pool_manager_ t').
Proof.
  intros Hroot Hf Hd Hid Hfound.
  destruct (iterator_at_root_leaf t f l i Hf Hd Hid) as (Hd1 & Hnew & Hsame).
  set (b1 := snd (FetchPageImpl Zeroed (root_page_id_ t) (buffer_pool_manager_ t))) in *.
  set (b2 := snd (UnpinPageImpl Zeroed (root_page_id_ t) false b1)) in *.
  set (b3 := snd (FetchPageImpl Zeroed (root_page_id_ t) b2)) in *.
  destruct (Leaf_search_sound l key _ _ _ _ Hfound) as [Hrange Hcmp].
  exists (set_bpm b3 (set_bpm b2 (set_bpm b1 t))).
  split; [|split; [exact Hsame|split; [exact Hrange|split; [exact Hcmp|]]]].
  - unfold Begin, FindLeafPage.
    unfold mbind at 1. unfold M_bind at 1.
    erewrite bind_Ok by reflexivity.
    unfold IsEmpty. rewrite (proj2 (Z.eqb_neq _ _) Hroot).
    erewrite bind_Ok by reflexivity.
    rewrite (bind_Ok _ _ _ _ _ (GetBPlusPage_resident t _ f Hf)). fold b1.
    rewrite (bind_Ok _ _ _ _ _ (descend_leaf comparator key0 fuel key (set_bpm b1 t) f l Hd1)).
    cbn [mret M_ret].
    erewrite bind_Ok by (apply liftB_Ok, GetPageId_leaf; exact Hd1).
    erewrite bind_Ok by (apply liftB_Ok, as_leaf_leaf; exact Hd1).
    erewrite bind_Ok.
    2:{ apply liftB_Ok. simpl buffer_pool_manager_.
        rewrite (bind_Ok _ _ _ _ _ (GetPageId_leaf b1 f l Hd1)). apply UnpinPage_Ok. }
    rewrite Hfound, Hid. exact Hnew.
  - unfold deref. cbn [leaf_page_ index_].
    assert (Hd3 : data_ (page_at Zeroed b3 f) = LeafData l).
    { destruct Hsame as (_ & _ & _ & Hdata). rewrite Hdata. exact Hd. }
    change (buffer_pool_manager_ (set_bpm b3 (set_bpm b2 (set_bpm b1 t)))) with b3.
    rewrite (bind_Ok _ _ _ _ _ (as_leaf_leaf b3 f l Hd3)). reflexivity.
Qed.

End RootLeafScan.

Lemma scan_of_root_leaf_stops_at_end_witness :
  let t := fst tree_with_full_leaf in
  exists t',
    end_ 0 10 t = Ok (mkIter 3 (Some 1)) t' /\
    advance (mkIter 2 (Some 1)) (buffer_pool_manager_ t')
      = Ok (mkIter 3 (Some 1)) (buffer_pool_manager_ t').
Proof.
  intros t.
  destruct (scan_of_root_leaf_stops_at_end 0 10 t 1
              (mkLeaf (mkHdr 3 3 INVALID_PAGE_ID 1) INVALID_PAGE_ID [(1, 10); (2, 20); (3, 30)]))
    as (t' & H1 & _ & H2 & _).
  - vm_compute. discriminate.
  - vm_compute. reflexivity.
  - vm_compute. reflexivity.
  - vm_compute. reflexivity.
  - reflexivity.
  - exists t'. split; [exact H1 | exact H2].
Defined.

Lemma begin_at_key_finds_equal_key_witness :
  let t := fst tree_with_full_leaf in
  exists t',
    Begin cmpZ 0 0 10 2 t = Ok (mkIter 1 (Some 1)) t' /\
    deref 0 0 (mkIter 1 (Some 1)) (buffer_pool_manager_ t')
      = Ok (2, 20) (buffer_pool_manager_ t').
Proof.
  intros t.
  destruct (begin_at_key_finds_equal_key cmpZ 0 0 10 2 t 1
              (mkLeaf (mkHdr 3 3 INVALID_PAGE_ID 1) INVALID_PAGE_ID [(1, 10); (2, 20); (3, 30)]) 1)
    as (t' & H1 & _ & _ & _ & H2).
  - vm_compute. discriminate.
  - vm_compute. reflexivity.
  - vm_compute. reflexivity.
  - vm_compute. reflexivity.
  - vm_compute. reflexivity.
  - exists t'. split; [exact H1 | exact H2].
Defined.
(** ** b_plus_tree.cpp: one level of descent, and the root leaf *)

Section RootAndChildren.
Context {KeyType ValueType : Type}.
Context (comparator : KeyType -> KeyType -> Z) (key0 : KeyType) (val0 : ValueType).
Implicit Types (t : BPlusTree KeyType ValueType)
               (b : BufferPoolManager (PageData KeyType ValueType)).

Lemma IsLeafPage_internal b f (p : InternalPage KeyType) :
  data_ (page_at Zeroed b f) = InternalData p -> IsLeafPage f b = Ok false b.
Proof.
  intros Hd. unfold IsLeafPage, GetData, gets, mbind, M_bind, mret, M_ret.
  rewrite Hd. reflexivity.
Qed.

Lemma as_internal_internal b f (p : InternalPage KeyType) :
  data_ (page_at Zeroed b f) = InternalData p -> as_internal f b = Ok p b.
Proof.
  intros Hd. unfold as_internal, GetData, gets, mbind, M_bind, mret, M_ret.
  rewrite Hd. reflexivity.
Qed.

Lemma GetPageId_internal b f (p : InternalPage KeyType) :
  data_ (page_at Zeroed b f) = InternalData p ->
  GetPageId f b = Ok (tree_page_id_ (int_hdr p)) b.
Proof.
  intros Hd. unfold GetPageId, as_tree, GetData, gets, mbind, M_bind, mret, M_ret.
  rewrite Hd. reflexivity.
Qed.

(** X23.  [GetValue] on a tree of two levels asks the root's [Lookup] for
    the child and answers with that leaf's [Lookup]; it changes no page's
    bytes. *)
Theorem get_value_descends_through_root_lookup fuel key t r p c l :
  root_page_id_ t <> INVALID_PAGE_ID ->
  page_table_ (buffer_pool_manager_ t) !! root_page_id_ t = Some r ->
  data_ (page_at Zeroed (buffer_pool_manager_ t) r) = InternalData p ->
  page_table_ (buffer_pool_manager_ t) !! Lookup comparator key0 p key = Some c ->
  data_ (page_at Zeroed (buffer_pool_manager_ t) c) = LeafData l ->
  exists t',
    GetValue comparator key0 val0 (S fuel) key t
      = Ok (Leaf_Lookup comparator key0 val0 l key) t' /\
    root_page_id_ t' = root_page_id_ t /\
    same_contents Zeroed (buffer_pool_manager_ t) (buffer_pool_manager_ t').
Proof.
  intros Hroot Hr Hdr Hc Hdc.
  set (b0 := buffer_pool_manager_ t) in *.
  set (child := Lookup comparator key0 p key) in *.
  set (b1 := snd (FetchPageImpl Zeroed (root_page_id_ t) b0)).
  set (b2 := snd (UnpinPageImpl Zeroed (tree_page_id_ (int_hdr p)) false b1)).
  set (b3 := snd (FetchPageImpl Zeroed child b2)).
  set (b4 := snd (UnpinPageImpl Zeroed (tree_page_id_ (leaf_hdr l)) false b3)).
  destruct (FetchPageImpl_resident Zeroed b0 _ r Hr) as [_ Hs1]. fold b1 in Hs1.
  pose proof (same_contents_UnpinPageImpl Zeroed b1 (tree_page_id_ (int_hdr p)) false) as Hs2.
  fold b2 in Hs2.
  pose proof (same_contents_trans Zeroed _ _ _ Hs1 Hs2) as Hs02.
  assert (Hc2 : page_table_ b2 !! child = Some c)
    by (destruct Hs02 as (Hpt & _); rewrite Hpt; exact Hc).
  destruct (FetchPageImpl_resident Zeroed b2 _ c Hc2) as [_ Hs3]. fold b3 in Hs3.
  pose proof (same_contents_trans Zeroed _ _ _ Hs02 Hs3) as Hs03.
  pose proof (same_contents_UnpinPageImpl Zeroed b3 (tree_page_id_ (leaf_hdr l)) false) as Hs4.
  fold b4 in Hs4.
  pose proof (same_contents_trans Zeroed _ _ _ Hs03 Hs4) as Hs04.
  assert (Hdr1 : data_ (page_at Zeroed b1 r) = InternalData p)
    by (destruct Hs1 as (_ & _ & _ & Hd); rewrite Hd; exact Hdr).
  assert (Hdc3 : data_ (page_at Zeroed b3 c) = LeafData l)
    by (destruct Hs03 as (_ & _ & _ & Hd); rewrite Hd; exact Hdc).
  exists (set_bpm b4 (set_bpm b3 (set_bpm b2 (set_bpm b1 t)))).
  split; [|split; [reflexivity | exact Hs04]].
  unfold GetValue.
  erewrite bind_Ok by reflexivity.
  unfold IsEmpty. rewrite (proj2 (Z.eqb_neq _ _) Hroot).
  erewrite bind_Ok by reflexivity.
  rewrite (bind_Ok _ _ _ _ _ (GetBPlusPage_resident t _ r Hr)). fold b0 b1.
  assert (Hdesc : descend comparator key0 (S fuel) key r (set_bpm b1 t)
                  = Ok c (set_bpm b3 (set_bpm b2 (set_bpm b1 t)))).
  { cbn [descend].
    erewrite bind_Ok by (apply liftB_Ok, (IsLeafPage_internal _ r p); exact Hdr1).
    cbv beta iota.
    erewrite bind_Ok by (apply liftB_Ok, as_internal_internal; exact Hdr1).
    erewrite bind_Ok.
    2:{ apply liftB_Ok. simpl buffer_pool_manager_.
        rewrite (bind_Ok _ _ _ _ _ (GetPageId_internal b1 r p Hdr1)). apply UnpinPage_Ok. }
    fold child b2.
    erewrite bind_Ok by (apply (GetBPlusPage_resident _ child c); exact Hc2).
    apply (descend_leaf comparator key0 fuel key _ c l). exact Hdc3. }
  rewrite (bind_Ok _ _ _ _ _ Hdesc).
  erewrite bind_Ok by (apply liftB_Ok, as_leaf_leaf; exact Hdc3).
  erewrite bind_Ok.
  2:{ apply liftB_Ok. simpl buffer_pool_manager_.
      rewrite (bind_Ok _ _ _ _ _ (GetPageId_leaf b3 c l Hdc3)). apply UnpinPage_Ok. }
  reflexivity.
Qed.

Lemma FindLeafPage_root_leaf fuel key t f l :
  root_page_id_ t <> INVALID_PAGE_ID ->
  page_table_ (buffer_pool_manager_ t) !! root_page_id_ t = Some f ->
  data_ (page_at Zeroed (buffer_pool_manager_ t) f) = LeafData l ->
  let b1 := snd (FetchPageImpl Zeroed (root_page_id_ t) (buffer_pool_manager_ t)) in
  FindLeafPage comparator key0 fuel key t = Ok (Some f) (set_bpm b1 t) /\
  same_contents Zeroed (buffer_pool_manager_ t) b1 /\
  data_ (page_at Zeroed b1 f) = LeafData l.
Proof.
  intros Hroot Hf Hd b1.
  destruct (FetchPageImpl_resident Zeroed _ _ f Hf) as [_ Hs1]. fold b1 in Hs1.
  assert (Hd1 : data_ (page_at Zeroed b1 f) = LeafData l)
    by (destruct Hs1 as (_ & _ & _ & Hdata); rewrite Hdata; exact Hd).
  split; [|split; assumption].
  unfold FindLeafPage.
  erewrite bind_Ok by reflexivity.
  unfold IsEmpty. rewrite (proj2 (Z.eqb_neq _ _) Hroot).
  erewrite bind_Ok by reflexivity.
  rewrite (bind_Ok _ _ _ _ _ (GetBPlusPage_resident t _ f Hf)). fold b1.
  rewrite (bind_Ok _ _ _ _ _ (descend_leaf comparator key0 fuel key (set_bpm b1 t) f l Hd1)).
  reflexivity.
Qed.

Lemma write_data_frame b f d :
  frame_ok b f ->
  let b' := write_data Zeroed f d b in
  data_ (page_at Zeroed b' f) = d /\
  page_table_ b' = page_table_ b /\
  frame_ok b' f /\
  forall g, 0 <= g -> g <> f -> data_ (page_at Zeroed b' g) = data_ (page_at Zeroed b g).
Proof.
  intros Hok b'. split; [apply data_write_data_eq; exact Hok|].
  split; [reflexivity|]. split; [apply frame_ok_write_data; exact Hok|].
  intros g Hg Hne. unfold b'. rewrite page_at_write_data_ne by (try apply Hok; congruence).
  reflexivity.
Qed.

Lemma IsRootPage_leaf b f (l : LeafPage KeyType ValueType) :
  data_ (page_at Zeroed b f) = LeafData l ->
  IsRootPage f b = Ok (parent_page_id_ (leaf_hdr l) =? INVALID_PAGE_ID) b.
Proof.
  intros Hd. unfold IsRootPage, as_tree, GetData, gets, mbind, M_bind, mret, M_ret.
  rewrite Hd. reflexivity.
Qed.

Lemma GetMinSize_leaf b f (l : LeafPage KeyType ValueType) :
  data_ (page_at Zeroed b f) = LeafData l ->
  GetMinSize f b = Ok ((max_size_ (leaf_hdr l) + 1) / 2) b.
Proof.
  intros Hd. unfold GetMinSize, GetData, gets, mbind, M_bind, mret, M_ret.
  rewrite Hd. reflexivity.
Qed.

Lemma AdjustRoot_leaf t f l :
  data_ (page_at Zeroed (buffer_pool_manager_ t) f) = LeafData l ->
  AdjustRoot key0 f t = Ok false t.
Proof.
  intros Hd. unfold AdjustRoot.
  erewrite bind_Ok by (apply liftB_Ok, GetSize_leaf; exact Hd).
  erewrite bind_Ok by (apply liftB_Ok, (IsLeafPage_leaf _ f l); exact Hd).
  rewrite andb_false_r. rewrite !set_bpm_same. reflexivity.
Qed.

Lemma CoalesceOrRedistribute_root_leaf fuel t f l :
  data_ (page_at Zeroed (buffer_pool_manager_ t) f) = LeafData l ->
  parent_page_id_ (leaf_hdr l) = INVALID_PAGE_ID ->
  CoalesceOrRedistribute key0 val0 fuel f t = Ok false t.
Proof.
  intros Hd Hp.
  assert (Hroot : liftB (IsRootPage f) t = Ok true t).
  { rewrite (liftB_Ok _ _ _ _ (IsRootPage_leaf _ f l Hd)). rewrite Hp, set_bpm_same.
    reflexivity. }
  destruct fuel; cbn [CoalesceOrRedistribute];
    rewrite (bind_Ok _ _ _ _ _ Hroot); cbv beta iota;
    rewrite (bind_Ok _ _ _ _ _ (AdjustRoot_leaf t f l Hd)); reflexivity.
Qed.

(** X24.  [Remove] on a tree whose root is a leaf only edits that leaf.
    The root page id stays what it was, also when the leaf loses its last
    entry: [AdjustRoot] does nothing for a leaf, so a tree that has held a key
    never becomes empty again. *)
Theorem remove_from_root_leaf_keeps_root fuel key t f l :
  root_page_id_ t <> INVALID_PAGE_ID ->
  page_table_ (buffer_pool_manager_ t) !! root_page_id_ t = Some f ->
  frame_ok (buffer_pool_manager_ t) f ->
  data_ (page_at Zeroed (buffer_pool_manager_ t) f) = LeafData l ->
  parent_page_id_ (leaf_hdr l) = INVALID_PAGE_ID ->
  exists t',
    Remove comparator key0 val0 fuel key t = Ok tt t' /\
    root_page_id_ t' = root_page_id_ t /\ IsEmpty t' = false /\
    page_table_ (buffer_pool_manager_ t') = page_table_ (buffer_pool_manager_ t) /\
    data_ (page_at Zeroed (buffer_pool_manager_ t') f)
      = LeafData (Leaf_RemoveAndDeleteRecord comparator key l) /\
    (forall g, 0 <= g -> g <> f ->
       data_ (page_at Zeroed (buffer_pool_manager_ t') g)
       = data_ (page_at Zeroed (buffer_pool_manager_ t) g)).
Proof.
  intros Hroot Hf Hok Hd Hp.
  destruct (FindLeafPage_root_leaf fuel key t f l Hroot Hf Hd) as (Hfind & Hs1 & Hd1).
  set (b1 := snd (FetchPageImpl Zeroed (root_page_id_ t) (buffer_pool_manager_ t))) in *.
  set (l' := Leaf_RemoveAndDeleteRecord comparator key l).
  set (b2 := write_data Zeroed f (LeafData l') b1).
  assert (Hok1 : frame_ok b1 f) by (apply (same_contents_frame_ok Zeroed _ _ _ Hs1 Hok)).
  destruct (write_data_frame b1 f (LeafData l') Hok1) as (Hd2 & Hpt2 & Hok2 & Hother2).
  fold b2 in Hd2, Hpt2, Hok2, Hother2.
  pose proof Hs1 as (Hpt1 & _ & Hdm1 & Hdata1).
  exists (set_bpm b2 (set_bpm b1 t)).
  split; [|split; [reflexivity|split; [|split; [|split]]]].
  - unfold Remove.
    rewrite (bind_Ok _ _ _ _ _ Hfind).
    erewrite bind_Ok by (apply liftB_Ok, (upd_leaf_Ok _ f l); exact Hd1).
    fold l' b2.
    erewrite bind_Ok by (apply liftB_Ok, GetSize_leaf; exact Hd2).
    erewrite bind_Ok by (apply liftB_Ok, GetMinSize_leaf; exact Hd2).
    change (set_bpm b2 (set_bpm b2 (set_bpm b2 (set_bpm b1 t))))
      with (set_bpm b2 (set_bpm b1 t)).
    destruct (lsize l' <? (max_size_ (leaf_hdr l') + 1) / 2); [|reflexivity].
    erewrite bind_Ok; [reflexivity|].
    apply (CoalesceOrRedistribute_root_leaf fuel _ f l'); [exact Hd2 | exact Hp].
  - unfold IsEmpty. simpl. apply Z.eqb_neq. exact Hroot.
  - exact (eq_trans Hpt2 Hpt1).
  - exact Hd2.
  - intros g Hg Hne. simpl. rewrite (Hother2 g Hg Hne). apply Hdata1.
Qed.

(** X25.  [Insert] into a tree whose root is a leaf with room.  A key the
    leaf's [Lookup] finds is refused: [Insert] returns [false] and no page's
    bytes change.  Otherwise the entry goes into the leaf, no page is
    allocated and the root stays, [Insert] returns [true], and a [GetValue]
    after it answers with the [Lookup] of the leaf that holds the entry. *)
Theorem insert_into_root_leaf_with_room fuel key value t f l :
  root_page_id_ t <> INVALID_PAGE_ID ->
  page_table_ (buffer_pool_manager_ t) !! root_page_id_ t = Some f ->
  frame_ok (buffer_pool_manager_ t) f ->
  data_ (page_at Zeroed (buffer_pool_manager_ t) f) = LeafData l ->
  (forall v, Leaf_Lookup comparator key0 val0 l key = Some v ->
     exists t',
       Insert comparator key0 val0 fuel key value t = Ok false t' /\
       root_page_id_ t' = root_page_id_ t /\
       same_contents Zeroed (buffer_pool_manager_ t) (buffer_pool_manager_ t')) /\
  (Leaf_Lookup comparator key0 val0 l key = None ->
   lsize (Leaf_Insert comparator key value l) <> max_size_ (leaf_hdr l) ->
   exists t',
     Insert comparator key0 val0 fuel key value t = Ok true t' /\
     root_page_id_ t' = root_page_id_ t /\
     page_table_ (buffer_pool_manager_ t') = page_table_ (buffer_pool_manager_ t) /\
     next_page_id_ (disk_manager_ (buffer_pool_manager_ t'))
       = next_page_id_ (disk_manager_ (buffer_pool_manager_ t)) /\
     data_ (page_at Zeroed (buffer_pool_manager_ t') f)
       = LeafData (Leaf_Insert comparator key value l) /\
     (forall g, 0 <= g -> g <> f ->
        data_ (page_at Zeroed (buffer_pool_manager_ t') g)
        = data_ (page_at Zeroed (buffer_pool_manager_ t) g)) /\
     (forall key', exists t'',
        GetValue comparator key0 val0 fuel key' t'
          = Ok (Leaf_Lookup comparator key0 val0 (Leaf_Insert comparator key value l) key') t'')).
Proof.
  intros Hroot Hf Hok Hd.
  set (b0 := buffer_pool_manager_ t) in *.
  set (b1 := snd (FetchPageImpl Zeroed (root_page_id_ t) b0)).
  destruct (FetchPageImpl_resident Zeroed b0 _ f Hf) as [_ Hs1]. fold b1 in Hs1.
  pose proof Hs1 as (Hpt1 & _ & Hdm1 & Hdata1).
  assert (Hd1 : data_ (page_at Zeroed b1 f) = LeafData l) by (rewrite Hdata1; exact Hd).
  assert (Hok1 : frame_ok b1 f) by (apply (same_contents_frame_ok Zeroed _ _ _ Hs1 Hok)).
  assert (Hprefix : forall k : LeafPage KeyType ValueType -> M (BPlusTree KeyType ValueType) bool,
            (root ← gets root_page_id_;
             page ← GetBPlusPage root;
             lpage ← descend comparator key0 fuel key page;
             l0 ← liftB (as_leaf lpage);
             k l0) t = k l (set_bpm b1 t)).
  { intros k.
    erewrite bind_Ok by reflexivity.
    rewrite (bind_Ok _ _ _ _ _ (GetBPlusPage_resident t _ f Hf)). fold b0 b1.
    rewrite (bind_Ok _ _ _ _ _ (descend_leaf comparator key0 fuel key (set_bpm b1 t) f l Hd1)).
    erewrite bind_Ok by (apply liftB_Ok, as_leaf_leaf; exact Hd1).
    reflexivity. }
  assert (Hins : Insert comparator key0 val0 fuel key value t
                 = InsertIntoLeaf comparator key0 val0 fuel key value t).
  { unfold Insert. erewrite bind_Ok by reflexivity.
    unfold IsEmpty. rewrite (proj2 (Z.eqb_neq _ _) Hroot). reflexivity. }
  split.
  - intros v Hfound. exists (set_bpm b1 t).
    split; [|split; [reflexivity | exact Hs1]].
    rewrite Hins. unfold InsertIntoLeaf.
    erewrite bind_Ok by reflexivity.
    rewrite (bind_Ok _ _ _ _ _ (GetBPlusPage_resident t _ f Hf)). fold b0 b1.
    rewrite (bind_Ok _ _ _ _ _ (descend_leaf comparator key0 fuel key (set_bpm b1 t) f l Hd1)).
    erewrite bind_Ok by (apply liftB_Ok, as_leaf_leaf; exact Hd1).
    rewrite Hfound. reflexivity.
  - intros Hnone Hroom.
    set (l2 := Leaf_Insert comparator key value l) in *.
    set (b2 := write_data Zeroed f (LeafData l2) b1).
    destruct (write_data_frame b1 f (LeafData l2) Hok1) as (Hd2 & Hpt2 & Hok2 & Hother2).
    fold b2 in Hd2, Hpt2, Hok2, Hother2.
    set (b3 := snd (UnpinPageImpl Zeroed (tree_page_id_ (leaf_hdr l2)) true b2)).
    pose proof (same_contents_UnpinPageImpl Zeroed b2 (tree_page_id_ (leaf_hdr l2)) true)
      as (Hpt3 & Hlen3 & Hdm3 & Hdata3).
    fold b3 in Hpt3, Hlen3, Hdm3, Hdata3.
    set (t3 := set_bpm b3 (set_bpm b2 (set_bpm b1 t))).
    assert (Hd3 : data_ (page_at Zeroed b3 f) = LeafData l2) by (rewrite Hdata3; exact Hd2).
    assert (Hpt03 : page_table_ b3 = page_table_ b0) by (rewrite Hpt3, Hpt2; exact Hpt1).
    assert (Hdm1' : next_page_id_ (disk_manager_ b2) = next_page_id_ (disk_manager_ b0))
      by (change (disk_manager_ b2) with (disk_manager_ b1); rewrite Hdm1; reflexivity).
    exists t3.
    split; [|split; [reflexivity|split; [exact Hpt03|split; [|split; [exact Hd3|split]]]]].
    + rewrite Hins. unfold InsertIntoLeaf.
      erewrite bind_Ok by reflexivity.
      rewrite (bind_Ok _ _ _ _ _ (GetBPlusPage_resident t _ f Hf)). fold b0 b1.
      rewrite (bind_Ok _ _ _ _ _ (descend_leaf comparator key0 fuel key (set_bpm b1 t) f l Hd1)).
      erewrite bind_Ok by (apply liftB_Ok, as_leaf_leaf; exact Hd1).
      rewrite Hnone.
      erewrite bind_Ok by (apply liftB_Ok, (upd_leaf_Ok _ f l); exact Hd1).
      fold l2 b2.
      erewrite bind_Ok.
      2:{ unfold InsertIntoLeaf_split.
          erewrite bind_Ok by (apply liftB_Ok, IsFull_leaf; exact Hd2).
          change (max_size_ (leaf_hdr l2)) with (max_size_ (leaf_hdr l)).
          rewrite (proj2 (Z.eqb_neq _ _) Hroom). reflexivity. }
      erewrite bind_Ok.
      2:{ apply liftB_Ok. simpl buffer_pool_manager_.
          rewrite (bind_Ok _ _ _ _ _ (GetPageId_leaf b2 f l2 Hd2)). apply UnpinPage_Ok. }
      reflexivity.
    + simpl. rewrite Hdm3. exact Hdm1'.
    + intros g Hg Hne. simpl. rewrite Hdata3, (Hother2 g Hg Hne). apply Hdata1.
    + intros key'.
      destruct (GetValue_root_leaf comparator key0 val0 fuel key' t3 f l2) as (t4 & Hget & _).
      * exact Hroot.
      * simpl. rewrite Hpt03. exact Hf.
      * exact Hd3.
      * exists t4. exact Hget.
Qed.

End RootAndChildren.
Lemma get_value_descends_through_root_lookup_witness :
  exists t', GetValue cmpZ 0 0 10 4 two_level_tree = Ok (Some 40) t'.
Proof.
  destruct (get_value_descends_through_root_lookup cmpZ 0 0 9 4 two_level_tree 3
              (mkInternal (mkHdr 3 3 (-1) 3) [(0, 1); (2, 2); (3, 4)]) 4
              (mkLeaf (mkHdr 2 3 3 4) INVALID_PAGE_ID [(3, 30); (4, 40)]))
    as (t' & H & _).
  - vm_compute. discriminate.
  - vm_compute. reflexivity.
  - vm_compute. reflexivity.
  - vm_compute. reflexivity.
  - vm_compute. reflexivity.
  - exists t'. exact H.
Defined.

Lemma remove_from_root_leaf_keeps_root_witness :
  exists t',
    Remove cmpZ 0 0 10 2 single_leaf_tree = Ok tt t' /\
    root_page_id_ t' = 1 /\
    data_ (page_at Zeroed (buffer_pool_manager_ t') 1)
      = LeafData (mkLeaf (mkHdr 1 4 INVALID_PAGE_ID 1) INVALID_PAGE_ID [(1, 10)]).
Proof.
  destruct (remove_from_root_leaf_keeps_root cmpZ 0 0 10 2 single_leaf_tree 1
              (mkLeaf (mkHdr 2 4 INVALID_PAGE_ID 1) INVALID_PAGE_ID [(1, 10); (2, 20)]))
    as (t' & H1 & H2 & _ & _ & H3 & _).
  - vm_compute. discriminate.
  - vm_compute. reflexivity.
  - vm_compute. split; [intros H; discriminate H | reflexivity].
  - vm_compute. reflexivity.
  - reflexivity.
  - exists t'. split; [exact H1|]. split; [exact H2 | exact H3].
Defined.

Lemma insert_into_root_leaf_with_room_witness :
  exists t',
    Insert cmpZ 0 0 10 5 50 single_leaf_tree = Ok true t' /\
    exists t'', GetValue cmpZ 0 0 10 5 t' = Ok (Some 50) t''.
Proof.
  destruct (insert_into_root_leaf_with_room cmpZ 0 0 10 5 50 single_leaf_tree 1
              (mkLeaf (mkHdr 2 4 INVALID_PAGE_ID 1) INVALID_PAGE_ID [(1, 10); (2, 20)]))
    as [_ H].
  - vm_compute. discriminate.
  - vm_compute. reflexivity.
  - vm_compute. split; [intros H; discriminate H | reflexivity].
  - vm_compute. reflexivity.
  - destruct H as (t' & H1 & _ & _ & _ & _ & _ & H2).
    + vm_compute. reflexivity.
    + vm_compute. discriminate.
    + exists t'. split; [exact H1|]. apply (H2 5).
Defined.
(** ** b_plus_tree_internal_page.cpp: adopting a child *)

Section AdoptChild.
Context {KeyType ValueType : Type} (key0 : KeyType).
Implicit Types (b : BufferPoolManager (PageData KeyType ValueType))
               (p : InternalPage KeyType).

Lemma upd_internal_Ok b f p (g : InternalPage KeyType -> InternalPage KeyType) :
  data_ (page_at Zeroed b f) = InternalData p ->
  upd_internal f g b = Ok tt (write_data Zeroed f (InternalData (g p)) b).
Proof.
  intros Hd. unfold upd_internal.
  rewrite (bind_Ok _ _ _ _ _ (as_internal_internal b f p Hd)). reflexivity.
Qed.

Lemma SetParentPageId_Ok b f parent d' :
  map_hdr (set_parent parent) (data_ (page_at Zeroed b f)) = Some d' ->
  SetParentPageId f parent b = Ok tt (write_data Zeroed f d' b).
Proof.
  intros Hm. unfold SetParentPageId, upd_tree.
  rewrite (bind_Ok _ _ _ _ _ (GetData_Ok b f)). rewrite Hm. reflexivity.
Qed.

Lemma WrapFetchPage_resident b page_id f :
  page_table_ b !! page_id = Some f ->
  WrapFetchPage page_id b = Ok f (snd (FetchPageImpl Zeroed page_id b)).
Proof.
  intros Hf. unfold WrapFetchPage.
  rewrite (bind_Ok _ _ _ _ _ (FetchPage_resident b page_id f Hf)). reflexivity.
Qed.

(** What [CopyLastFrom] and [CopyFirstFrom] share: the child is fetched,
    its parent is set to the page id of the page it moves to, and it is
    unpinned; [K] is what follows. *)
Lemma adopt_child b T p C child d' (K : M (BufferPoolManager (PageData KeyType ValueType)) unit) :
  data_ (page_at Zeroed b T) = InternalData p ->
  page_table_ b !! child = Some C ->
  frame_ok b T -> frame_ok b C -> C <> T ->
  map_hdr (set_parent (tree_page_id_ (int_hdr p))) (data_ (page_at Zeroed b C)) = Some d' ->
  exists b3,
    (page ← WrapFetchPage child;
     me ← GetPageId T;
     SetParentPageId page me;;
     UnpinPage child true;;
     K) b = K b3 /\
    page_table_ b3 = page_table_ b /\
    frame_ok b3 T /\
    data_ (page_at Zeroed b3 C) = d' /\
    data_ (page_at Zeroed b3 T) = InternalData p /\
    (forall g, 0 <= g -> g <> C ->
       data_ (page_at Zeroed b3 g) = data_ (page_at Zeroed b g)).
Proof.
  intros HdT HC HokT HokC Hne Hmap.
  set (b1 := snd (FetchPageImpl Zeroed child b)).
  destruct (FetchPageImpl_resident Zeroed b child C HC) as [_ Hs1]. fold b1 in Hs1.
  pose proof Hs1 as (Hpt1 & _ & _ & Hdata1).
  assert (HokT1 : frame_ok b1 T) by (apply (same_contents_frame_ok Zeroed _ _ _ Hs1 HokT)).
  assert (HokC1 : frame_ok b1 C) by (apply (same_contents_frame_ok Zeroed _ _ _ Hs1 HokC)).
  set (b2 := write_data Zeroed C d' b1).
  destruct (write_data_frame b1 C d' HokC1) as (HdC2 & Hpt2 & HokC2 & Hother2).
  fold b2 in HdC2, Hpt2, HokC2, Hother2.
  assert (HokT2 : frame_ok b2 T) by (apply frame_ok_write_data; exact HokT1).
  set (b3 := snd (UnpinPageImpl Zeroed child true b2)).
  pose proof (same_contents_UnpinPageImpl Zeroed b2 child true) as Hs3. fold b3 in Hs3.
  pose proof Hs3 as (Hpt3 & _ & _ & Hdata3).
  assert (Hothers : forall g, 0 <= g -> g <> C ->
            data_ (page_at Zeroed b3 g) = data_ (page_at Zeroed b g)).
  { intros g Hg HgC. rewrite Hdata3, (Hother2 g) by assumption. apply Hdata1. }
  exists b3. split; [|split; [|split; [|split; [|split]]]].
  - rewrite (bind_Ok _ _ _ _ _ (WrapFetchPage_resident b child C HC)). fold b1.
    assert (HdT1 : data_ (page_at Zeroed b1 T) = InternalData p) by (rewrite Hdata1; exact HdT).
    rewrite (bind_Ok _ _ _ _ _ (GetPageId_internal b1 T p HdT1)).
    erewrite bind_Ok by (apply (SetParentPageId_Ok b1 C _ d'); rewrite Hdata1; exact Hmap).
    fold b2.
    rewrite (bind_Ok _ _ _ _ _ (UnpinPage_Ok b2 child true)). reflexivity.
  - rewrite Hpt3, Hpt2. exact Hpt1.
  - apply (same_contents_frame_ok Zeroed _ _ _ Hs3 HokT2).
  - rewrite Hdata3. exact HdC2.
  - rewrite (Hothers T) by (try apply HokT; congruence). exact HdT.
  - exact Hothers.
Qed.

Lemma upd_internal_frame b f p (g : InternalPage KeyType -> InternalPage KeyType) :
  frame_ok b f -> data_ (page_at Zeroed b f) = InternalData p ->
  exists b',
    upd_internal f g b = Ok tt b' /\
    page_table_ b' = page_table_ b /\
    frame_ok b' f /\
    data_ (page_at Zeroed b' f) = InternalData (g p) /\
    (forall x, 0 <= x -> x <> f -> data_ (page_at Zeroed b' x) = data_ (page_at Zeroed b x)).
Proof.
  intros Hok Hd. exists (write_data Zeroed f (InternalData (g p)) b).
  destruct (write_data_frame b f (InternalData (g p)) Hok) as (H1 & H2 & H3 & H4).
  split; [apply upd_internal_Ok; exact Hd|]. auto.
Qed.

(** X26.  [CopyLastFrom] and [CopyFirstFrom] adopt the child they are
    handed: the child's page gets the page id of the page the entry moves
    to as its parent.  [CopyLastFrom] stores the pair in the slot after the
    last one; [CopyFirstFrom] moves every slot up by one and stores the pair
    in slot 0.  Both add one to the size and leave every other page alone. *)
Theorem copy_last_and_first_adopt_child b T p C k child d' :
  data_ (page_at Zeroed b T) = InternalData p ->
  page_table_ b !! child = Some C ->
  frame_ok b T -> frame_ok b C -> C <> T ->
  map_hdr (set_parent (tree_page_id_ (int_hdr p))) (data_ (page_at Zeroed b C)) = Some d' ->
  0 <= isize p ->
  (exists b' p',
     CopyLastFrom key0 T (k, child) b = Ok tt b' /\
     page_table_ b' = page_table_ b /\
     data_ (page_at Zeroed b' C) = d' /\
     data_ (page_at Zeroed b' T) = InternalData p' /\
     isize p' = isize p + 1 /\
     slot key0 p' (isize p) = (k, child) /\
     (forall j, j <> isize p -> slot key0 p' j = slot key0 p j) /\
     (forall g, 0 <= g -> g <> T -> g <> C ->
        data_ (page_at Zeroed b' g) = data_ (page_at Zeroed b g))) /\
  (exists b' p',
     CopyFirstFrom key0 T (k, child) b = Ok tt b' /\
     page_table_ b' = page_table_ b /\
     data_ (page_at Zeroed b' C) = d' /\
     data_ (page_at Zeroed b' T) = InternalData p' /\
     isize p' = isize p + 1 /\
     slot key0 p' 0 = (k, child) /\
     (forall j, 1 <= j <= isize p -> slot key0 p' j = slot key0 p (j - 1)) /\
     (forall g, 0 <= g -> g <> T -> g <> C ->
        data_ (page_at Zeroed b' g) = data_ (page_at Zeroed b g))).
Proof.
  intros HdT HC HokT HokC Hne Hmap Hsize. pose proof HokT as [HT0 _]. pose proof HokC as [HC0 _].
  split.
  - set (e1 := fun q : InternalPage KeyType =>
                 iset_array (arr_set (ient0 key0) (int_array q) (isize q) (k, child)) q).
    set (e2 := fun q : InternalPage KeyType => iset_size (isize q + 1) q).
    destruct (adopt_child b T p C child d' (upd_internal T e1;; upd_internal T e2)
                HdT HC HokT HokC Hne Hmap)
      as (b3 & Hrun & Hpt3 & HokT3 & HdC3 & HdT3 & Hother3).
    destruct (upd_internal_frame b3 T p e1 HokT3 HdT3) as (b4 & Hu4 & Hpt4 & HokT4 & HdT4 & Ho4).
    destruct (upd_internal_frame b4 T (e1 p) e2 HokT4 HdT4)
      as (b5 & Hu5 & Hpt5 & HokT5 & HdT5 & Ho5).
    exists b5, (e2 (e1 p)). split; [|split; [|split; [|split; [|split; [|split; [|split]]]]]].
    + unfold CopyLastFrom. simpl snd. fold e1 e2. rewrite Hrun.
      rewrite (bind_Ok _ _ _ _ _ Hu4). exact Hu5.
    + congruence.
    + rewrite (Ho5 C), (Ho4 C) by assumption. exact HdC3.
    + exact HdT5.
    + reflexivity.
    + rewrite slot_arr_get. unfold e2, e1. simpl int_array. rewrite arr_get_set by exact Hsize.
      rewrite Z.eqb_refl. reflexivity.
    + intros j Hj. rewrite !slot_arr_get. unfold e2, e1. simpl int_array.
      rewrite arr_get_set by exact Hsize.
      destruct (Z.eqb_spec j (isize p)); [contradiction | reflexivity].
    + intros g Hg HgT HgC. rewrite (Ho5 g), (Ho4 g) by assumption. apply Hother3; assumption.
  - set (e1 := fun q : InternalPage KeyType =>
                 iset_array (arr_memmove (ient0 key0) (int_array q) 1 0 (isize q)) q).
    set (e2 := SetKeyValueAt key0 0 k child).
    set (e3 := fun q : InternalPage KeyType => iset_size (isize q + 1) q).
    destruct (adopt_child b T p C child d'
                (upd_internal T e1;; upd_internal T e2;; upd_internal T e3)
                HdT HC HokT HokC Hne Hmap)
      as (b3 & Hrun & Hpt3 & HokT3 & HdC3 & HdT3 & Hother3).
    destruct (upd_internal_frame b3 T p e1 HokT3 HdT3) as (b4 & Hu4 & Hpt4 & HokT4 & HdT4 & Ho4).
    destruct (upd_internal_frame b4 T (e1 p) e2 HokT4 HdT4)
      as (b5 & Hu5 & Hpt5 & HokT5 & HdT5 & Ho5).
    destruct (upd_internal_frame b5 T (e2 (e1 p)) e3 HokT5 HdT5)
      as (b6 & Hu6 & Hpt6 & HokT6 & HdT6 & Ho6).
    assert (Hslots : forall j, slot key0 (e3 (e2 (e1 p))) j =
              if j =? 0 then (k, child)
              else if (1 <=? j) && (j <? 1 + isize p) then slot key0 p (j - 1)
              else slot key0 p j).
    { intros j. rewrite !slot_arr_get. unfold e3, e2, e1.
      unfold SetKeyValueAt, SetValueAt, SetKeyAt, iset_size, iset_array. simpl int_array.
      rewrite !arr_get_set by lia.
      unfold KeyAt, ValueAt. simpl int_array.
      rewrite !arr_get_set by lia. rewrite Z.eqb_refl. simpl fst.
      destruct (Z.eqb_spec j 0) as [->|Hj]; [reflexivity|].
      rewrite arr_get_memmove by lia.
      destruct ((1 <=? j) && (j <? 1 + isize p)); [|reflexivity].
      f_equal; lia. }
    exists b6, (e3 (e2 (e1 p))). split; [|split; [|split; [|split; [|split; [|split; [|split]]]]]].
    + unfold CopyFirstFrom. simpl snd. simpl fst. fold e1 e2 e3. rewrite Hrun.
      rewrite (bind_Ok _ _ _ _ _ Hu4). rewrite (bind_Ok _ _ _ _ _ Hu5). exact Hu6.
    + congruence.
    + rewrite (Ho6 C), (Ho5 C), (Ho4 C) by assumption. exact HdC3.
    + exact HdT6.
    + reflexivity.
    + rewrite Hslots. reflexivity.
    + intros j Hj. rewrite Hslots.
      destruct (Z.eqb_spec j 0); [lia|].
      destruct (Z.leb_spec 1 j), (Z.ltb_spec j (1 + isize p)); cbn [andb]; try lia.
      reflexivity.
    + intros g Hg HgT HgC. rewrite (Ho6 g), (Ho5 g), (Ho4 g) by assumption.
      apply Hother3; assumption.
Qed.

End AdoptChild.
Lemma copy_last_and_first_adopt_child_witness :
  let b := buffer_pool_manager_ two_level_tree in
  exists b' p',
    CopyLastFrom 0 3 (9, 2) b = Ok tt b' /\
    data_ (page_at Zeroed b' 3) = InternalData p' /\
    isize p' = 4 /\ slot 0 p' 3 = (9, 2).
Proof.
  intros b.
  destruct (copy_last_and_first_adopt_child (ValueType := Z) 0 b 3
              (mkInternal (mkHdr 3 3 (-1) 3) [(0, 1); (2, 2); (3, 4)]) 2 9 2
              (LeafData (mkLeaf (mkHdr 1 3 3 2) 4 [(2, 20)])))
    as [(b' & p' & H1 & _ & _ & H2 & H3 & H4 & _) _].
  - vm_compute. reflexivity.
  - vm_compute. reflexivity.
  - vm_compute. split; [intros H; discriminate H | reflexivity].
  - vm_compute. split; [intros H; discriminate H | reflexivity].
  - discriminate.
  - vm_compute. reflexivity.
  - vm_compute. discriminate.
  - exists b', p'. split; [exact H1|]. split; [exact H2|]. split; [exact H3 | exact H4].
Defined.

(** ** b_plus_tree.cpp: a new root over a split root *)

Section NewRoot.
Context {KeyType ValueType : Type}.
Context (comparator : KeyType -> KeyType -> Z) (key0 : KeyType) (val0 : ValueType).
Implicit Types (t : BPlusTree KeyType ValueType)
               (b : BufferPoolManager (PageData KeyType ValueType)).

Lemma GetPageId_hdr b f (h : BPlusTreePage) :
  hdr_of (data_ (page_at Zeroed b f)) = Some h -> GetPageId f b = Ok (tree_page_id_ h) b.
Proof.
  intros Hh. unfold GetPageId, as_tree, GetData, gets, mbind, M_bind, mret, M_ret.
  rewrite Hh. reflexivity.
Qed.

Lemma GetParentPageId_hdr b f (h : BPlusTreePage) :
  hdr_of (data_ (page_at Zeroed b f)) = Some h ->
  GetParentPageId f b = Ok (parent_page_id_ h) b.
Proof.
  intros Hh. unfold GetParentPageId, as_tree, GetData, gets, mbind, M_bind, mret, M_ret.
  rewrite Hh. reflexivity.
Qed.

Lemma Internal_Init_at_zeroed b f page_id parent_id max_size :
  data_ (page_at Zeroed b f) = Zeroed ->
  Internal_Init_at f page_id parent_id max_size b
    = Ok tt (write_data Zeroed f
               (InternalData (Internal_Init page_id parent_id max_size [])) b).
Proof.
  intros Hd. unfold Internal_Init_at. rewrite (bind_Ok _ _ _ _ _ (GetData_Ok b f)).
  rewrite Hd. reflexivity.
Qed.

Lemma map_hdr_defined (d : PageData KeyType ValueType) (h : BPlusTreePage) g :
  hdr_of d = Some h -> exists d', map_hdr g d = Some d' /\ hdr_of d' = Some (g h).
Proof.
  destruct d; simpl; intros [= <-]; eexists; split; reflexivity.
Qed.

(** The root case of [InsertIntoParent]: the node that was split had no
    parent. *)
Lemma InsertIntoParent_new_root fuel t L R key f rest h hL hR :
  let b0 := buffer_pool_manager_ t in
  pool_inv Zeroed b0 ->
  free_list_ b0 = f :: rest ->
  page_table_ b0 !! HEADER_PAGE_ID = Some h ->
  data_ (page_at Zeroed b0 h) = Zeroed \/
  (exists recs, data_ (page_at Zeroed b0 h) = HeaderData recs) ->
  frame_ok b0 L -> frame_ok b0 R -> L <> R ->
  (L ∉ free_list_ b0) -> (R ∉ free_list_ b0) ->
  hdr_of (data_ (page_at Zeroed b0 L)) = Some hL ->
  hdr_of (data_ (page_at Zeroed b0 R)) = Some hR ->
  parent_page_id_ hL = INVALID_PAGE_ID ->
  let id := next_page_id_ (disk_manager_ b0) in
  let root := PopulateNewRoot key0 (tree_page_id_ hL) key (tree_page_id_ hR)
                (Internal_Init id INVALID_PAGE_ID (internal_max_size_ t) []) in
  exists t',
    InsertIntoParent key0 fuel L key R t = Ok tt t' /\
    root_page_id_ t' = id /\
    page_table_ (buffer_pool_manager_ t') = <[id := f]> (page_table_ b0) /\
    data_ (page_at Zeroed (buffer_pool_manager_ t') f) = InternalData root /\
    map_hdr (set_parent id) (data_ (page_at Zeroed b0 L))
      = Some (data_ (page_at Zeroed (buffer_pool_manager_ t') L)) /\
    map_hdr (set_parent id) (data_ (page_at Zeroed b0 R))
      = Some (data_ (page_at Zeroed (buffer_pool_manager_ t') R)).
Proof.
  intros b0 Hinv Hfl Hh Hhd HokL HokR HLR HLfree HRfree HhL HhR Hparent id root.
  pose proof Hinv as (Hwf & Hnd & Hfree & Hrep & Htab).
  destruct (Htab _ _ Hh) as (Hokh & Hhfree & _ & Hlt). fold id in Hlt.
  assert (Hid0 : id <> HEADER_PAGE_ID) by (unfold HEADER_PAGE_ID in *; lia).
  assert (Hfin : f ∈ free_list_ b0) by (rewrite Hfl; left).
  destruct (Hfree f Hfin) as [Hokf Hzero].
  assert (Hfh : f <> h) by (intros ->; contradiction).
  assert (HfL : f <> L) by (intros ->; contradiction).
  assert (HfR : f <> R) by (intros ->; contradiction).
  assert (HhL' : h <> L).
  { intros ->. destruct Hhd as [Hz|(recs & Hr)]; [rewrite Hz in HhL | rewrite Hr in HhL];
      discriminate. }
  assert (HhR' : h <> R).
  { intros ->. destruct Hhd as [Hz|(recs & Hr)]; [rewrite Hz in HhR | rewrite Hr in HhR];
      discriminate. }
  pose proof Hokf as [Hf0 _]. pose proof HokL as [HL0 _]. pose proof HokR as [HR0 _].
  pose proof Hokh as [Hh0 _].
  destruct (NewPageImpl_cases Zeroed b0 Hinv)
    as [(Hc & _)|[(f1 & rest1 & Hfl1 & _ & Hnew)|(v & r' & Hc & _)]];
    [congruence| |congruence].
  cbv zeta in Hnew. fold id in Hnew.
  assert (f1 = f) by congruence. subst f1.
  match type of Hnew with _ = (_, ?bb) => set (b1 := bb) in * end.
  assert (Hfo1 : forall g, frame_ok b1 g <-> frame_ok b0 g).
  { intros g. unfold frame_ok, b1. simpl. rewrite length_insert. reflexivity. }
  assert (Hpg1 : forall g, 0 <= g -> g <> f -> page_at Zeroed b1 g = page_at Zeroed b0 g).
  { intros g Hg Hne. unfold b1. rewrite (page_at_stored Zeroed b0 f g) by assumption.
    rewrite decide_False by exact Hne. reflexivity. }
  assert (Hz1 : data_ (page_at Zeroed b1 f) = Zeroed).
  { unfold b1. rewrite (page_at_stored Zeroed b0 f f) by assumption.
    rewrite decide_True by reflexivity. simpl. exact Hzero. }
  set (init := Internal_Init id INVALID_PAGE_ID (internal_max_size_ t) []
               : InternalPage KeyType) in *.
  destruct (map_hdr_defined _ hL (set_parent id) HhL) as (dL & HdL & _).
  destruct (map_hdr_defined _ hR (set_parent id) HhR) as (dR & HdR & _).
  set (b2 := write_data Zeroed f (InternalData init) b1).
  set (b3 := write_data Zeroed f (InternalData root) b2).
  set (b4 := write_data Zeroed R dR b3).
  set (b5 := write_data Zeroed L dL b4).
  destruct (write_data_frame b1 f (InternalData init) (proj2 (Hfo1 f) Hokf))
    as (Hd2 & Hpt2 & Hok2 & Ho2). fold b2 in Hd2, Hpt2, Hok2, Ho2.
  destruct (write_data_frame b2 f (InternalData root) Hok2)
    as (Hd3 & Hpt3 & Hok3 & Ho3). fold b3 in Hd3, Hpt3, Hok3, Ho3.
  assert (HokR3 : frame_ok b3 R)
    by (unfold b3, b2; rewrite !frame_ok_write_data; apply Hfo1; exact HokR).
  destruct (write_data_frame b3 R dR HokR3)
    as (Hd4 & Hpt4 & Hok4 & Ho4). fold b4 in Hd4, Hpt4, Hok4, Ho4.
  assert (HokL4 : frame_ok b4 L)
    by (unfold b4, b3, b2; rewrite !frame_ok_write_data; apply Hfo1; exact HokL).
  destruct (write_data_frame b4 L dL HokL4)
    as (Hd5 & Hpt5 & Hok5 & Ho5). fold b5 in Hd5, Hpt5, Hok5, Ho5.
  assert (Hpt05 : page_table_ b5 = <[id := f]> (page_table_ b0))
    by (rewrite Hpt5, Hpt4, Hpt3, Hpt2; reflexivity).
  (* what the frames hold before the parents are set *)
  assert (HL1 : data_ (page_at Zeroed b1 L) = data_ (page_at Zeroed b0 L))
    by (rewrite Hpg1 by congruence; reflexivity).
  assert (HR1 : data_ (page_at Zeroed b1 R) = data_ (page_at Zeroed b0 R))
    by (rewrite Hpg1 by congruence; reflexivity).
  assert (HL3 : data_ (page_at Zeroed b3 L) = data_ (page_at Zeroed b0 L))
    by (rewrite Ho3, Ho2 by congruence; exact HL1).
  assert (HR3 : data_ (page_at Zeroed b3 R) = data_ (page_at Zeroed b0 R))
    by (rewrite Ho3, Ho2 by congruence; exact HR1).
  assert (HL2 : data_ (page_at Zeroed b2 L) = data_ (page_at Zeroed b0 L))
    by (rewrite Ho2 by congruence; exact HL1).
  assert (HR2 : data_ (page_at Zeroed b2 R) = data_ (page_at Zeroed b0 R))
    by (rewrite Ho2 by congruence; exact HR1).
  assert (HL4 : data_ (page_at Zeroed b4 L) = data_ (page_at Zeroed b0 L))
    by (rewrite Ho4 by congruence; exact HL3).
  (* the header page *)
  assert (Hh5 : data_ (page_at Zeroed b5 h) = data_ (page_at Zeroed b0 h)).
  { rewrite Ho5, Ho4, Ho3, Ho2 by congruence. rewrite Hpg1 by congruence. reflexivity. }
  set (t5 := set_root id (set_bpm b5 (set_bpm b4 (set_bpm b3 (set_bpm b2 (set_bpm b1 t)))))).
  destruct (UpdateRootPageId_resident_header t5 h [])
    as (t6 & Hupd & Hroot6 & Hpt6 & Hd6).
  { change (buffer_pool_manager_ t5) with b5.
    rewrite Hpt05. rewrite lookup_insert_ne by exact Hid0. exact Hh. }
  { change (buffer_pool_manager_ t5) with b5.
    unfold b5, b4, b3, b2. rewrite !frame_ok_write_data. apply Hfo1. exact Hokh. }
  { change (buffer_pool_manager_ t5) with b5. rewrite Hh5. exact Hhd. }
  change (buffer_pool_manager_ t5) with b5 in Hpt6, Hd6.
  change (root_page_id_ t5) with id in Hroot6.
  set (b7 := snd (UnpinPageImpl Zeroed id true (buffer_pool_manager_ t6))).
  pose proof (same_contents_UnpinPageImpl Zeroed (buffer_pool_manager_ t6) id true)
    as (Hpt7 & _ & _ & Hdata7).
  fold b7 in Hpt7, Hdata7.
  exists (set_bpm b7 t6).
  split; [|split; [|split; [|split; [|split]]]].
  - assert (HhL2 : hdr_of (data_ (page_at Zeroed b2 L)) = Some hL) by (rewrite HL2; exact HhL).
    assert (HhR2 : hdr_of (data_ (page_at Zeroed b2 R)) = Some hR) by (rewrite HR2; exact HhR).
    assert (HdR3 : map_hdr (set_parent id) (data_ (page_at Zeroed b3 R)) = Some dR)
      by (rewrite HR3; exact HdR).
    assert (HdL4 : map_hdr (set_parent id) (data_ (page_at Zeroed b4 L)) = Some dL)
      by (rewrite HL4; exact HdL).
    assert (Hstart : forall K : M (BPlusTree KeyType ValueType) unit,
              (parent_id ← liftB (GetParentPageId L);
               if parent_id =? INVALID_PAGE_ID then
                 '(parent_page, parent_page_id) ← liftB WrapNewPage;
                 imax ← gets internal_max_size_;
                 liftB (Internal_Init_at parent_page parent_page_id INVALID_PAGE_ID imax);;
                 oid ← liftB (GetPageId L);
                 nid ← liftB (GetPageId R);
                 liftB (upd_internal parent_page (PopulateNewRoot key0 oid key nid));;
                 liftB (SetParentPageId R parent_page_id);;
                 liftB (SetParentPageId L parent_page_id);;
                 modify (set_root parent_page_id);;
                 UpdateRootPageId 0;;
                 liftB (UnpinPage parent_page_id true);;
                 mret tt
               else K) t = Ok tt (set_bpm b7 t6)).
    { intros K.
      erewrite bind_Ok by (apply liftB_Ok, (GetParentPageId_hdr _ L hL); exact HhL).
      rewrite Hparent, Z.eqb_refl. rewrite set_bpm_same.
      erewrite bind_Ok by (apply liftB_Ok, WrapNewPage_Ok; exact Hnew).
      cbv beta iota.
      erewrite bind_Ok by reflexivity.
      erewrite bind_Ok by (apply liftB_Ok, Internal_Init_at_zeroed; exact Hz1).
      fold init b2.
      erewrite bind_Ok by (apply liftB_Ok, (GetPageId_hdr _ L hL); exact HhL2).
      erewrite bind_Ok by (apply liftB_Ok, (GetPageId_hdr _ R hR); exact HhR2).
      erewrite bind_Ok by (apply liftB_Ok, (upd_internal_Ok _ f init); exact Hd2).
      fold root b3.
      erewrite bind_Ok by (apply liftB_Ok, (SetParentPageId_Ok _ R id dR); exact HdR3).
      fold b4.
      erewrite bind_Ok by (apply liftB_Ok, (SetParentPageId_Ok _ L id dL); exact HdL4).
      fold b5.
      erewrite bind_Ok by reflexivity.
      erewrite bind_Ok by exact Hupd.
      erewrite bind_Ok by (apply liftB_Ok, UnpinPage_Ok).
      reflexivity. }
    destruct fuel; cbn [InsertIntoParent]; apply Hstart.
  - exact Hroot6.
  - change (page_table_ b7 = <[id:=f]> (page_table_ b0)). rewrite Hpt7, Hpt6. exact Hpt05.
  - change (data_ (page_at Zeroed b7 f) = InternalData root).
    rewrite Hdata7, Hd6 by congruence. rewrite Ho5, Ho4 by congruence. exact Hd3.
  - change (Some dL = Some (data_ (page_at Zeroed b7 L))) || rewrite HdL.
    change (buffer_pool_manager_ (set_bpm b7 t6)) with b7.
    rewrite Hdata7, Hd6 by congruence. rewrite Hd5. reflexivity.
  - rewrite HdR. change (buffer_pool_manager_ (set_bpm b7 t6)) with b7.
    rewrite Hdata7, Hd6 by congruence. rewrite Ho5 by congruence. rewrite Hd4. reflexivity.
Qed.

(** X27.  When the node that was split is the root, [InsertIntoParent]
    makes a new root: it allocates a page for it, stores the two nodes in it
    with the separator between them, makes it the parent of both and the
    tree's root.  [Lookup] in the new root sends the keys the comparator puts
    below the separator to the old node and all others to the new one. *)
Theorem insert_into_parent_makes_new_root fuel t L R key f rest h hL hR :
  let b0 := buffer_pool_manager_ t in
  pool_inv Zeroed b0 ->
  free_list_ b0 = f :: rest ->
  page_table_ b0 !! HEADER_PAGE_ID = Some h ->
  data_ (page_at Zeroed b0 h) = Zeroed \/
  (exists recs, data_ (page_at Zeroed b0 h) = HeaderData recs) ->
  frame_ok b0 L -> frame_ok b0 R -> L <> R ->
  (L ∉ free_list_ b0) -> (R ∉ free_list_ b0) ->
  hdr_of (data_ (page_at Zeroed b0 L)) = Some hL ->
  hdr_of (data_ (page_at Zeroed b0 R)) = Some hR ->
  parent_page_id_ hL = INVALID_PAGE_ID ->
  let id := next_page_id_ (disk_manager_ b0) in
  exists t' root,
    InsertIntoParent key0 fuel L key R t = Ok tt t' /\
    root_page_id_ t' = id /\
    page_table_ (buffer_pool_manager_ t') = <[id := f]> (page_table_ b0) /\
    data_ (page_at Zeroed (buffer_pool_manager_ t') f) = InternalData root /\
    isize root = 2 /\
    tree_page_id_ (int_hdr root) = id /\
    parent_page_id_ (int_hdr root) = INVALID_PAGE_ID /\
    (forall k, Lookup comparator key0 root k =
       if 0 <? comparator key k then tree_page_id_ hL else tree_page_id_ hR) /\
    hdr_of (data_ (page_at Zeroed (buffer_pool_manager_ t') L)) = Some (set_parent id hL) /\
    hdr_of (data_ (page_at Zeroed (buffer_pool_manager_ t') R)) = Some (set_parent id hR).
Proof.
  intros b0 Hinv Hfl Hh Hhd HokL HokR HLR HLfree HRfree HhL HhR Hparent id.
  destruct (InsertIntoParent_new_root fuel t L R key f rest h hL hR
              Hinv Hfl Hh Hhd HokL HokR HLR HLfree HRfree HhL HhR Hparent)
    as (t' & Hrun & Hroot & Hpt & Hdf & HdL & HdR).
  fold b0 id in Hroot, Hpt, Hdf, HdL, HdR.
  eexists t', _. split; [exact Hrun|]. split; [exact Hroot|]. split; [exact Hpt|].
  split; [exact Hdf|]. split; [reflexivity|]. split; [reflexivity|]. split; [reflexivity|].
  split; [|split].
  - intros k.
    apply (PopulateNewRoot_Lookup comparator key0
             (Internal_Init id INVALID_PAGE_ID (internal_max_size_ t) [])
             (tree_page_id_ hL) key (tree_page_id_ hR) k).
  - destruct (map_hdr_defined _ hL (set_parent id) HhL) as (d & Hd & Hh').
    rewrite Hd in HdL. injection HdL as <-. exact Hh'.
  - destruct (map_hdr_defined _ hR (set_parent id) HhR) as (d & Hd & Hh').
    rewrite Hd in HdR. injection HdR as <-. exact Hh'.
Qed.

End NewRoot.

Lemma insert_into_parent_makes_new_root_witness :
  exists t' root,
    InsertIntoParent 0 10 1 2 2 split_root_tree = Ok tt t' /\
    root_page_id_ t' = 3 /\
    data_ (page_at Zeroed (buffer_pool_manager_ t') 3) = InternalData root /\
    Lookup cmpZ 0 root 1 = 1 /\ Lookup cmpZ 0 root 2 = 2.
Proof.
  destruct (insert_into_parent_makes_new_root cmpZ 0 10 split_root_tree 1 2 2 3 [4] 0
              (mkHdr 1 3 INVALID_PAGE_ID 1) (mkHdr 2 3 INVALID_PAGE_ID 2))
    as (t' & root & H1 & H2 & _ & H3 & _ & _ & _ & H4 & _).
  - unfold split_root_tree, buffer_pool_manager_.
    apply (pool_inv_write_data Zeroed _ 2 _ 2); [|reflexivity].
    apply (pool_inv_write_data Zeroed _ 1 _ 1); [|reflexivity].
    apply pool_inv_NewPageImpl, pool_inv_NewPageImpl, pool_inv_NewPageImpl, pool_inv_new. lia.
  - reflexivity.
  - reflexivity.
  - left. reflexivity.
  - vm_compute. split; [intros H; discriminate H | reflexivity].
  - vm_compute. split; [intros H; discriminate H | reflexivity].
  - discriminate.
  - vm_compute. intros H. repeat (apply elem_of_cons in H; destruct H as [H|H]; [discriminate H|]).
    inversion H.
  - vm_compute. intros H. repeat (apply elem_of_cons in H; destruct H as [H|H]; [discriminate H|]).
    inversion H.
  - reflexivity.
  - reflexivity.
  - reflexivity.
  - exists t', root. split; [exact H1|]. split; [exact H2|]. split; [exact H3|].
    split; [rewrite H4 | rewrite H4]; reflexivity.
Defined.
(** ** b_plus_tree.h: finding a sibling *)

Section Siblings.
Context {KeyType ValueType : Type} (key0 : KeyType).
Implicit Types (t : BPlusTree KeyType ValueType)
               (b : BufferPoolManager (PageData KeyType ValueType)).




End Siblings.


(** ** b_plus_tree.cpp: an insert that splits a leaf *)

Section KeepsBooks.
Context {Data : Type} (zero : Data).
Implicit Types (b : BufferPoolManager Data).




End KeepsBooks.

Section SplitOnInsert.
Context {KeyType ValueType : Type}.
Context (comparator : KeyType -> KeyType -> Z) (key0 : KeyType) (val0 : ValueType).
Implicit Types (t : BPlusTree KeyType ValueType)
               (b : BufferPoolManager (PageData KeyType ValueType))
               (l : LeafPage KeyType ValueType).



Lemma length_sorted_insert key value (a : list (KeyType * ValueType)) :
  length (sorted_insert comparator key value a) = S (length a).
Proof.
  induction a as [|e a IH]; [reflexivity|]. simpl.
  destruct (0 <? comparator (fst e) key); simpl; [reflexivity|]. rewrite IH. reflexivity.
Qed.








End SplitOnInsert.

